(** * rag-chatbot: the PostgreSQL store of [utils/database.py]

    A shallow embedding of the data-access layer: the six tables created by
    [init_database] with their constraints (SERIAL keys, NOT NULL, UNIQUE,
    FOREIGN KEY ... ON DELETE CASCADE), the SQL statements the module sends,
    psycopg2's connection with its implicit transaction, and the Python
    functions with their [try]/[except]/[finally] structure.

    Modelling conventions.
    - A table is the list of its rows in insertion order; the constraints are
      checked by the statements, not built into the representation.
    - A SERIAL column draws from a sequence that lives outside transactions:
      a rolled-back INSERT still consumes a value.  Keys and counters are
      unbounded ([Z]): the 2^31 limit of a sequence is not modelled, only the
      range check on the numbers that come from the caller (ids, page
      numbers and counts) where they are assigned to an INTEGER column.
    - CURRENT_TIMESTAMP is the clock of the connection's transaction, given
      by the environment ([clock]).
    - A connection may be refused, and every round trip on it (a statement,
      a commit, a rollback) may be lost: the environment of one connection is
      a [link].  A lost round trip raises OperationalError and leaves the
      connection closed: whatever is asked of it afterwards raises
      InterfaceError.  Errors that the server raises of its own accord
      (a deadlock, a cancelled query) are not modelled.
    - Python's [float] is the binary64 of [PrimFloat].  Conversions between
      floats and text, and the server's casts of a float (to INTEGER, to
      TEXT, to the single precision of REAL), are parameters ([runtime]).
    - A [string] is a Python [str], as its UTF-8 encoding: it may hold a NUL
      character, which psycopg2 refuses to send (ValueError) and which no
      TEXT column holds.
    - A Python [int] is unbounded: a parameter outside the range of INTEGER
      is refused by the server (DataError) when it is assigned to a column.
    - The schema is in place: [init_database] finds every table and index
      and creates nothing. *)

From Stdlib Require Import ZArith String Floats.
From stdpp Require Import base decidable option list sorting gmap strings pretty.

Set Warnings "-inexact-float".
Local Open Scope Z_scope.

(** ** Exceptions and outcomes *)

(** The exception classes the module can meet: psycopg2's (the three
    integrity violations are subclasses of [psycopg2.IntegrityError]) and
    the built-in ones raised by [float()] and by the adaptation of a
    parameter. *)
Inductive exn : Set :=
  | OperationalError
  | InterfaceError
  | ProgrammingError
  | DataError
  | NotNullViolation
  | UniqueViolation
  | ForeignKeyViolation
  | ValueError
  | TypeError
  | OverflowError.

Global Instance exn_eq_dec : EqDecision exn.
Proof. solve_decision. Defined.

(** [isinstance(e, psycopg2.IntegrityError)] *)
Definition IntegrityError (e : exn) : bool :=
  match e with
  | NotNullViolation | UniqueViolation | ForeignKeyViolation => true
  | _ => false
  end.

(** What a Python call does: it returns a value or raises. *)
Inductive outcome (A : Type) : Type :=
  | Returned (a : A)
  | Raised (e : exn).
Global Arguments Returned {A} a.
Global Arguments Raised {A} e.

Definition returned {A} (o : outcome A) : bool :=
  match o with Returned _ => true | Raised _ => false end.

(** ** Python values *)

(** The values of type [Any] that reach the module: [None], an [int], a
    [float] or a [str]. *)
Inductive pyval : Type :=
  | PyNone
  | PyInt (n : Z)
  | PyFloat (f : float)
  | PyStr (s : string).

(** Conversions that are neither in the repository nor in the libraries
    loaded here: Python's parsing and printing of floats and the server's
    casts.  [None] stands for the conversion's error. *)
Record runtime : Type := {
  (** [float(s)] for a [str]; [None]: ValueError *)
  float_of_str : string → option float;
  (** [str(f)] for a [float] *)
  str_of_float : float → string;
  (** a float parameter assigned to a TEXT column *)
  text_of_float : float → string;
  (** a float parameter assigned to an INTEGER column; [None]: out of range *)
  int4_of_float : float → option Z;
  (** a string parameter assigned to an INTEGER column; [None]: invalid
      input syntax *)
  int4_of_text : string → option Z;
  (** a float parameter assigned to a REAL column, as the float that is read
      back from the column: the server rounds to single precision, and
      reading back preserves the order of the stored values; [None]: out of
      range *)
  real_of_float : float → option float
}.

(** The nearest binary64 to an integer (round to nearest, ties to even);
    an infinity when the integer is out of range. *)
Definition float_of_Z (n : Z) : float :=
  SF2Prim (binary_normalize prec emax n 0 false).

(** [bool(v)]: the truth value used by [if not v]. *)
Definition truthy (v : pyval) : bool :=
  match v with
  | PyNone => false
  | PyInt n => negb (n =? 0)
  | PyFloat f => negb (is_zero f)
  | PyStr s => negb (String.eqb s "")
  end.

Definition int4 (n : Z) : bool := (-2147483648 <=? n) && (n <=? 2147483647).

(** Whether a [str] holds a NUL character.  psycopg2 adapts the parameters
    of a statement before it sends anything: a [str] with a NUL raises
    ValueError. *)
Fixpoint has_nul (s : string) : bool :=
  match s with
  | EmptyString => false
  | String c s' => Ascii.eqb c Ascii.zero || has_nul s'
  end.

Definition opt_has_nul (o : option string) : bool :=
  match o with
  | Some s => has_nul s
  | None => false
  end.

Definition val_has_nul (v : pyval) : bool :=
  match v with
  | PyStr s => has_nul s
  | _ => false
  end.

Section Conversions.
Context (rt : runtime).

(** [float(v)] *)
Definition py_float (v : pyval) : outcome float :=
  match v with
  | PyFloat f => Returned f
  | PyInt n =>
      let f := float_of_Z n in
      if is_infinity f then Raised OverflowError else Returned f
  | PyStr s =>
      match float_of_str rt s with
      | Some f => Returned f
      | None => Raised ValueError
      end
  | PyNone => Raised TypeError
  end.

(** [str(v)] *)
Definition py_str (v : pyval) : string :=
  match v with
  | PyNone => "None"
  | PyInt n => pretty n
  | PyFloat f => str_of_float rt f
  | PyStr s => s
  end.

(** A parameter bound to a TEXT column: [None] is NULL, anything else is
    cast to text on assignment. *)
Definition to_text (v : pyval) : option string :=
  match v with
  | PyNone => None
  | PyInt n => Some (pretty n)
  | PyFloat f => Some (text_of_float rt f)
  | PyStr s => Some s
  end.

(** A parameter bound to an INTEGER column. *)
Definition to_int4 (v : pyval) : outcome (option Z) :=
  match v with
  | PyNone => Returned None
  | PyInt n => if int4 n then Returned (Some n) else Raised DataError
  | PyFloat f =>
      match int4_of_float rt f with
      | Some n => Returned (Some n)
      | None => Raised DataError
      end
  | PyStr s =>
      match int4_of_text rt s with
      | Some n => Returned (Some n)
      | None => Raised DataError
      end
  end.
End Conversions.

(** ** The schema of [init_database] *)

(** Rows carry the columns of the CREATE TABLE statements.  A column is an
    [option] when a statement of the module can store NULL in it; the columns
    filled by a DEFAULT (the timestamps, [document_count]) and the score,
    always bound to a Python float, never hold NULL. *)

Module Conversation.
Record t : Type := Row {
  id : Z;
  title : string;
  created_at : Z;
  last_updated : Z
}.
End Conversation.

Module Message.
Record t : Type := Row {
  id : Z;
  conversation_id : Z;
  role : string;
  content : string;
  created_at : Z
}.
End Message.

Module Source.
Record t : Type := Row {
  id : Z;
  message_id : Z;
  source_document : string;
  page_number : option Z;
  score : float;
  kb_name : option string
}.
End Source.

Module Setting.
Record t : Type := Row {
  id : Z;
  key : string;
  value : string
}.
End Setting.

Module KnowledgeBase.
Record t : Type := Row {
  id : Z;
  name : string;
  description : option string;
  created_at : Z;
  document_count : Z;
  embedding_model : string;
  chunking_strategy : string
}.
End KnowledgeBase.

Module Document.
Record t : Type := Row {
  id : Z;
  knowledge_base_id : Z;
  filename : string;
  document_type : string;
  page_count : Z;
  chunk_count : Z;
  created_at : Z
}.
End Document.

Record tables : Type := Tables {
  conversations : list Conversation.t;
  messages : list Message.t;
  sources : list Source.t;
  settings : list Setting.t;
  knowledge_bases : list KnowledgeBase.t;
  documents : list Document.t
}.

(** The sequences behind the six SERIAL keys: each field is the value the
    next [nextval] returns. *)
Record sequences : Type := Sequences {
  conversations_id_seq : Z;
  messages_id_seq : Z;
  sources_id_seq : Z;
  settings_id_seq : Z;
  knowledge_bases_id_seq : Z;
  documents_id_seq : Z
}.

Definition no_rows : tables := Tables [] [] [] [] [] [].
Definition fresh_sequences : sequences := Sequences 1 1 1 1 1 1.

Definition set_conversations (x : list Conversation.t) (t : tables) : tables :=
  Tables x (messages t) (sources t) (settings t) (knowledge_bases t) (documents t).
Definition set_messages (x : list Message.t) (t : tables) : tables :=
  Tables (conversations t) x (sources t) (settings t) (knowledge_bases t) (documents t).
Definition set_sources (x : list Source.t) (t : tables) : tables :=
  Tables (conversations t) (messages t) x (settings t) (knowledge_bases t) (documents t).
Definition set_settings (x : list Setting.t) (t : tables) : tables :=
  Tables (conversations t) (messages t) (sources t) x (knowledge_bases t) (documents t).
Definition set_knowledge_bases (x : list KnowledgeBase.t) (t : tables) : tables :=
  Tables (conversations t) (messages t) (sources t) (settings t) x (documents t).
Definition set_documents (x : list Document.t) (t : tables) : tables :=
  Tables (conversations t) (messages t) (sources t) (settings t) (knowledge_bases t) x.

(** ** SQL statements *)

(** A statement runs at a time [now] on the tables the transaction sees and
    on the sequences.  When a parameter cannot be adapted the statement is
    not sent.  Otherwise the server either yields a result and the new
    tables or fails with an error and leaves the tables as they were; the
    sequences advance in both cases. *)
Inductive answer (A : Type) : Type :=
  | Done (a : A) (t : tables)
  | Failed (e : exn)
  | Unsent (e : exn).
Global Arguments Done {A} a t.
Global Arguments Failed {A} e.
Global Arguments Unsent {A} e.

Definition statement (A : Type) : Type :=
  Z → tables → sequences → answer A * sequences.

(** A query reads the tables and changes nothing. *)
Definition query {A} (f : tables → A) : statement A :=
  λ _ t q, (Done (f t) t, q).

(** The order PostgreSQL puts on floats ([float4_cmp_internal]): NaN is
    equal to itself and above every other value. *)
Definition float_lt (a b : float) : bool :=
  if is_nan a then false
  else if is_nan b then true
  else (a <? b)%float.

(** The orderings of the ORDER BY clauses: [R x y] when [x] may come before
    [y]. *)
Definition last_updated_desc (x y : Conversation.t) : Prop :=
  Conversation.last_updated y ≤ Conversation.last_updated x.
Definition created_at_asc (x y : Message.t) : Prop :=
  Message.created_at x ≤ Message.created_at y.
Definition score_desc (x y : Source.t) : Prop :=
  float_lt (Source.score x) (Source.score y) = false.
Definition kb_created_at_desc (x y : KnowledgeBase.t) : Prop :=
  KnowledgeBase.created_at y ≤ KnowledgeBase.created_at x.
Definition doc_created_at_desc (x y : Document.t) : Prop :=
  Document.created_at y ≤ Document.created_at x.

Global Instance score_desc_dec x y : Decision (score_desc x y).
Proof. unfold score_desc. apply _. Defined.
Global Instance last_updated_desc_dec x y : Decision (last_updated_desc x y).
Proof. unfold last_updated_desc. apply _. Defined.
Global Instance created_at_asc_dec x y : Decision (created_at_asc x y).
Proof. unfold created_at_asc. apply _. Defined.
Global Instance kb_created_at_desc_dec x y : Decision (kb_created_at_desc x y).
Proof. unfold kb_created_at_desc. apply _. Defined.
Global Instance doc_created_at_desc_dec x y : Decision (doc_created_at_desc x y).
Proof. unfold doc_created_at_desc. apply _. Defined.

(** *** Conversations and messages *)

(** [SELECT id, title, created_at FROM conversations ORDER BY last_updated
    DESC] *)
Definition SELECT_conversations : statement (list (Z * string * Z)) :=
  query (λ t,
    (λ c, (Conversation.id c, Conversation.title c, Conversation.created_at c))
      <$> merge_sort last_updated_desc (conversations t)).

(** [INSERT INTO conversations (title) VALUES (%s) RETURNING id] *)
Definition INSERT_conversation (title : string) : statement Z :=
  λ now t q,
    if has_nul title then (Unsent ValueError, q)
    else
      let id := conversations_id_seq q in
      let q' := Sequences (id + 1) (messages_id_seq q) (sources_id_seq q)
                  (settings_id_seq q) (knowledge_bases_id_seq q) (documents_id_seq q) in
      if decide (id ∈ Conversation.id <$> conversations t)
      then (Failed UniqueViolation, q')
      else (Done id (set_conversations
                       (conversations t ++ [Conversation.Row id title now now]) t), q').

(** [SELECT id, role, content, created_at FROM messages WHERE
    conversation_id = %s ORDER BY created_at] *)
Definition SELECT_messages (conversation_id : Z)
  : statement (list (Z * string * string * Z)) :=
  query (λ t,
    (λ m, (Message.id m, Message.role m, Message.content m, Message.created_at m))
      <$> merge_sort created_at_asc
            (filter (λ m, Message.conversation_id m = conversation_id) (messages t))).

(** [INSERT INTO messages (conversation_id, role, content) VALUES (%s, %s,
    %s) RETURNING id].  The cast of [conversation_id] to INTEGER fails
    before a key is drawn. *)
Definition INSERT_message (conversation_id : Z) (role content : string)
  : statement Z :=
  λ now t q,
    if has_nul role || has_nul content then (Unsent ValueError, q)
    else if int4 conversation_id then
      let id := messages_id_seq q in
      let q' := Sequences (conversations_id_seq q) (id + 1) (sources_id_seq q)
                  (settings_id_seq q) (knowledge_bases_id_seq q) (documents_id_seq q) in
      if decide (id ∈ Message.id <$> messages t)
      then (Failed UniqueViolation, q')
      else if decide (conversation_id ∈ Conversation.id <$> conversations t)
      then (Done id (set_messages
                       (messages t ++ [Message.Row id conversation_id role content now]) t), q')
      else (Failed ForeignKeyViolation, q')
    else (Failed DataError, q).

Definition touch (now conversation_id : Z) (c : Conversation.t) : Conversation.t :=
  if decide (Conversation.id c = conversation_id)
  then Conversation.Row (Conversation.id c) (Conversation.title c)
         (Conversation.created_at c) now
  else c.

(** [UPDATE conversations SET last_updated = CURRENT_TIMESTAMP WHERE id =
    %s] *)
Definition UPDATE_last_updated (conversation_id : Z) : statement unit :=
  λ now t q,
    (Done () (set_conversations (touch now conversation_id <$> conversations t) t), q).

Definition retitle (new_title : string) (conversation_id : Z) (c : Conversation.t)
  : Conversation.t :=
  if decide (Conversation.id c = conversation_id)
  then Conversation.Row (Conversation.id c) new_title
         (Conversation.created_at c) (Conversation.last_updated c)
  else c.

(** [UPDATE conversations SET title = %s WHERE id = %s] *)
Definition UPDATE_title (new_title : string) (conversation_id : Z) : statement unit :=
  λ _ t q,
    if has_nul new_title then (Unsent ValueError, q)
    else
      (Done () (set_conversations
                  (retitle new_title conversation_id <$> conversations t) t), q).

(** [DELETE FROM conversations WHERE id = %s].  The foreign keys of
    [messages] and [sources] are declared ON DELETE CASCADE: the messages
    that reference a deleted conversation go with it, and the sources that
    reference a deleted message go with the message. *)
Definition DELETE_conversation (conversation_id : Z) : statement unit :=
  λ _ t q,
    let deleted :=
      Conversation.id <$>
        filter (λ c, Conversation.id c = conversation_id) (conversations t) in
    let cascaded :=
      Message.id <$>
        filter (λ m, Message.conversation_id m ∈ deleted) (messages t) in
    (Done ()
       (Tables
          (filter (λ c, Conversation.id c ≠ conversation_id) (conversations t))
          (filter (λ m, Message.conversation_id m ∉ deleted) (messages t))
          (filter (λ s, Source.message_id s ∉ cascaded) (sources t))
          (settings t) (knowledge_bases t) (documents t)), q).

(** *** Sources *)

(** The dictionaries returned by [get_sources]. *)
Module Citation.
Record t : Type := Dict {
  source : string;
  page : option Z;
  score : float;
  kb_name : option string
}.
End Citation.

Definition cite (s : Source.t) : Citation.t :=
  Citation.Dict (Source.source_document s) (Source.page_number s)
    (Source.score s) (Source.kb_name s).

(** [SELECT source_document, page_number, score, kb_name FROM sources WHERE
    message_id = %s ORDER BY score DESC], each row turned into a dictionary *)
Definition SELECT_sources (message_id : Z) : statement (list Citation.t) :=
  query (λ t,
    cite <$> merge_sort score_desc
               (filter (λ s, Source.message_id s = message_id) (sources t))).

(** The casts of the parameters of [INSERT INTO sources] to the types of
    their columns: the page and the message id to INTEGER, the score to
    REAL. *)
Definition cast_source (rt : runtime) (message_id : Z) (page_number : pyval)
    (score : float) : outcome (option Z * float) :=
  match to_int4 rt page_number with
  | Raised e => Raised e
  | Returned page =>
      if int4 message_id then
        match real_of_float rt score with
        | Some real => Returned (page, real)
        | None => Raised DataError
        end
      else Raised DataError
  end.

(** [INSERT INTO sources (message_id, source_document, page_number, score,
    kb_name) VALUES (%s, %s, %s, %s, %s)].  The casts of the parameters to
    the column types fail before a key is drawn and the row is formed; the
    row holds the score as the REAL column returns it. *)
Definition INSERT_source (rt : runtime) (message_id : Z)
    (source_document page_number : pyval) (score : float) (kb_name : pyval)
  : statement unit :=
  λ _ t q,
    if val_has_nul source_document || val_has_nul page_number || val_has_nul kb_name
    then (Unsent ValueError, q)
    else
      match cast_source rt message_id page_number score with
      | Raised e => (Failed e, q)
      | Returned (page, real) =>
          let id := sources_id_seq q in
          let q' := Sequences (conversations_id_seq q) (messages_id_seq q) (id + 1)
                      (settings_id_seq q) (knowledge_bases_id_seq q) (documents_id_seq q) in
          match to_text rt source_document with
          | None => (Failed NotNullViolation, q')
          | Some doc =>
              if decide (id ∈ Source.id <$> sources t)
              then (Failed UniqueViolation, q')
              else if decide (message_id ∈ Message.id <$> messages t)
              then (Done () (set_sources
                               (sources t ++
                                  [Source.Row id message_id doc page real
                                     (to_text rt kb_name)]) t), q')
              else (Failed ForeignKeyViolation, q')
          end
      end.

(** *** Knowledge bases and documents *)

(** [INSERT INTO knowledge_bases (name, description, embedding_model,
    chunking_strategy) VALUES (%s, %s, %s, %s) RETURNING id].  A parameter
    that is [None] is NULL: [name], [embedding_model] and
    [chunking_strategy] are NOT NULL, [name] is UNIQUE, and
    [document_count] takes its default 0. *)
Definition INSERT_knowledge_base
    (name description embedding_model chunking_strategy : option string)
  : statement Z :=
  λ now t q,
    if opt_has_nul name || opt_has_nul description ||
       opt_has_nul embedding_model || opt_has_nul chunking_strategy
    then (Unsent ValueError, q)
    else
      let id := knowledge_bases_id_seq q in
      let q' := Sequences (conversations_id_seq q) (messages_id_seq q) (sources_id_seq q)
                  (settings_id_seq q) (id + 1) (documents_id_seq q) in
      match name, embedding_model, chunking_strategy with
      | Some n, Some em, Some cs =>
          if decide (id ∈ KnowledgeBase.id <$> knowledge_bases t)
          then (Failed UniqueViolation, q')
          else if decide (n ∈ KnowledgeBase.name <$> knowledge_bases t)
          then (Failed UniqueViolation, q')
          else (Done id (set_knowledge_bases
                           (knowledge_bases t ++
                              [KnowledgeBase.Row id n description now 0 em cs]) t), q')
      | _, _, _ => (Failed NotNullViolation, q')
      end.

(** The rows selected by [WHERE name = %s]; none when the parameter is
    NULL. *)
Definition named (name : option string) (t : tables) : list KnowledgeBase.t :=
  filter (λ k, Some (KnowledgeBase.name k) = name) (knowledge_bases t).

(** [SELECT id FROM knowledge_bases WHERE name = %s], then [fetchone()] *)
Definition SELECT_knowledge_base_id (name : option string) : statement (option Z) :=
  λ now t q,
    if opt_has_nul name then (Unsent ValueError, q)
    else query (λ t, KnowledgeBase.id <$> head (named name t)) now t q.

(** [SELECT id, name, description, created_at, document_count,
    embedding_model, chunking_strategy FROM knowledge_bases ORDER BY
    created_at DESC] *)
Definition SELECT_knowledge_bases : statement (list KnowledgeBase.t) :=
  query (λ t, merge_sort kb_created_at_desc (knowledge_bases t)).

(** The same columns [WHERE name = %s], then [fetchone()].  The parameter
    is the value [get_setting] returned: the value of a TEXT column, which
    holds no NUL, or the default [None]; a number could not be compared
    with the TEXT column. *)
Definition SELECT_knowledge_base (name : pyval) : statement (option KnowledgeBase.t) :=
  match name with
  | PyStr s => query (λ t, head (named (Some s) t))
  | PyNone => query (λ t, head (named None t))
  | PyInt _ | PyFloat _ => λ _ _ q, (Failed ProgrammingError, q)
  end.

(** [INSERT INTO documents (knowledge_base_id, filename, document_type,
    page_count, chunk_count) VALUES (%s, %s, %s, %s, %s) RETURNING id].  The
    casts of the three numbers to INTEGER fail before a key is drawn. *)
Definition INSERT_document (knowledge_base_id : Z) (filename document_type : string)
    (page_count chunk_count : Z) : statement Z :=
  λ now t q,
    if has_nul filename || has_nul document_type then (Unsent ValueError, q)
    else if int4 knowledge_base_id && int4 page_count && int4 chunk_count then
      let id := documents_id_seq q in
      let q' := Sequences (conversations_id_seq q) (messages_id_seq q) (sources_id_seq q)
                  (settings_id_seq q) (knowledge_bases_id_seq q) (id + 1) in
      if decide (id ∈ Document.id <$> documents t)
      then (Failed UniqueViolation, q')
      else if decide (knowledge_base_id ∈ KnowledgeBase.id <$> knowledge_bases t)
      then (Done id (set_documents
                       (documents t ++
                          [Document.Row id knowledge_base_id filename document_type
                             page_count chunk_count now]) t), q')
      else (Failed ForeignKeyViolation, q')
    else (Failed DataError, q).

Definition count_document (knowledge_base_id : Z) (k : KnowledgeBase.t)
  : KnowledgeBase.t :=
  if decide (KnowledgeBase.id k = knowledge_base_id)
  then KnowledgeBase.Row (KnowledgeBase.id k) (KnowledgeBase.name k)
         (KnowledgeBase.description k) (KnowledgeBase.created_at k)
         (KnowledgeBase.document_count k + 1)
         (KnowledgeBase.embedding_model k) (KnowledgeBase.chunking_strategy k)
  else k.

(** [UPDATE knowledge_bases SET document_count = document_count + 1 WHERE
    id = %s] *)
Definition UPDATE_document_count (knowledge_base_id : Z) : statement unit :=
  λ _ t q,
    (Done () (set_knowledge_bases
                (count_document knowledge_base_id <$> knowledge_bases t) t), q).

(** [SELECT id, filename, document_type, page_count, chunk_count, created_at
    FROM documents WHERE knowledge_base_id = %s ORDER BY created_at DESC] *)
Definition SELECT_documents (knowledge_base_id : Z)
  : statement (list (Z * string * string * Z * Z * Z)) :=
  query (λ t,
    (λ d, (Document.id d, Document.filename d, Document.document_type d,
           Document.page_count d, Document.chunk_count d, Document.created_at d))
      <$> merge_sort doc_created_at_desc
            (filter (λ d, Document.knowledge_base_id d = knowledge_base_id)
               (documents t))).

(** *** Settings *)

(** [SELECT value FROM settings WHERE key = %s], then [fetchone()] *)
Definition SELECT_setting (key : string) : statement (option string) :=
  λ now t q,
    if has_nul key then (Unsent ValueError, q)
    else
      query (λ t, Setting.value <$> head (filter (λ s, Setting.key s = key) (settings t)))
        now t q.

Definition overwrite (key value : string) (s : Setting.t) : Setting.t :=
  if decide (Setting.key s = key)
  then Setting.Row (Setting.id s) (Setting.key s) value
  else s.

(** [INSERT INTO settings (key, value) VALUES (%s, %s) ON CONFLICT (key) DO
    UPDATE SET value = EXCLUDED.value].  The key of the proposed row is
    drawn from the sequence before the conflict is detected. *)
Definition UPSERT_setting (key value : string) : statement unit :=
  λ _ t q,
    if has_nul key || has_nul value then (Unsent ValueError, q)
    else
      let id := settings_id_seq q in
      let q' := Sequences (conversations_id_seq q) (messages_id_seq q) (sources_id_seq q)
                  (id + 1) (knowledge_bases_id_seq q) (documents_id_seq q) in
      if decide (key ∈ Setting.key <$> settings t)
      then (Done () (set_settings (overwrite key value <$> settings t) t), q')
      else if decide (id ∈ Setting.id <$> settings t)
      then (Failed UniqueViolation, q')
      else (Done () (set_settings (settings t ++ [Setting.Row id key value]) t), q').

(** ** Connections and transactions *)

(** The environment of one connection: whether the server accepts it, which
    of its round trips (numbered from 0: every statement, commit and
    rollback that is sent) are lost, and the time of its transaction. *)
Record link : Type := Link {
  reachable : bool;
  lost : nat → bool;
  clock : Z
}.

(** [logger.error(f"<msg>: {str(e)}")] and [logger.info("<msg>")] *)
Inductive log_entry : Type :=
  | ERROR (msg : string) (e : exn)
  | INFO (msg : string).

(** A connection: the committed tables, the tables as the open transaction
    sees them, the sequences, the number of round trips made, the log
    written so far, whether a transaction has begun (a statement was sent
    since the connection was opened, committed or rolled back) and whether
    the connection is closed (a round trip was lost). *)
Record session : Type := Session {
  durable : tables;
  working : tables;
  serial : sequences;
  trips : nat;
  journal : list log_entry;
  begun : bool;
  closed : bool
}.

(** Code that runs on an open connection. *)
Definition io (A : Type) : Type := link → session → outcome A * session.

Global Instance io_ret : MRet io := λ A a _ s, (Returned a, s).
Global Instance io_bind : MBind io := λ A B f m l s,
  match m l s with
  | (Returned a, s') => f a l s'
  | (Raised e, s') => (Raised e, s')
  end.

Definition raise {A} (e : exn) : io A := λ _ s, (Raised e, s).

Definition lift {A} (o : outcome A) : io A := λ _ s, (o, s).

(** [try: body  except Exception as e: handler e].  An exception raised by
    the handler itself propagates. *)
Definition try_except {A} (body : io A) (handler : exn → io A) : io A :=
  λ l s,
    match body l s with
    | (Returned a, s') => (Returned a, s')
    | (Raised e, s') => handler e l s'
    end.

(** The connection after a round trip was lost: it is closed. *)
Definition hangup (s : session) : session :=
  Session (durable s) (working s) (serial s) (S (trips s)) (journal s) (begun s) true.

(** [cursor.execute(...)], with the [fetchone]/[fetchall] that follows.  On
    a closed connection it raises InterfaceError.  A parameter that cannot
    be adapted raises before anything is sent.  A lost round trip raises
    OperationalError; a statement that fails leaves the transaction's tables
    as they were.  After a failure every handler of the module rolls back,
    or lets the connection close, before it sends another statement: the
    aborted state of the transaction is never observed and is not
    modelled. *)
Definition execute {A} (st : statement A) : io A :=
  λ l s,
    if closed s then (Raised InterfaceError, s)
    else
      match st (clock l) (working s) (serial s) with
      | (Unsent e, _) => (Raised e, s)
      | (Done a t, q) =>
          if lost l (trips s) then (Raised OperationalError, hangup s)
          else (Returned a,
                Session (durable s) t q (S (trips s)) (journal s) true false)
      | (Failed e, q) =>
          if lost l (trips s) then (Raised OperationalError, hangup s)
          else (Raised e,
                Session (durable s) (working s) q (S (trips s)) (journal s) true false)
      end.

(** [conn.commit()].  On a closed connection it raises InterfaceError;
    without a transaction it sends nothing; a commit that is lost commits
    nothing. *)
Definition commit : io unit :=
  λ l s,
    if closed s then (Raised InterfaceError, s)
    else if begun s then
      if lost l (trips s) then (Raised OperationalError, hangup s)
      else (Returned (),
            Session (working s) (working s) (serial s) (S (trips s)) (journal s)
              false false)
    else (Returned (), s).

(** [conn.rollback()].  On a closed connection it raises InterfaceError;
    without a transaction it sends nothing. *)
Definition rollback : io unit :=
  λ l s,
    if closed s then (Raised InterfaceError, s)
    else if begun s then
      if lost l (trips s) then (Raised OperationalError, hangup s)
      else (Returned (),
            Session (durable s) (durable s) (serial s) (S (trips s)) (journal s)
              false false)
    else (Returned (), s).

Definition logger_error (msg : string) (e : exn) : io unit :=
  λ _ s,
    (Returned (),
     Session (durable s) (working s) (serial s) (trips s) (journal s ++ [ERROR msg e])
       (begun s) (closed s)).

Definition logger_info (msg : string) : io unit :=
  λ _ s,
    (Returned (),
     Session (durable s) (working s) (serial s) (trips s) (journal s ++ [INFO msg])
       (begun s) (closed s)).

Fixpoint for_each {A} (f : A → io unit) (xs : list A) : io unit :=
  match xs with
  | [] => mret ()
  | x :: xs' => f x;; for_each f xs'
  end.

(** What persists between calls: the committed tables, the sequences and
    the log. *)
Record world : Type := World {
  store : tables;
  counters : sequences;
  log : list log_entry
}.

Definition initial : world := World no_rows fresh_sequences [].

(** A function of the module. *)
Definition program (A : Type) : Type := world → outcome A * world.

Global Instance program_ret : MRet program := λ A a w, (Returned a, w).
Global Instance program_bind : MBind program := λ A B f m w,
  match m w with
  | (Returned a, w') => f a w'
  | (Raised e, w') => (Raised e, w')
  end.

(** [conn = get_connection(); cursor = conn.cursor(); try: body
    finally: cursor.close(); conn.close()].  The connection is opened before
    the [try]: a refused connection raises out of the function.  Closing
    discards what was not committed. *)
Definition connected {A} (l : link) (body : io A) : program A :=
  λ w,
    if reachable l
    then
      let '(r, s) :=
        body l (Session (store w) (store w) (counters w) 0 (log w) false false) in
      (r, World (durable s) (serial s) (journal s))
    else (Raised OperationalError, w).

(** ** The functions of [utils/database.py] *)

(** [CREATE TABLE IF NOT EXISTS ...] and [CREATE INDEX IF NOT EXISTS ...] on
    a database that has the table or the index: nothing is created. *)
Definition CREATE_TABLE_IF_NOT_EXISTS (table : string) : statement unit :=
  query (λ _, ()).
Definition CREATE_INDEX_IF_NOT_EXISTS (index : string) : statement unit :=
  query (λ _, ()).

(** The six tables and the four indexes are created if they are missing,
    in one transaction.  The directory made before the connection is opened
    and the connection string returned at the end are left out. *)
Definition init_database (l : link) : program unit :=
  connected l
    (try_except
       (execute (CREATE_TABLE_IF_NOT_EXISTS "conversations");;
        execute (CREATE_TABLE_IF_NOT_EXISTS "messages");;
        execute (CREATE_TABLE_IF_NOT_EXISTS "sources");;
        execute (CREATE_TABLE_IF_NOT_EXISTS "settings");;
        execute (CREATE_TABLE_IF_NOT_EXISTS "knowledge_bases");;
        execute (CREATE_TABLE_IF_NOT_EXISTS "documents");;
        execute (CREATE_INDEX_IF_NOT_EXISTS "idx_messages_conversation_id");;
        execute (CREATE_INDEX_IF_NOT_EXISTS "idx_sources_message_id");;
        execute (CREATE_INDEX_IF_NOT_EXISTS "idx_documents_kb_id");;
        execute (CREATE_INDEX_IF_NOT_EXISTS "idx_conversations_last_updated");;
        commit;;
        logger_info "Database initialized successfully")
       (λ e, rollback;; logger_error "Error initializing database" e;; raise e)).

(** [d.get(key, fallback)] *)
Definition get (d : gmap string pyval) (key : string) (fallback : pyval) : pyval :=
  default fallback (d !! key).

Definition get_conversations (l : link) : program (list (Z * string * Z)) :=
  connected l
    (try_except
       (execute SELECT_conversations)
       (λ e, logger_error "Error getting conversations" e;; mret [])).

(** [title] defaults to ["New Chat"]. *)
Definition create_conversation (l : link) (title : string) : program Z :=
  connected l
    (try_except
       (conversation_id ← execute (INSERT_conversation title);
        commit;;
        mret conversation_id)
       (λ e, rollback;; logger_error "Error creating conversation" e;; raise e)).

Definition get_messages (l : link) (conversation_id : Z)
  : program (list (Z * string * string * Z)) :=
  connected l
    (try_except
       (execute (SELECT_messages conversation_id))
       (λ e, logger_error "Error getting messages" e;; mret [])).

Definition add_message (l : link) (conversation_id : Z) (role content : string)
  : program Z :=
  connected l
    (try_except
       (message_id ← execute (INSERT_message conversation_id role content);
        execute (UPDATE_last_updated conversation_id);;
        commit;;
        mret message_id)
       (λ e, rollback;; logger_error "Error adding message" e;; raise e)).

Definition get_sources (l : link) (message_id : Z) : program (list Citation.t) :=
  connected l
    (try_except
       (execute (SELECT_sources message_id))
       (λ e, logger_error "Error getting sources" e;; mret [])).

Definition update_conversation_title (l : link) (conversation_id : Z)
    (new_title : string) : program unit :=
  connected l
    (try_except
       (execute (UPDATE_title new_title conversation_id);;
        commit)
       (λ e, rollback;; logger_error "Error updating conversation title" e;; raise e)).

Definition delete_conversation (l : link) (conversation_id : Z) : program unit :=
  connected l
    (try_except
       (execute (DELETE_conversation conversation_id);;
        commit)
       (λ e, rollback;; logger_error "Error deleting conversation" e;; raise e)).

(** The arguments are annotated [str], which Python does not enforce: a
    [None] reaches the statement as NULL.  [description] defaults to [""].
    The result is the id, or [None] when the lookup after an integrity error
    finds no row. *)
Definition register_knowledge_base (l : link)
    (name embedding_model chunking_strategy description : option string)
  : program (option Z) :=
  connected l
    (try_except
       (kb_id ← execute (INSERT_knowledge_base name description
                           embedding_model chunking_strategy);
        commit;;
        mret (Some kb_id))
       (λ e,
          if IntegrityError e
          then
            rollback;;
            result ← execute (SELECT_knowledge_base_id name);
            mret result
          else
            rollback;;
            logger_error "Error registering knowledge base" e;;
            raise e)).

Definition get_knowledge_bases (l : link) : program (list KnowledgeBase.t) :=
  connected l
    (try_except
       (execute SELECT_knowledge_bases)
       (λ e, logger_error "Error getting knowledge bases" e;; mret [])).

Definition register_document (l : link) (knowledge_base_id : Z)
    (filename document_type : string) (page_count chunk_count : Z) : program Z :=
  connected l
    (try_except
       (document_id ← execute (INSERT_document knowledge_base_id filename
                                 document_type page_count chunk_count);
        execute (UPDATE_document_count knowledge_base_id);;
        commit;;
        mret document_id)
       (λ e, rollback;; logger_error "Error registering document" e;; raise e)).

Definition get_documents (l : link) (knowledge_base_id : Z)
  : program (list (Z * string * string * Z * Z * Z)) :=
  connected l
    (try_except
       (execute (SELECT_documents knowledge_base_id))
       (λ e, logger_error "Error getting documents" e;; mret [])).

(** [default] defaults to [None]. *)
Definition get_setting (l : link) (key : string) (default : pyval) : program pyval :=
  connected l
    (try_except
       (result ← execute (SELECT_setting key);
        match result with
        | Some value => mret (PyStr value)
        | None => mret default
        end)
       (λ e, logger_error "Error getting setting" e;; mret default)).

(** Two connections are opened in turn: the one of [get_setting], then the
    function's own. *)
Definition get_active_knowledge_base (l1 l2 : link) : program (option KnowledgeBase.t) :=
  active_kb_name ← get_setting l1 "active_knowledge_base" PyNone;
  if negb (truthy active_kb_name)
  then mret None
  else
    connected l2
      (try_except
         (execute (SELECT_knowledge_base active_kb_name))
         (λ e, logger_error "Error getting active knowledge base" e;; mret None)).

Section Store.
Context (rt : runtime).

(** The body of the loop of [add_sources]. *)
Definition add_source (message_id : Z) (source : gmap string pyval) : io unit :=
  score ← try_except
            (lift (py_float rt (get source "score" (PyFloat 0.5))))
            (λ e,
               match e with
               | ValueError | TypeError => mret 0.5%float
               | _ => raise e
               end);
  execute (INSERT_source rt message_id
             (get source "source" (PyStr ""))
             (get source "page" (PyInt 0))
             score
             (get source "kb_name" (PyStr "Unknown KB"))).

Definition add_sources (l : link) (message_id : Z)
    (sources : list (gmap string pyval)) : program unit :=
  match sources with
  | [] => mret ()
  | _ =>
      connected l
        (try_except
           (for_each (add_source message_id) sources;;
            commit)
           (λ e, rollback;; logger_error "Error adding sources" e;; raise e))
  end.

Definition set_setting (l : link) (key : string) (value : pyval) : program unit :=
  connected l
    (try_except
       (execute (UPSERT_setting key (py_str rt value));;
        commit)
       (λ e, rollback;; logger_error "Error setting value" e;; raise e)).

Definition set_active_knowledge_base (l : link) (kb_name : pyval) : program unit :=
  set_setting l "active_knowledge_base" kb_name.
End Store.

(** ** Sequences of calls *)

(** A call of one of the functions, with the link(s) of the connections it
    opens. *)
Inductive call : Type :=
  | InitDatabase (l : link)
  | GetConversations (l : link)
  | CreateConversation (l : link) (title : string)
  | GetMessages (l : link) (conversation_id : Z)
  | AddMessage (l : link) (conversation_id : Z) (role content : string)
  | AddSources (l : link) (message_id : Z) (sources : list (gmap string pyval))
  | GetSources (l : link) (message_id : Z)
  | UpdateConversationTitle (l : link) (conversation_id : Z) (new_title : string)
  | DeleteConversation (l : link) (conversation_id : Z)
  | RegisterKnowledgeBase (l : link)
      (name embedding_model chunking_strategy description : option string)
  | GetKnowledgeBases (l : link)
  | RegisterDocument (l : link) (knowledge_base_id : Z)
      (filename document_type : string) (page_count chunk_count : Z)
  | GetDocuments (l : link) (knowledge_base_id : Z)
  | GetSetting (l : link) (key : string) (default : pyval)
  | SetSetting (l : link) (key : string) (value : pyval)
  | GetActiveKnowledgeBase (l1 l2 : link)
  | SetActiveKnowledgeBase (l : link) (kb_name : pyval).

(** Whether the call returned (rather than raised), and the world it
    leaves. *)
Definition finish {A} (r : outcome A * world) : bool * world :=
  (returned (fst r), snd r).

Section Replay.
Context (rt : runtime).

Definition run (c : call) (w : world) : bool * world :=
  match c with
  | InitDatabase l => finish (init_database l w)
  | GetConversations l => finish (get_conversations l w)
  | CreateConversation l title => finish (create_conversation l title w)
  | GetMessages l conversation_id => finish (get_messages l conversation_id w)
  | AddMessage l conversation_id role content =>
      finish (add_message l conversation_id role content w)
  | AddSources l message_id sources =>
      finish (add_sources rt l message_id sources w)
  | GetSources l message_id => finish (get_sources l message_id w)
  | UpdateConversationTitle l conversation_id new_title =>
      finish (update_conversation_title l conversation_id new_title w)
  | DeleteConversation l conversation_id =>
      finish (delete_conversation l conversation_id w)
  | RegisterKnowledgeBase l name embedding_model chunking_strategy description =>
      finish (register_knowledge_base l name embedding_model chunking_strategy
                description w)
  | GetKnowledgeBases l => finish (get_knowledge_bases l w)
  | RegisterDocument l knowledge_base_id filename document_type
      page_count chunk_count =>
      finish (register_document l knowledge_base_id filename document_type
                page_count chunk_count w)
  | GetDocuments l knowledge_base_id => finish (get_documents l knowledge_base_id w)
  | GetSetting l key default => finish (get_setting l key default w)
  | SetSetting l key value => finish (set_setting rt l key value w)
  | GetActiveKnowledgeBase l1 l2 => finish (get_active_knowledge_base l1 l2 w)
  | SetActiveKnowledgeBase l kb_name =>
      finish (set_active_knowledge_base rt l kb_name w)
  end.

(** The calls made so far, oldest first, each with whether it returned,
    and the world they lead to. *)
Fixpoint replay (cs : list call) (w : world) : list (call * bool) * world :=
  match cs with
  | [] => ([], w)
  | c :: cs' =>
      let '(ok, w') := run c w in
      let '(h, w'') := replay cs' w' in
      ((c, ok) :: h, w'')
  end.
End Replay.

Definition returned_flags (h : list (call * bool)) : list bool := snd <$> h.

(** A successful [register_document] against the knowledge base
    [knowledge_base_id]. *)
Definition registers (knowledge_base_id : Z) (entry : call * bool) : bool :=
  match entry with
  | (RegisterDocument _ k _ _ _ _, true) => bool_decide (k = knowledge_base_id)
  | _ => false
  end.

Definition registrations (knowledge_base_id : Z) (h : list (call * bool)) : Z :=
  Z.of_nat (length (filter (λ e, registers knowledge_base_id e = true) h)).

(** ** Consistency of a store *)

(** A link without failures. *)
Definition steady (l : link) : Prop :=
  reachable l = true ∧ ∀ n, lost l n = false.

(** What the constraints of the schema guarantee of the committed rows:
    keys are unique and were drawn from their sequence, knowledge-base names
    and setting keys are unique, and every reference has its target.  The
    names of the knowledge bases, which come back as parameters of later
    statements, hold no NUL: no TEXT value does. *)
Record coherent (t : tables) (q : sequences) : Prop := Coherent {
  conversations_pkey : NoDup (Conversation.id <$> conversations t);
  messages_pkey : NoDup (Message.id <$> messages t);
  sources_pkey : NoDup (Source.id <$> sources t);
  settings_pkey : NoDup (Setting.id <$> settings t);
  knowledge_bases_pkey : NoDup (KnowledgeBase.id <$> knowledge_bases t);
  documents_pkey : NoDup (Document.id <$> documents t);
  conversations_drawn :
    Forall (λ i, i < conversations_id_seq q) (Conversation.id <$> conversations t);
  messages_drawn :
    Forall (λ i, i < messages_id_seq q) (Message.id <$> messages t);
  sources_drawn :
    Forall (λ i, i < sources_id_seq q) (Source.id <$> sources t);
  settings_drawn :
    Forall (λ i, i < settings_id_seq q) (Setting.id <$> settings t);
  knowledge_bases_drawn :
    Forall (λ i, i < knowledge_bases_id_seq q) (KnowledgeBase.id <$> knowledge_bases t);
  documents_drawn :
    Forall (λ i, i < documents_id_seq q) (Document.id <$> documents t);
  knowledge_bases_name_key : NoDup (KnowledgeBase.name <$> knowledge_bases t);
  settings_key_key : NoDup (Setting.key <$> settings t);
  messages_conversation_id_fkey :
    Forall (λ m, Message.conversation_id m ∈ Conversation.id <$> conversations t)
      (messages t);
  sources_message_id_fkey :
    Forall (λ s, Source.message_id s ∈ Message.id <$> messages t) (sources t);
  documents_knowledge_base_id_fkey :
    Forall (λ d, Document.knowledge_base_id d ∈ KnowledgeBase.id <$> knowledge_bases t)
      (documents t);
  knowledge_bases_name_text :
    Forall (λ k, has_nul (KnowledgeBase.name k) = false) (knowledge_bases t)
}.

Definition consistent (w : world) : Prop := coherent (store w) (counters w).

(** The sequences only move forward. *)
Definition advanced (q q' : sequences) : Prop :=
  conversations_id_seq q ≤ conversations_id_seq q' ∧
  messages_id_seq q ≤ messages_id_seq q' ∧
  sources_id_seq q ≤ sources_id_seq q' ∧
  settings_id_seq q ≤ settings_id_seq q' ∧
  knowledge_bases_id_seq q ≤ knowledge_bases_id_seq q' ∧
  documents_id_seq q ≤ documents_id_seq q'.

(** ** Vocabulary of the statements *)

(** The sequences after one [nextval] on [knowledge_bases_id_seq]. *)
Definition knowledge_base_drawn (q : sequences) : sequences :=
  Sequences (conversations_id_seq q) (messages_id_seq q) (sources_id_seq q)
    (settings_id_seq q) (knowledge_bases_id_seq q + 1) (documents_id_seq q).

(** The sequences after one [nextval] on [settings_id_seq]. *)
Definition setting_drawn (q : sequences) : sequences :=
  Sequences (conversations_id_seq q) (messages_id_seq q) (sources_id_seq q)
    (settings_id_seq q + 1) (knowledge_bases_id_seq q) (documents_id_seq q).

(** The sequences after one [nextval] on [sources_id_seq]. *)
Definition source_drawn (q : sequences) : sequences :=
  Sequences (conversations_id_seq q) (messages_id_seq q) (sources_id_seq q + 1)
    (settings_id_seq q) (knowledge_bases_id_seq q) (documents_id_seq q).

(** The settings after [set_setting(key, value)]: the value of the row that
    holds the key is overwritten; without such a row one is appended. *)
Definition upserted (key value : string) (t : tables) (q : sequences) : list Setting.t :=
  if decide (key ∈ Setting.key <$> settings t)
  then overwrite key value <$> settings t
  else settings t ++ [Setting.Row (settings_id_seq q) key value].

(** The stored value of the setting ["active_knowledge_base"], if any. *)
Definition active_name (t : tables) : option string :=
  Setting.value <$>
    head (filter (λ s, Setting.key s = "active_knowledge_base") (settings t)).

(** What [get_active_knowledge_base] answers on the tables [t] when nothing
    fails: nothing when the setting is absent or is the empty string (both
    are false for [if not active_kb_name]), else the first row of that
    name. *)
Definition resolved (t : tables) : option KnowledgeBase.t :=
  match active_name t with
  | None => None
  | Some name => if decide (name = "") then None else head (named (Some name) t)
  end.

(** The score [add_source] binds for an entry. *)
Definition score_of (rt : runtime) (source : gmap string pyval) : float :=
  match py_float rt (get source "score" (PyFloat 0.5)) with
  | Returned f => f
  | Raised _ => 0.5%float
  end.

(** The row stored for an entry of the list: each field is the entry's, cast
    to the column's type, or the default of a field that is absent.  The
    score is the one the REAL column returns for the entry's. *)
Definition stored_as (rt : runtime) (message_id : Z) (source : gmap string pyval)
    (row : Source.t) : Prop :=
  Source.message_id row = message_id ∧
  to_text rt (get source "source" (PyStr "")) = Some (Source.source_document row) ∧
  to_int4 rt (get source "page" (PyInt 0)) = Returned (Source.page_number row) ∧
  real_of_float rt (score_of rt source) = Some (Source.score row) ∧
  Source.kb_name row = to_text rt (get source "kb_name" (PyStr "Unknown KB")).

(** How a function that sends one query behaves on the link [l]: a refused
    connection raises out of the function and leaves the world as it is;
    once connected, a lost query is logged and answered by [fallback], and a
    query that goes through is answered by [rows] of the committed tables.
    In the three cases the tables and the sequences are those found at the
    call. *)
Definition reads {A} (f : program A) (l : link) (rows : tables → A) (fallback : A)
    (msg : string) : Prop :=
  ∀ w,
    f w =
      if reachable l then
        if lost l 0
        then (Returned fallback,
              World (store w) (counters w) (log w ++ [ERROR msg OperationalError]))
        else (Returned (rows (store w)), World (store w) (counters w) (log w))
      else (Raised OperationalError, w).

(** The place of a float in PostgreSQL's order, as a triple compared
    lexicographically: class and sign, then exponent, then mantissa. *)
Definition rank (x : spec_float) : Z * Z * Z :=
  match x with
  | S754_nan => (3, 0, 0)
  | S754_infinity true => (-2, 0, 0)
  | S754_infinity false => (2, 0, 0)
  | S754_zero _ => (0, 0, 0)
  | S754_finite true m e => (-1, - e, - Z.pos m)
  | S754_finite false m e => (1, e, Z.pos m)
  end.

Definition lex_lt (a b : Z * Z * Z) : Prop :=
  a.1.1 < b.1.1 ∨
  (a.1.1 = b.1.1 ∧ (a.1.2 < b.1.2 ∨ (a.1.2 = b.1.2 ∧ a.2 < b.2))).

(** The documents stored for a knowledge base. *)
Definition documents_of (knowledge_base_id : Z) (t : tables) : list Document.t :=
  filter (λ d, Document.knowledge_base_id d = knowledge_base_id) (documents t).

(** Every knowledge base counts the documents stored for it. *)
Definition tallied (t : tables) : Prop :=
  Forall (λ k, KnowledgeBase.document_count k =
                 Z.of_nat (length (documents_of (KnowledgeBase.id k) t)))
    (knowledge_bases t).

(** The change of [retitle] on the triple that [get_conversations] returns. *)
Definition retitled (new_title : string) (conversation_id : Z)
    (x : Z * string * Z) : Z * string * Z :=
  if decide (x.1.1 = conversation_id) then (x.1.1, new_title, x.2) else x.


(** ** Vocabulary of the proofs *)

(** [P] is a property of the tables, possibly relative to the sequences.  A
    statement keeps [P] when it only advances the sequences and its new
    tables satisfy [P]; code on a connection keeps [P] when both the
    committed tables and the tables of the open transaction go on satisfying
    it. *)
Section Preservation.
Context (P : tables → sequences → Prop).

Definition statement_keeps {A} (st : statement A) : Prop :=
  ∀ now t q,
    advanced q (st now t q).2 ∧
    (P t q → match (st now t q).1 with
             | Done _ t' => P t' (st now t q).2
             | Failed _ | Unsent _ => True
             end).

Definition sound (s : session) : Prop :=
  P (durable s) (serial s) ∧ P (working s) (serial s).

Definition keeps {A} (m : io A) : Prop :=
  ∀ l s, sound s → sound (m l s).2.
End Preservation.

(** Code that commits nothing leaves the committed tables alone. *)
Definition uncommitted {A} (m : io A) : Prop :=
  ∀ l s, durable (m l s).2 = durable s.

(** The knowledge bases are exactly [K]. *)
Definition knowledge_bases_are (K : list KnowledgeBase.t) : tables → sequences → Prop :=
  λ t _, knowledge_bases t = K.

(** The calls that write to [knowledge_bases]. *)
Definition writes_knowledge_bases (c : call) : bool :=
  match c with
  | RegisterKnowledgeBase _ _ _ _ _ | RegisterDocument _ _ _ _ _ _ => true
  | _ => false
  end.

(** What the history and the store have in common: every knowledge base
    counts the successful registrations against its id, and no registration
    succeeded against an id that no row has. *)
Definition counted (h : list (call * bool)) (w : world) : Prop :=
  Forall (λ k, KnowledgeBase.document_count k =
                 registrations (KnowledgeBase.id k) h)
    (knowledge_bases (store w)) ∧
  ∀ i, i ∉ KnowledgeBase.id <$> knowledge_bases (store w) → registrations i h = 0.

(** The documents are exactly [D]. *)
Definition documents_are (D : list Document.t) : tables → sequences → Prop :=
  λ t _, documents t = D.

(** The calls that write to [documents]. *)
Definition writes_documents (c : call) : bool :=
  match c with
  | RegisterDocument _ _ _ _ _ _ => true
  | _ => false
  end.


(** ** Worlds for the examples *)

(** The conversions that are parameters are fixed arbitrarily here (no
    example parses a float, prints one or casts one to INTEGER or TEXT),
    except the cast to REAL, which is given for the scores of the examples
    and for no other: 0.5 is a single-precision number, and 0.9, 0.6 and 0.3
    come back from a REAL column as they were sent (each is the double
    nearest to the shortest decimal that denotes its single-precision
    rounding); the sum 0.1 + 0.2, the double 0.30000000000000004, is rounded
    to the same single-precision number as 0.3 and comes back as 0.3; and
    1e39 is out of the range of REAL. *)
Definition plain : runtime :=
  Build_runtime (λ _, None) (λ _, "") (λ _, "") (λ _, None) (λ _, None)
    (λ f, if ((f =? 0.5) || (f =? 0.9) || (f =? 0.6) || (f =? 0.3))%float
          then Some f
          else if (f =? 0.1 + 0.2)%float then Some 0.3%float
          else None).

(** A link without failures, and a server that refuses connections. *)
Definition calm : link := Link true (λ _, false) 0.
Definition refused : link := Link false (λ _, false) 0.

(** A conversation with one message that cites three sources. *)
Definition chat : world :=
  (replay plain
     [CreateConversation calm "New Chat";
      AddMessage calm 1 "assistant" "See the handbook.";
      AddSources calm 1
        [{[ "source" := PyStr "a.pdf"; "score" := PyFloat 0.9 ]};
         {[ "source" := PyStr "b.pdf"; "score" := PyFloat 0.3 ]};
         {[ "source" := PyStr "c.pdf"; "score" := PyFloat 0.6 ]}]]
     initial).2.

(** A knowledge base whose name is the empty string, made the active one. *)
Definition unnamed : world :=
  (replay plain
     [RegisterKnowledgeBase calm (Some "") (Some "minilm") (Some "fixed") (Some "");
      SetActiveKnowledgeBase calm (PyStr "")]
     initial).2.

(** A link without failures whose transaction runs at time 5. *)
Definition later : link := Link true (λ _, false) 5.

(** A knowledge base with two documents; a third registration lost its
    commit. *)
Definition library : list call :=
  [RegisterKnowledgeBase calm (Some "kb1") (Some "minilm") (Some "fixed") (Some "");
   RegisterDocument calm 1 "a.pdf" "pdf" 3 12;
   RegisterDocument (Link true (λ n, bool_decide (n = 2%nat)) 0) 1 "b.pdf" "pdf" 5 20;
   RegisterDocument calm 1 "c.pdf" "pdf" 1 4].

(** * Proofs *)

(** ** Lists *)

Section ListFacts.
Context {A B : Type}.
Implicit Types (l : list A) (f : A → B).

Lemma NoDup_snoc l x : NoDup l → x ∉ l → NoDup (l ++ [x]).
Proof.
  intros Hl Hx. apply NoDup_app. split; [done|]. split.
  - intros y Hy Hy'. apply list_elem_of_singleton in Hy'. by subst.
  - apply NoDup_singleton.
Qed.

Lemma NoDup_fmap_filter f (P : A → Prop) `{!∀ x, Decision (P x)} l :
  NoDup (f <$> l) → NoDup (f <$> filter P l).
Proof.
  intros Hl. eapply sublist_NoDup; [exact Hl|].
  apply fmap_sublist, sublist_filter.
Qed.

Lemma fmap_fmap_same f (g : A → A) l :
  (∀ x, f (g x) = f x) → f <$> (g <$> l) = f <$> l.
Proof.
  intros Hg. induction l as [|x l IH]; [done|].
  rewrite !fmap_cons, Hg, IH. done.
Qed.

Lemma Forall_below (a b : Z) (k : list Z) :
  a ≤ b → Forall (λ i, i < a) k → Forall (λ i, i < b) k.
Proof.
  intros Hab Hk. eapply Forall_impl; [exact Hk|]. intros i Hi. simpl in Hi. lia.
Qed.

Lemma fresh_not_elem_of (a : Z) (k : list Z) :
  Forall (λ i, i < a) k → a ∉ k.
Proof.
  intros Hk Ha. rewrite Forall_forall in Hk. specialize (Hk a Ha). lia.
Qed.
End ListFacts.

(** ** What every piece of code on a connection preserves *)

(** [P] survives an advance of the sequences. *)
Section Keeps.
Context (P : tables → sequences → Prop).
Hypothesis P_advanced : ∀ t q q', advanced q q' → P t q → P t q'.

Lemma keeps_ret {A} (a : A) : keeps P (mret a).
Proof. by intros l s Hs. Qed.

Lemma keeps_raise {A} (e : exn) : keeps P (@raise A e).
Proof. by intros l s Hs. Qed.

Lemma keeps_lift {A} (o : outcome A) : keeps P (lift o).
Proof. by intros l s Hs. Qed.

Lemma keeps_bind {A B} (m : io A) (f : A → io B) :
  keeps P m → (∀ a, keeps P (f a)) → keeps P (m ≫= f).
Proof.
  intros Hm Hf l s Hs. unfold mbind, io_bind.
  specialize (Hm l s Hs). destruct (m l s) as [[a|e] s']; simpl in *.
  - by apply Hf.
  - done.
Qed.

Lemma keeps_try_except {A} (body : io A) (handler : exn → io A) :
  keeps P body → (∀ e, keeps P (handler e)) → keeps P (try_except body handler).
Proof.
  intros Hm Hh l s Hs. unfold try_except.
  specialize (Hm l s Hs). destruct (body l s) as [[a|e] s']; simpl in *.
  - done.
  - by apply Hh.
Qed.

Lemma keeps_execute {A} (st : statement A) :
  statement_keeps P st → keeps P (execute st).
Proof.
  intros Hst l s [Hd Hw]. unfold execute, hangup.
  destruct (closed s); [done|].
  destruct (Hst (clock l) (working s) (serial s)) as [Hq Ht].
  specialize (Ht Hw).
  destruct (st (clock l) (working s) (serial s)) as [[a t'|e|e] q']; simpl in *;
    [| |done].
  - destruct (lost l (trips s)); split; simpl; eauto.
  - destruct (lost l (trips s)); split; simpl; eauto.
Qed.

Lemma keeps_commit : keeps P commit.
Proof.
  intros l s [Hd Hw]. unfold commit, hangup.
  destruct (closed s), (begun s), (lost l (trips s)); by split.
Qed.

Lemma keeps_rollback : keeps P rollback.
Proof.
  intros l s [Hd Hw]. unfold rollback, hangup.
  destruct (closed s), (begun s), (lost l (trips s)); by split.
Qed.

Lemma keeps_logger_error msg e : keeps P (logger_error msg e).
Proof. by intros l s Hs. Qed.

Lemma keeps_logger_info msg : keeps P (logger_info msg).
Proof. by intros l s Hs. Qed.

Lemma keeps_for_each {A} (f : A → io unit) (xs : list A) :
  (∀ x, keeps P (f x)) → keeps P (for_each f xs).
Proof.
  intros Hf. induction xs as [|x xs IH]; simpl.
  - apply keeps_ret.
  - apply keeps_bind; [apply Hf | intros _; apply IH].
Qed.

(** A function that runs such code on its connection keeps [P] of the
    store. *)
Lemma keeps_connected {A} (l : link) (body : io A) (w : world) :
  keeps P body →
  P (store w) (counters w) →
  P (store (connected l body w).2) (counters (connected l body w).2).
Proof.
  intros Hb Hw. unfold connected.
  destruct (reachable l); [|done].
  specialize (Hb l (Session (store w) (store w) (counters w) 0 (log w) false false)).
  destruct (body l _) as [r s]; simpl in *.
  apply Hb. by split.
Qed.
End Keeps.

(** ** The statements keep the store coherent *)

Lemma advanced_refl q : advanced q q.
Proof. unfold advanced. lia. Qed.

Lemma coherent_advanced t q q' : advanced q q' → coherent t q → coherent t q'.
Proof.
  intros (?&?&?&?&?&?) []. split; try done; eapply Forall_below; eauto.
Qed.

Lemma query_keeps (P : tables → sequences → Prop) {A} (f : tables → A) :
  statement_keeps P (query f).
Proof. intros now t q. split; [apply advanced_refl | done]. Qed.

Lemma SELECT_setting_keeps (P : tables → sequences → Prop) key :
  statement_keeps P (SELECT_setting key).
Proof.
  intros now t q. unfold SELECT_setting.
  destruct (has_nul key); (split; [apply advanced_refl | done]).
Qed.

Lemma SELECT_knowledge_base_id_keeps (P : tables → sequences → Prop) name :
  statement_keeps P (SELECT_knowledge_base_id name).
Proof.
  intros now t q. unfold SELECT_knowledge_base_id.
  destruct (opt_has_nul name); (split; [apply advanced_refl | done]).
Qed.

Lemma SELECT_knowledge_base_keeps (P : tables → sequences → Prop) name :
  statement_keeps P (SELECT_knowledge_base name).
Proof.
  destruct name; simpl; try apply query_keeps.
  all: intros now t q; split; [apply advanced_refl|done].
Qed.

Ltac advance := unfold advanced; simpl; lia.

Lemma INSERT_conversation_coherent title :
  statement_keeps coherent (INSERT_conversation title).
Proof.
  intros now t q. unfold INSERT_conversation.
  destruct (has_nul title); [split; [apply advanced_refl|done]|].
  destruct (decide _) as [Hin|Hin]; simpl; (split; [advance|]); [done|].
  intros []. split; simpl; rewrite ?fmap_app; simpl; try done.
  - by apply NoDup_snoc.
  - apply Forall_app. split; [eapply Forall_below; [|done]; lia|].
    constructor; [lia|done].
  - eapply Forall_impl; [done|]. intros m Hm. apply elem_of_app. by left.
Qed.

Lemma INSERT_message_coherent conversation_id role content :
  statement_keeps coherent (INSERT_message conversation_id role content).
Proof.
  intros now t q. unfold INSERT_message.
  destruct (has_nul role || has_nul content); [split; [apply advanced_refl|done]|].
  destruct (int4 conversation_id); [|split; [apply advanced_refl|done]].
  destruct (decide _) as [Hin|Hin]; simpl; [split; [advance|done]|].
  destruct (decide _) as [Hfk|Hfk]; simpl; (split; [advance|]); [|done].
  intros []. split; simpl; rewrite ?fmap_app; simpl; try done.
  - by apply NoDup_snoc.
  - apply Forall_app. split; [eapply Forall_below; [|done]; lia|].
    constructor; [lia|done].
  - apply Forall_app. split; [done|]. by constructor.
  - eapply Forall_impl; [done|]. intros s Hs. apply elem_of_app. by left.
Qed.

Lemma touch_id now conversation_id c :
  Conversation.id (touch now conversation_id c) = Conversation.id c.
Proof. unfold touch. by destruct (decide _). Qed.

Lemma retitle_id new_title conversation_id c :
  Conversation.id (retitle new_title conversation_id c) = Conversation.id c.
Proof. unfold retitle. by destruct (decide _). Qed.

Lemma UPDATE_last_updated_coherent conversation_id :
  statement_keeps coherent (UPDATE_last_updated conversation_id).
Proof.
  intros now t q. unfold UPDATE_last_updated; simpl. split; [apply advanced_refl|].
  intros []. split; simpl;
    rewrite ?(fmap_fmap_same Conversation.id) by apply touch_id; done.
Qed.

Lemma UPDATE_title_coherent new_title conversation_id :
  statement_keeps coherent (UPDATE_title new_title conversation_id).
Proof.
  intros now t q. unfold UPDATE_title.
  destruct (has_nul new_title); simpl; (split; [apply advanced_refl|]); [done|].
  intros []. split; simpl;
    rewrite ?(fmap_fmap_same Conversation.id) by apply retitle_id; done.
Qed.

Lemma Forall_fmap_filter {A} (f : A → Z) (P : A → Prop) `{!∀ x, Decision (P x)}
    (a : Z) (l : list A) :
  Forall (λ i, i < a) (f <$> l) → Forall (λ i, i < a) (f <$> filter P l).
Proof.
  rewrite !Forall_fmap, !Forall_forall. intros Hl x Hx.
  apply list_elem_of_filter in Hx as [_ Hx]. by apply Hl.
Qed.

(** The cascade leaves no message without its conversation and no source
    without its message. *)
Lemma DELETE_conversation_coherent conversation_id :
  statement_keeps coherent (DELETE_conversation conversation_id).
Proof.
  intros now t q. unfold DELETE_conversation; simpl. split; [apply advanced_refl|].
  intros []. split; simpl; try done;
    try (by apply NoDup_fmap_filter); try (by apply Forall_fmap_filter).
  - (* messages → conversations *)
    apply Forall_forall. intros m Hm.
    apply list_elem_of_filter in Hm as [Hkeep Hm].
    rewrite Forall_forall in messages_conversation_id_fkey0.
    specialize (messages_conversation_id_fkey0 m Hm).
    apply list_elem_of_fmap in messages_conversation_id_fkey0 as (c & Hc & Hin).
    apply list_elem_of_fmap. exists c. split; [done|].
    apply list_elem_of_filter. split; [|done].
    intros Heq. apply Hkeep. rewrite Hc.
    apply list_elem_of_fmap. exists c. split; [done|].
    apply list_elem_of_filter. by split.
  - (* sources → messages *)
    apply Forall_forall. intros s Hs.
    apply list_elem_of_filter in Hs as [Hkeep Hs].
    rewrite Forall_forall in sources_message_id_fkey0.
    specialize (sources_message_id_fkey0 s Hs).
    apply list_elem_of_fmap in sources_message_id_fkey0 as (m & Hm & Hin).
    apply list_elem_of_fmap. exists m. split; [done|].
    apply list_elem_of_filter. split; [|done].
    intros Hdead. apply Hkeep. rewrite Hm.
    apply list_elem_of_fmap. exists m. split; [done|].
    apply list_elem_of_filter. by split.
Qed.

Lemma INSERT_source_coherent rt message_id source_document page_number score kb_name :
  statement_keeps coherent
    (INSERT_source rt message_id source_document page_number score kb_name).
Proof.
  intros now t q. unfold INSERT_source.
  destruct (_ || _); [split; [apply advanced_refl|done]|].
  destruct (cast_source rt message_id page_number score) as [[page real]|e]; simpl;
    [|split; [apply advanced_refl|done]].
  destruct (to_text rt source_document) as [doc|]; simpl; [|split; [advance|done]].
  destruct (decide _) as [Hin|Hin]; simpl; [split; [advance|done]|].
  destruct (decide _) as [Hfk|Hfk]; simpl; (split; [advance|]); [|done].
  intros []. split; simpl; rewrite ?fmap_app; simpl; try done.
  - by apply NoDup_snoc.
  - apply Forall_app. split; [eapply Forall_below; [|done]; lia|].
    constructor; [lia|done].
  - apply Forall_app. split; [done|]. by constructor.
Qed.

Lemma INSERT_knowledge_base_coherent name description embedding_model chunking_strategy :
  statement_keeps coherent
    (INSERT_knowledge_base name description embedding_model chunking_strategy).
Proof.
  intros now t q. unfold INSERT_knowledge_base.
  destruct (_ || _) eqn:Hnul; [split; [apply advanced_refl|done]|].
  destruct name as [n|], embedding_model as [em|], chunking_strategy as [cs|];
    simpl; try (split; [advance|done]).
  destruct (decide _) as [Hin|Hin]; simpl; [split; [advance|done]|].
  destruct (decide _) as [Hname|Hname]; simpl; (split; [advance|]); [done|].
  intros []. split; simpl; rewrite ?fmap_app; simpl; try done.
  - by apply NoDup_snoc.
  - apply Forall_app. split; [eapply Forall_below; [|done]; lia|].
    constructor; [lia|done].
  - by apply NoDup_snoc.
  - eapply Forall_impl; [done|]. intros d Hd. apply elem_of_app. by left.
  - apply Forall_app. split; [done|]. constructor; [|done]. simpl in *.
    by destruct (has_nul n).
Qed.

Lemma INSERT_document_coherent knowledge_base_id filename document_type
    page_count chunk_count :
  statement_keeps coherent
    (INSERT_document knowledge_base_id filename document_type page_count chunk_count).
Proof.
  intros now t q. unfold INSERT_document.
  destruct (has_nul filename || has_nul document_type);
    [split; [apply advanced_refl|done]|].
  destruct (int4 knowledge_base_id && int4 page_count && int4 chunk_count); simpl;
    [|split; [apply advanced_refl|done]].
  destruct (decide _) as [Hin|Hin]; simpl; [split; [advance|done]|].
  destruct (decide _) as [Hfk|Hfk]; simpl; (split; [advance|]); [|done].
  intros []. split; simpl; rewrite ?fmap_app; simpl; try done.
  - by apply NoDup_snoc.
  - apply Forall_app. split; [eapply Forall_below; [|done]; lia|].
    constructor; [lia|done].
  - apply Forall_app. split; [done|]. by constructor.
Qed.

Lemma count_document_id knowledge_base_id k :
  KnowledgeBase.id (count_document knowledge_base_id k) = KnowledgeBase.id k.
Proof. unfold count_document. by destruct (decide _). Qed.

Lemma count_document_name knowledge_base_id k :
  KnowledgeBase.name (count_document knowledge_base_id k) = KnowledgeBase.name k.
Proof. unfold count_document. by destruct (decide _). Qed.

Lemma UPDATE_document_count_coherent knowledge_base_id :
  statement_keeps coherent (UPDATE_document_count knowledge_base_id).
Proof.
  intros now t q. unfold UPDATE_document_count; simpl. split; [apply advanced_refl|].
  intros []. split; simpl;
    rewrite ?(fmap_fmap_same KnowledgeBase.id) by apply count_document_id;
    rewrite ?(fmap_fmap_same KnowledgeBase.name) by apply count_document_name;
    try done.
  apply Forall_fmap. eapply Forall_impl; [done|].
  intros k Hk. simpl. by rewrite count_document_name.
Qed.

Lemma overwrite_id key value s : Setting.id (overwrite key value s) = Setting.id s.
Proof. unfold overwrite. by destruct (decide _). Qed.

Lemma overwrite_key key value s : Setting.key (overwrite key value s) = Setting.key s.
Proof. unfold overwrite. by destruct (decide _). Qed.

Lemma UPSERT_setting_coherent key value :
  statement_keeps coherent (UPSERT_setting key value).
Proof.
  intros now t q. unfold UPSERT_setting.
  destruct (has_nul key || has_nul value); [split; [apply advanced_refl|done]|].
  destruct (decide _) as [Hkey|Hkey]; simpl.
  - split; [advance|]. intros []. split; simpl;
      rewrite ?(fmap_fmap_same Setting.id) by apply overwrite_id;
      rewrite ?(fmap_fmap_same Setting.key) by apply overwrite_key;
      try done.
    eapply Forall_below; [|done]. lia.
  - destruct (decide _) as [Hin|Hin]; simpl; (split; [advance|]); [done|].
    intros []. split; simpl; rewrite ?fmap_app; simpl; try done.
    + by apply NoDup_snoc.
    + apply Forall_app. split; [eapply Forall_below; [|done]; lia|].
      constructor; [lia|done].
    + by apply NoDup_snoc.
Qed.

(** ** The functions keep the store consistent *)

Create HintDb coherence discriminated.
Create HintDb frame discriminated.

#[local] Hint Resolve query_keeps SELECT_setting_keeps
  SELECT_knowledge_base_id_keeps SELECT_knowledge_base_keeps
  INSERT_conversation_coherent
  INSERT_message_coherent UPDATE_last_updated_coherent UPDATE_title_coherent
  DELETE_conversation_coherent INSERT_source_coherent
  INSERT_knowledge_base_coherent INSERT_document_coherent
  UPDATE_document_count_coherent UPSERT_setting_coherent : coherence.

(** Splits code on a connection into its primitives. *)
Ltac keeps_steps :=
  repeat first
    [ apply keeps_ret
    | apply keeps_raise
    | apply keeps_lift
    | apply keeps_commit
    | apply keeps_rollback
    | apply keeps_logger_error
    | apply keeps_logger_info
    | apply keeps_execute; [assumption | solve [eauto with coherence frame]]
    | apply keeps_bind; [ | intros ? ]
    | apply keeps_try_except; [ | intros ? ]
    | apply keeps_for_each; intros ?
    | match goal with
      | |- keeps _ (if ?b then _ else _) => destruct b
      | |- keeps _ (match ?x with _ => _ end) => destruct x
      end ].

Section Invariant.
Context (P : tables → sequences → Prop).
Hypothesis P_advanced : ∀ t q q', advanced q q' → P t q → P t q'.
Hypothesis P_statements :
  (∀ A (f : tables → A), statement_keeps P (query f)) ∧
  (∀ title, statement_keeps P (INSERT_conversation title)) ∧
  (∀ c r x, statement_keeps P (INSERT_message c r x)) ∧
  (∀ c, statement_keeps P (UPDATE_last_updated c)) ∧
  (∀ n c, statement_keeps P (UPDATE_title n c)) ∧
  (∀ c, statement_keeps P (DELETE_conversation c)) ∧
  (∀ rt m s p f k, statement_keeps P (INSERT_source rt m s p f k)) ∧
  (∀ n d e c, statement_keeps P (INSERT_knowledge_base n d e c)) ∧
  (∀ k f d p c, statement_keeps P (INSERT_document k f d p c)) ∧
  (∀ k, statement_keeps P (UPDATE_document_count k)) ∧
  (∀ k v, statement_keeps P (UPSERT_setting k v)).

(** A property kept by every statement is kept by every call. *)
Lemma run_keeps rt c w :
  P (store w) (counters w) →
  P (store (run rt c w).2) (counters (run rt c w).2).
Proof using P_advanced P_statements.
  destruct P_statements as (Hq & H1 & H2 & H3 & H4 & H5 & H6 & H7 & H8 & H9 & H10).
  assert (Hk : ∀ name, statement_keeps P (SELECT_knowledge_base name)).
  { intros [| | |]; simpl; try apply Hq.
    all: intros now t q; split; [apply advanced_refl|done]. }
  intros Hw.
  destruct c as [l|l|l title|l cid|l cid role content|l mid srcs|l mid|l cid title
                |l cid|l name em cs d|l|l k f dt pc cc|l k|l key dflt|l key v
                |l1 l2|l v]; simpl;
    unfold init_database, get_conversations, create_conversation, get_messages,
      add_message, get_sources, update_conversation_title, delete_conversation,
      register_knowledge_base, get_knowledge_bases, register_document,
      get_documents, get_setting, set_active_knowledge_base, set_setting;
    try (apply keeps_connected; [|done]; solve [keeps_steps]).
  - (* add_sources *)
    unfold add_sources. destruct srcs; [done|].
    apply keeps_connected; [|done]. unfold add_source. keeps_steps.
  - (* get_active_knowledge_base *)
    unfold get_active_knowledge_base, mbind, program_bind.
    pose proof (keeps_connected P l1
      (try_except
         (result ← execute (SELECT_setting "active_knowledge_base");
          match result with
          | Some value => mret (PyStr value)
          | None => mret PyNone
          end)
         (λ e, logger_error "Error getting setting" e;; mret PyNone)) w) as H1'.
    unfold get_setting.
    destruct (connected l1 _ w) as [[v|e] w'] eqn:E; simpl in *.
    + assert (P (store w') (counters w')) as Hw'.
      { apply H1'; [keeps_steps|done]. }
      destruct (negb (truthy v)); [done|].
      apply keeps_connected; [|done]. keeps_steps.
    + apply H1'; [keeps_steps|done].
Qed.

Lemma replay_keeps rt cs w :
  P (store w) (counters w) →
  P (store (replay rt cs w).2) (counters (replay rt cs w).2).
Proof using P_advanced P_statements.
  revert w. induction cs as [|c cs IH]; intros w Hw; simpl; [done|].
  pose proof (run_keeps rt c w Hw) as Hc.
  destruct (run rt c w) as [ok w']. simpl in Hc.
  specialize (IH w' Hc). destruct (replay rt cs w') as [h w'']. done.
Qed.
End Invariant.

Lemma initial_consistent : consistent initial.
Proof. split; simpl; constructor. Qed.

Lemma coherent_statements :
  (∀ A (f : tables → A), statement_keeps coherent (query f)) ∧
  (∀ title, statement_keeps coherent (INSERT_conversation title)) ∧
  (∀ c r x, statement_keeps coherent (INSERT_message c r x)) ∧
  (∀ c, statement_keeps coherent (UPDATE_last_updated c)) ∧
  (∀ n c, statement_keeps coherent (UPDATE_title n c)) ∧
  (∀ c, statement_keeps coherent (DELETE_conversation c)) ∧
  (∀ rt m s p f k, statement_keeps coherent (INSERT_source rt m s p f k)) ∧
  (∀ n d e c, statement_keeps coherent (INSERT_knowledge_base n d e c)) ∧
  (∀ k f d p c, statement_keeps coherent (INSERT_document k f d p c)) ∧
  (∀ k, statement_keeps coherent (UPDATE_document_count k)) ∧
  (∀ k v, statement_keeps coherent (UPSERT_setting k v)).
Proof. split_and!; intros; auto with coherence. Qed.

(** Every call, whatever its outcome and whatever its links do, leaves a
    consistent store consistent. *)
Lemma run_consistent rt c w : consistent w → consistent (run rt c w).2.
Proof. apply run_keeps; [apply coherent_advanced | apply coherent_statements]. Qed.

Lemma replay_consistent rt cs w : consistent w → consistent (replay rt cs w).2.
Proof. apply replay_keeps; [apply coherent_advanced | apply coherent_statements]. Qed.

(** ** Running a function by cases *)

(** Unfolds the plumbing of a function of the module. *)
Ltac unfold_io :=
  unfold connected, try_except, execute, commit, rollback, hangup, logger_error,
    raise, lift, mbind, mret, io_bind, io_ret, program_bind, program_ret in *.

(** Case analysis on every test the run meets: lost round trips and the
    checks of the statements. *)
Ltac run_cases :=
  repeat (simpl in *;
    match goal with
    | |- context [if lost ?l ?n then _ else _] => destruct (lost l n) eqn:?
    | |- context [if reachable ?l then _ else _] => destruct (reachable l) eqn:?
    | |- context [decide ?P] => destruct (decide P)
    | |- context [if has_nul ?x then _ else _] => destruct (has_nul x) eqn:?
    | |- context [if opt_has_nul ?x then _ else _] => destruct (opt_has_nul x) eqn:?
    | |- context [if int4 ?n then _ else _] => destruct (int4 n) eqn:?
    | |- context [if ?a || ?b then _ else _] => destruct (a || b) eqn:?
    | |- context [if ?a && ?b then _ else _] => destruct (a && b) eqn:?
    end).

(** * Properties of the functions *)

(** ** [add_message] *)

Lemma touch_last_updated now conversation_id (cs : list Conversation.t) :
  Forall (λ c, Conversation.id c = conversation_id →
               Conversation.last_updated c = now)
    (touch now conversation_id <$> cs) ∧
  Forall2 (λ c c',
             Conversation.id c' = Conversation.id c ∧
             Conversation.title c' = Conversation.title c ∧
             Conversation.created_at c' = Conversation.created_at c ∧
             Conversation.last_updated c' =
               if decide (Conversation.id c = conversation_id)
               then now else Conversation.last_updated c)
    cs (touch now conversation_id <$> cs).
Proof.
  split.
  - apply Forall_fmap, Forall_forall. intros c _. simpl. unfold touch.
    destruct (decide _); simpl; [done|]. intros. congruence.
  - induction cs as [|c cs IH]; [constructor|].
    rewrite fmap_cons. constructor; [|done].
    unfold touch. by destruct (decide _).
Qed.

(** C3. [add_message] is atomic.  When it returns, the new message row and
    the new [last_updated] of its conversation are both committed: the
    conversation exists, every row of its id has the time of the transaction
    as [last_updated], and nothing else has changed in any conversation.
    When it raises, whatever the error and wherever it occurs, the committed
    tables are those found at the call. *)
Theorem add_message_atomic l conversation_id role content w :
  match add_message l conversation_id role content w with
  | (Returned message_id, w') =>
      conversation_id ∈ Conversation.id <$> conversations (store w) ∧
      messages (store w') =
        messages (store w) ++
          [Message.Row message_id conversation_id role content (clock l)] ∧
      conversations (store w') =
        touch (clock l) conversation_id <$> conversations (store w) ∧
      Forall (λ c, Conversation.id c = conversation_id →
                   Conversation.last_updated c = clock l)
        (conversations (store w')) ∧
      (∃ c, c ∈ conversations (store w') ∧
            Conversation.id c = conversation_id ∧
            Conversation.last_updated c = clock l) ∧
      Forall2 (λ c c',
                 Conversation.id c' = Conversation.id c ∧
                 Conversation.title c' = Conversation.title c ∧
                 Conversation.created_at c' = Conversation.created_at c ∧
                 Conversation.last_updated c' =
                   if decide (Conversation.id c = conversation_id)
                   then clock l else Conversation.last_updated c)
        (conversations (store w)) (conversations (store w')) ∧
      sources (store w') = sources (store w) ∧
      settings (store w') = settings (store w) ∧
      knowledge_bases (store w') = knowledge_bases (store w) ∧
      documents (store w') = documents (store w)
  | (Raised e, w') => store w' = store w
  end.
Proof.
  destruct (touch_last_updated (clock l) conversation_id (conversations (store w)))
    as [Hpin Hrest].
  unfold add_message, INSERT_message, UPDATE_last_updated. unfold_io.
  run_cases; simpl; split_and?; try done.
  match goal with
  | H : conversation_id ∈ _ |- _ =>
      apply list_elem_of_fmap in H as (c & -> & Hc)
  end.
  exists (touch (clock l) (Conversation.id c) c). split_and!.
  - by apply list_elem_of_fmap_2.
  - apply touch_id.
  - unfold touch. by rewrite decide_True.
Qed.

(** ** [delete_conversation] *)

Lemma filter_ext_elem_of {A} (P Q : A → Prop)
    `{!∀ x, Decision (P x), !∀ x, Decision (Q x)} (l : list A) :
  (∀ x, x ∈ l → (P x ↔ Q x)) → filter P l = filter Q l.
Proof.
  induction l as [|a l IH]; intros HPQ; [done|].
  rewrite !filter_cons.
  rewrite IH by (intros x Hx; apply HPQ; by right).
  assert (P a ↔ Q a) as Ha by (apply HPQ; by left).
  destruct (decide (P a)), (decide (Q a)); try done; exfalso; tauto.
Qed.

(** Under the foreign key of [messages], the messages that the cascade
    removes are those of the conversation. *)
Lemma cascade_messages conversation_id t q m :
  coherent t q →
  m ∈ messages t →
  Message.conversation_id m ∈
    Conversation.id <$>
      filter (λ c, Conversation.id c = conversation_id) (conversations t)
  ↔ Message.conversation_id m = conversation_id.
Proof.
  intros Ht Hm. split.
  - intros Hin. apply list_elem_of_fmap in Hin as (c & Hc & Hin).
    apply list_elem_of_filter in Hin as [Hid _]. congruence.
  - intros Heq. pose proof (messages_conversation_id_fkey _ _ Ht) as Hfk.
    rewrite Forall_forall in Hfk. specialize (Hfk m Hm).
    apply list_elem_of_fmap in Hfk as (c & Hc & Hin).
    apply list_elem_of_fmap. exists c. split; [done|].
    apply list_elem_of_filter. split; [congruence|done].
Qed.

Lemma delete_conversation_consistent l conversation_id w :
  consistent w → consistent (delete_conversation l conversation_id w).2.
Proof.
  intros Hw. unfold delete_conversation.
  apply (keeps_connected coherent); [|done].
  pose proof coherent_advanced. keeps_steps.
Qed.

(** C4. After a successful [delete_conversation(c)] on a consistent store the
    conversation is gone, no message of [c] remains, and no source attached
    to one of the former messages of [c] remains; the other rows of the three
    tables and the other tables are untouched, and the store is still
    consistent (no message without its conversation, no source without its
    message).  The DELETE and its cascade are one statement of one
    transaction: when the call raises, the committed tables are those found
    at the call. *)
Theorem delete_conversation_cascades l conversation_id w :
  consistent w →
  match delete_conversation l conversation_id w with
  | (Returned _, w') =>
      let former :=
        Message.id <$>
          filter (λ m, Message.conversation_id m = conversation_id)
            (messages (store w)) in
      conversations (store w') =
        filter (λ c, Conversation.id c ≠ conversation_id) (conversations (store w)) ∧
      messages (store w') =
        filter (λ m, Message.conversation_id m ≠ conversation_id)
          (messages (store w)) ∧
      sources (store w') =
        filter (λ s, Source.message_id s ∉ former) (sources (store w)) ∧
      Forall (λ m, Message.conversation_id m ≠ conversation_id)
        (messages (store w')) ∧
      Forall (λ s, Source.message_id s ∉ former) (sources (store w')) ∧
      settings (store w') = settings (store w) ∧
      knowledge_bases (store w') = knowledge_bases (store w) ∧
      documents (store w') = documents (store w) ∧
      consistent w'
  | (Raised e, w') => store w' = store w
  end.
Proof.
  intros Hw.
  pose proof (delete_conversation_consistent l conversation_id w Hw) as Hw'.
  revert Hw'.
  unfold delete_conversation, DELETE_conversation. unfold_io.
  run_cases; try done.
  intros Hw'.
  assert (filter
            (λ m, Message.conversation_id m ∉
                    Conversation.id <$>
                      filter (λ c, Conversation.id c = conversation_id)
                        (conversations (store w)))
            (messages (store w)) =
          filter (λ m, Message.conversation_id m ≠ conversation_id)
            (messages (store w))) as Hmsgs.
  { apply filter_ext_elem_of. intros m Hm.
    by rewrite (cascade_messages _ _ _ _ Hw Hm). }
  assert (filter
            (λ m, Message.conversation_id m ∈
                    Conversation.id <$>
                      filter (λ c, Conversation.id c = conversation_id)
                        (conversations (store w)))
            (messages (store w)) =
          filter (λ m, Message.conversation_id m = conversation_id)
            (messages (store w))) as Hdead.
  { apply filter_ext_elem_of. intros m Hm. by apply (cascade_messages _ _ _ _ Hw). }
  rewrite Hmsgs, Hdead in *.
  split_and!; try done.
  - apply Forall_forall. intros m Hm. by apply list_elem_of_filter in Hm as [? _].
  - apply Forall_forall. intros s Hs. by apply list_elem_of_filter in Hs as [? _].
Qed.

(** ** [register_knowledge_base] *)

Lemma filter_none {A} (P : A → Prop) `{!∀ x, Decision (P x)} (l : list A) :
  (∀ x, x ∈ l → ¬ P x) → filter P l = [].
Proof.
  induction l as [|a l IH]; intros Hl; [done|].
  rewrite filter_cons. destruct (decide (P a)) as [Ha|Ha].
  - exfalso. by apply (Hl a); [left|].
  - apply IH. intros x Hx. apply Hl. by right.
Qed.

(** A unique key selects one row. *)
Lemma filter_key {A B} (f : A → B) (P : A → Prop) `{!∀ y, Decision (P y)}
    (l : list A) (x : A) :
  NoDup (f <$> l) → x ∈ l → (∀ y, P y ↔ f y = f x) → filter P l = [x].
Proof.
  intros Hnd Hx HP. induction l as [|a l IH]; [by apply elem_of_nil in Hx|].
  rewrite fmap_cons in Hnd. apply NoDup_cons in Hnd as [Ha Hnd].
  rewrite filter_cons. apply elem_of_cons in Hx as [->|Hx].
  - rewrite decide_True by (by apply HP). f_equal.
    apply filter_none. intros y Hy HPy. apply Ha.
    apply HP in HPy. rewrite <- HPy. by apply list_elem_of_fmap_2.
  - rewrite decide_False; [by apply IH|].
    intros HPa. apply Ha. apply HP in HPa. rewrite HPa.
    by apply list_elem_of_fmap_2.
Qed.

Lemma named_existing t q k :
  coherent t q →
  k ∈ knowledge_bases t →
  named (Some (KnowledgeBase.name k)) t = [k].
Proof.
  intros Ht Hk. unfold named.
  apply (filter_key KnowledgeBase.name); [by destruct Ht|done|].
  intros y. split; congruence.
Qed.

Lemma named_missing name t :
  name ∉ KnowledgeBase.name <$> knowledge_bases t → named (Some name) t = [].
Proof.
  intros Hname. unfold named. apply filter_none. intros k Hk Heq.
  apply Hname. injection Heq as <-. by apply list_elem_of_fmap_2.
Qed.

Lemma register_knowledge_base_consistent l name em cs d w :
  consistent w → consistent (register_knowledge_base l name em cs d w).2.
Proof.
  intros Hw. unfold register_knowledge_base.
  apply (keeps_connected coherent); [|done].
  pose proof coherent_advanced. keeps_steps.
Qed.

(** The name of a stored knowledge base can be sent. *)
Lemma stored_name_text t q k :
  coherent t q → k ∈ knowledge_bases t → has_nul (KnowledgeBase.name k) = false.
Proof.
  intros Ht Hk. pose proof (knowledge_bases_name_text _ _ Ht) as H.
  rewrite Forall_forall in H. by apply H.
Qed.

(** Registering a name that is taken: whatever the other arguments that can
    be sent, the INSERT fails with an integrity error, and the function
    returns the id of the row that holds the name.  Only the sequence has
    moved. *)
Lemma register_knowledge_base_existing l k em cs d w :
  steady l → consistent w →
  k ∈ knowledge_bases (store w) →
  opt_has_nul em = false → opt_has_nul cs = false → opt_has_nul d = false →
  register_knowledge_base l (Some (KnowledgeBase.name k)) em cs d w =
    (Returned (Some (KnowledgeBase.id k)),
     World (store w) (knowledge_base_drawn (counters w)) (log w)).
Proof.
  intros [Hr Hl] Hw Hk Hem Hcs Hd.
  assert (KnowledgeBase.name k ∈ KnowledgeBase.name <$> knowledge_bases (store w))
    as Hname by (by apply list_elem_of_fmap_2).
  pose proof (stored_name_text _ _ _ Hw Hk) as Hnul.
  pose proof (named_existing _ _ _ Hw Hk) as Hone.
  unfold register_knowledge_base, INSERT_knowledge_base, SELECT_knowledge_base_id,
    query. unfold_io.
  rewrite Hr. simpl. rewrite Hnul, Hem, Hcs, Hd. simpl.
  destruct em as [em|], cs as [cs|]; simpl; rewrite ?Hl; simpl; rewrite ?Hl; simpl;
    rewrite ?Hone; try done.
  destruct (decide _); simpl; rewrite ?Hl; simpl; rewrite ?Hl; simpl;
    rewrite ?Hone; try done.
  rewrite decide_True by done. simpl. rewrite !Hl. simpl. by rewrite Hone.
Qed.

(** Registering a new name inserts one row, with the next key of the
    sequence and no document. *)
Lemma register_knowledge_base_new l name em cs d w :
  steady l → consistent w →
  name ∉ KnowledgeBase.name <$> knowledge_bases (store w) →
  has_nul name = false → has_nul em = false → has_nul cs = false →
  opt_has_nul d = false →
  register_knowledge_base l (Some name) (Some em) (Some cs) d w =
    (Returned (Some (knowledge_bases_id_seq (counters w))),
     World
       (set_knowledge_bases
          (knowledge_bases (store w) ++
             [KnowledgeBase.Row (knowledge_bases_id_seq (counters w)) name d
                (clock l) 0 em cs])
          (store w))
       (knowledge_base_drawn (counters w)) (log w)).
Proof.
  intros [Hr Hl] Hw Hname Hn Hem Hcs Hd.
  unfold register_knowledge_base, INSERT_knowledge_base. unfold_io.
  rewrite Hr. simpl. rewrite Hn, Hem, Hcs, Hd. simpl.
  rewrite decide_False
    by (apply fresh_not_elem_of; by destruct Hw).
  rewrite decide_False by done. simpl. by rewrite !Hl.
Qed.

(** On any link, registering a name that is taken never ends in the
    integrity error of the INSERT: the call returns the id of the row that
    holds the name, unless the connection is refused or a round trip is
    lost.  The tables are left as they are. *)
Lemma register_knowledge_base_taken l k em cs d w :
  consistent w →
  k ∈ knowledge_bases (store w) →
  opt_has_nul em = false → opt_has_nul cs = false → opt_has_nul d = false →
  store (register_knowledge_base l (Some (KnowledgeBase.name k)) em cs d w).2 =
    store w ∧
  ((register_knowledge_base l (Some (KnowledgeBase.name k)) em cs d w).1 =
     Returned (Some (KnowledgeBase.id k)) ∨
   (register_knowledge_base l (Some (KnowledgeBase.name k)) em cs d w).1 =
     Raised OperationalError ∨
   (register_knowledge_base l (Some (KnowledgeBase.name k)) em cs d w).1 =
     Raised InterfaceError).
Proof.
  intros Hw Hk Hem Hcs Hd.
  assert (KnowledgeBase.name k ∈ KnowledgeBase.name <$> knowledge_bases (store w))
    as Hname by (by apply list_elem_of_fmap_2).
  pose proof (stored_name_text _ _ _ Hw Hk) as Hnul.
  pose proof (named_existing _ _ _ Hw Hk) as Hone.
  unfold register_knowledge_base, INSERT_knowledge_base, SELECT_knowledge_base_id,
    query. unfold_io.
  destruct (reachable l); [|by auto].
  simpl. rewrite Hnul, Hem, Hcs, Hd. simpl.
  destruct em as [em|], cs as [cs|]; run_cases; rewrite ?Hone; simpl;
    try contradiction; auto.
Qed.

(** C1. [register_knowledge_base] is idempotent by name, on a consistent
    store and for arguments that can be sent (a [str] with a NUL character
    cannot).  If a knowledge base holds the name, the call does not raise
    over a link that does not fail: it returns the id of that row and leaves
    the tables as they are, whatever the other arguments; over any link it
    leaves the tables as they are and returns that id unless the connection
    or a round trip fails.  Two calls with the same name over links that do
    not fail return the same id, the second changes nothing, and exactly one
    row holds the name afterwards: the row with that id. *)
Theorem register_knowledge_base_idempotent l1 l2 name w :
  steady l1 → steady l2 → consistent w →
  (∀ k em cs d,
     k ∈ knowledge_bases (store w) →
     KnowledgeBase.name k = name →
     opt_has_nul em = false → opt_has_nul cs = false → opt_has_nul d = false →
     register_knowledge_base l1 (Some name) em cs d w =
       (Returned (Some (KnowledgeBase.id k)),
        World (store w) (knowledge_base_drawn (counters w)) (log w)))
  ∧
  (∀ l k em cs d,
     k ∈ knowledge_bases (store w) →
     KnowledgeBase.name k = name →
     opt_has_nul em = false → opt_has_nul cs = false → opt_has_nul d = false →
     store (register_knowledge_base l (Some name) em cs d w).2 = store w ∧
     ((register_knowledge_base l (Some name) em cs d w).1 =
        Returned (Some (KnowledgeBase.id k)) ∨
      (register_knowledge_base l (Some name) em cs d w).1 =
        Raised OperationalError ∨
      (register_knowledge_base l (Some name) em cs d w).1 =
        Raised InterfaceError))
  ∧
  (∀ em cs d em' cs' d',
     has_nul name = false → has_nul em = false → has_nul cs = false →
     opt_has_nul d = false →
     opt_has_nul em' = false → opt_has_nul cs' = false → opt_has_nul d' = false →
     ∃ i k w1 w2,
       register_knowledge_base l1 (Some name) (Some em) (Some cs) d w =
         (Returned (Some i), w1) ∧
       register_knowledge_base l2 (Some name) em' cs' d' w1 =
         (Returned (Some i), w2) ∧
       store w2 = store w1 ∧
       named (Some name) (store w2) = [k] ∧
       KnowledgeBase.id k = i).
Proof.
  intros Hl1 Hl2 Hw. split_and!.
  - intros k em cs d Hk <- Hem Hcs Hd. by apply register_knowledge_base_existing.
  - intros l k em cs d Hk <- Hem Hcs Hd. by apply register_knowledge_base_taken.
  - intros em cs d em' cs' d' Hn Hem Hcs Hd Hem' Hcs' Hd'.
    destruct (decide (name ∈ KnowledgeBase.name <$> knowledge_bases (store w)))
      as [Hin|Hout].
    + apply list_elem_of_fmap in Hin as (k & -> & Hk).
      set (w1 := World (store w) (knowledge_base_drawn (counters w)) (log w)).
      assert (consistent w1) as Hw1.
      { eapply coherent_advanced; [|exact Hw]. unfold advanced; simpl; lia. }
      exists (KnowledgeBase.id k), k, w1,
        (World (store w1) (knowledge_base_drawn (counters w1)) (log w1)).
      split_and!; try done.
      * by apply register_knowledge_base_existing.
      * by apply (register_knowledge_base_existing l2 k em' cs' d' w1).
      * by apply (named_existing _ _ _ Hw1).
    + pose proof (register_knowledge_base_new l1 name em cs d w Hl1 Hw Hout
                    Hn Hem Hcs Hd) as E1.
      pose proof (register_knowledge_base_consistent l1 (Some name) (Some em)
                    (Some cs) d w Hw) as Hw1.
      rewrite E1 in Hw1. simpl in Hw1.
      set (k := KnowledgeBase.Row (knowledge_bases_id_seq (counters w)) name d
                  (clock l1) 0 em cs) in *.
      set (w1 := World _ _ _) in *.
      assert (k ∈ knowledge_bases (store w1)) as Hk.
      { simpl. apply elem_of_app. right. by apply list_elem_of_singleton. }
      exists (KnowledgeBase.id k), k, w1,
        (World (store w1) (knowledge_base_drawn (counters w1)) (log w1)).
      split_and!; try done.
      * by apply (register_knowledge_base_existing l2 k em' cs' d' w1).
      * by apply (named_existing _ _ _ Hw1 Hk).
Qed.

(** C10. When the INSERT of [register_knowledge_base] fails with an
    integrity error and no row holds the name, the function does not raise:
    after the rollback the lookup finds nothing and the result is [None].
    The tables and the log are left as they were. *)
Theorem register_knowledge_base_none l name em cs d w e q :
  steady l →
  INSERT_knowledge_base name d em cs (clock l) (store w) (counters w) = (Failed e, q) →
  IntegrityError e = true →
  named name (store w) = [] →
  register_knowledge_base l name em cs d w =
    (Returned None, World (store w) q (log w)).
Proof.
  intros [Hr Hl] Hins He Hname.
  assert (opt_has_nul name = false) as Hnul.
  { revert Hins. unfold INSERT_knowledge_base.
    destruct (opt_has_nul name); [done|]. done. }
  unfold register_knowledge_base, SELECT_knowledge_base_id, query. unfold_io.
  rewrite Hr. repeat progress (simpl; rewrite ?Hl, ?Hins, ?He, ?Hname, ?Hnul). done.
Qed.

(** ** [register_document] and [document_count] *)

Lemma knowledge_bases_are_advanced K t q q' :
  advanced q q' → knowledge_bases_are K t q → knowledge_bases_are K t q'.
Proof. done. Qed.

(** Only two statements write to [knowledge_bases]; the others leave the
    table alone. *)
Ltac leaves_alone :=
  intros now t q; unfold knowledge_bases_are; cbv beta delta
    [INSERT_conversation INSERT_message UPDATE_last_updated UPDATE_title
     DELETE_conversation INSERT_source INSERT_document UPSERT_setting];
  repeat (simpl;
    match goal with
    | |- context [decide ?P] => destruct (decide P)
    | |- context [if ?b then _ else _] => destruct b
    | |- context [match ?x with _ => _ end] => destruct x
    end);
  simpl; (split; [advance | done]).

Lemma INSERT_conversation_frame K title :
  statement_keeps (knowledge_bases_are K) (INSERT_conversation title).
Proof. leaves_alone. Qed.

Lemma INSERT_message_frame K conversation_id role content :
  statement_keeps (knowledge_bases_are K) (INSERT_message conversation_id role content).
Proof. leaves_alone. Qed.

Lemma UPDATE_last_updated_frame K conversation_id :
  statement_keeps (knowledge_bases_are K) (UPDATE_last_updated conversation_id).
Proof. leaves_alone. Qed.

Lemma UPDATE_title_frame K new_title conversation_id :
  statement_keeps (knowledge_bases_are K) (UPDATE_title new_title conversation_id).
Proof. leaves_alone. Qed.

Lemma DELETE_conversation_frame K conversation_id :
  statement_keeps (knowledge_bases_are K) (DELETE_conversation conversation_id).
Proof. leaves_alone. Qed.

Lemma INSERT_source_frame K rt message_id source_document page_number score kb_name :
  statement_keeps (knowledge_bases_are K)
    (INSERT_source rt message_id source_document page_number score kb_name).
Proof. leaves_alone. Qed.

Lemma UPSERT_setting_frame K key value :
  statement_keeps (knowledge_bases_are K) (UPSERT_setting key value).
Proof. leaves_alone. Qed.

Lemma SELECT_knowledge_base_frame K name :
  statement_keeps (knowledge_bases_are K) (SELECT_knowledge_base name).
Proof.
  destruct name; simpl; try apply query_keeps.
  all: intros now t q; split; [apply advanced_refl|done].
Qed.

#[local] Hint Resolve INSERT_conversation_frame INSERT_message_frame
  UPDATE_last_updated_frame UPDATE_title_frame DELETE_conversation_frame
  INSERT_source_frame UPSERT_setting_frame SELECT_knowledge_base_frame : frame.

Lemma connected_leaves_knowledge_bases {A} l (body : io A) w :
  keeps (knowledge_bases_are (knowledge_bases (store w))) body →
  knowledge_bases (store (connected l body w).2) = knowledge_bases (store w).
Proof. intros Hb. by apply (keeps_connected (knowledge_bases_are _)). Qed.

(** No call other than the two registrations changes a row of
    [knowledge_bases]. *)
Lemma run_leaves_knowledge_bases rt c w :
  writes_knowledge_bases c = false →
  knowledge_bases (store (run rt c w).2) = knowledge_bases (store w).
Proof.
  pose proof (knowledge_bases_are_advanced (knowledge_bases (store w))) as Hadv.
  destruct c as [l|l|l title|l cid|l cid role content|l mid srcs|l mid|l cid title
                |l cid|l name em cs d|l|l k f dt pc cc|l k|l key dflt|l key v
                |l1 l2|l v]; try discriminate; intros _; simpl;
    unfold init_database, get_conversations, create_conversation, get_messages,
      add_message, get_sources, update_conversation_title, delete_conversation,
      get_knowledge_bases, get_documents, get_setting,
      set_active_knowledge_base, set_setting;
    try (apply connected_leaves_knowledge_bases; solve [keeps_steps]).
  - unfold add_sources. destruct srcs; [done|].
    apply connected_leaves_knowledge_bases. unfold add_source. keeps_steps.
  - unfold get_active_knowledge_base, get_setting, mbind, program_bind.
    match goal with
    | |- context [connected l1 ?body w] =>
        pose proof (connected_leaves_knowledge_bases l1 body w) as H1;
        destruct (connected l1 body w) as [[v|e] w1]
    end; simpl in *.
    + rewrite <- H1 by keeps_steps.
      destruct (negb (truthy v)); [done|].
      apply connected_leaves_knowledge_bases.
      pose proof (knowledge_bases_are_advanced (knowledge_bases (store w1))).
      keeps_steps.
    + apply H1. keeps_steps.
Qed.

(** [register_document] is one transaction: the document row and the
    increment of its knowledge base are committed together, or nothing is. *)
Lemma register_document_atomic l knowledge_base_id filename document_type
    page_count chunk_count w :
  match register_document l knowledge_base_id filename document_type
          page_count chunk_count w with
  | (Returned document_id, w') =>
      knowledge_base_id ∈ KnowledgeBase.id <$> knowledge_bases (store w) ∧
      documents (store w') =
        documents (store w) ++
          [Document.Row document_id knowledge_base_id filename document_type
             page_count chunk_count (clock l)] ∧
      knowledge_bases (store w') =
        count_document knowledge_base_id <$> knowledge_bases (store w) ∧
      conversations (store w') = conversations (store w) ∧
      messages (store w') = messages (store w) ∧
      sources (store w') = sources (store w) ∧
      settings (store w') = settings (store w)
  | (Raised e, w') => store w' = store w
  end.
Proof.
  unfold register_document, INSERT_document, UPDATE_document_count. unfold_io.
  destruct (int4 page_count && int4 chunk_count);
    run_cases; simpl; split_and?; done.
Qed.

(** [register_knowledge_base] leaves the table alone or appends one row,
    under a key that no row had, with no document counted. *)
Lemma register_knowledge_base_appends l name em cs d w :
  let K := knowledge_bases (store w) in
  let K' := knowledge_bases (store (register_knowledge_base l name em cs d w).2) in
  K' = K ∨
  ∃ k, K' = K ++ [k] ∧ KnowledgeBase.document_count k = 0 ∧
       KnowledgeBase.id k ∉ KnowledgeBase.id <$> K.
Proof.
  unfold register_knowledge_base, INSERT_knowledge_base, SELECT_knowledge_base_id,
    query. unfold_io.
  destruct name, em, cs; run_cases; simpl; auto.
  all: right; eexists; split_and!; [reflexivity|done|done].
Qed.

Lemma registrations_app i h1 h2 :
  registrations i (h1 ++ h2) = registrations i h1 + registrations i h2.
Proof. unfold registrations. rewrite filter_app, length_app. lia. Qed.

Lemma registrations_one i e :
  registrations i [e] = if registers i e then 1 else 0.
Proof.
  unfold registrations. rewrite filter_cons, filter_nil.
  destruct (registers i e); by simpl.
Qed.

Lemma registers_other i c ok :
  (∀ l k f d p n, c ≠ RegisterDocument l k f d p n) → registers i (c, ok) = false.
Proof.
  intros Hc.
  destruct c as [| | | | | | | | | | |l k f d p n| | | | |], ok; try done.
  by destruct (Hc l k f d p n).
Qed.

Lemma counted_unrelated h w c ok w' :
  counted h w →
  (∀ i, registers i (c, ok) = false) →
  knowledge_bases (store w') = knowledge_bases (store w) →
  counted (h ++ [(c, ok)]) w'.
Proof.
  intros [Hrows Hnone] Hc HK. unfold counted. rewrite HK. split.
  - eapply Forall_impl; [exact Hrows|]. intros k Hk. cbv beta in *.
    rewrite registrations_app, registrations_one, Hc. lia.
  - intros i Hi. rewrite registrations_app, registrations_one, Hc, Hnone by done. lia.
Qed.

Lemma counted_run rt h w c :
  counted h w → counted (h ++ [(c, (run rt c w).1)]) (run rt c w).2.
Proof.
  intros Hc.
  destruct (writes_knowledge_bases c) eqn:Hwrites.
  - destruct c as [| | | | | | | | |l name em cs d| |l kid f dt pc cc| | | | |];
      try discriminate; simpl.
    + (* register_knowledge_base *)
      destruct (register_knowledge_base_appends l name em cs d w) as [HK|(k & HK & Hk0 & Hkid)].
      * by apply (counted_unrelated h w).
      * destruct Hc as [Hrows Hnone]. unfold counted. rewrite HK. split.
        -- apply Forall_app. split.
           ++ eapply Forall_impl; [exact Hrows|]. intros k' Hk'. simpl in *.
              rewrite registrations_app, registrations_one. simpl. lia.
           ++ constructor; [|done].
              rewrite registrations_app, registrations_one, Hnone by done.
              simpl. lia.
        -- intros i Hi. rewrite registrations_app, registrations_one. simpl.
           rewrite Hnone; [done|]. intros Hin. apply Hi.
           rewrite fmap_app. apply elem_of_app. by left.
    + (* register_document *)
      pose proof (register_document_atomic l kid f dt pc cc w) as Hdoc.
      destruct (register_document l kid f dt pc cc w) as [[i|e] w'] eqn:E; simpl.
      * destruct Hdoc as (Hkid & _ & HK & _).
        destruct Hc as [Hrows Hnone]. unfold counted. rewrite HK. split.
        -- apply Forall_fmap. eapply Forall_impl; [exact Hrows|].
           intros k Hk. simpl in *.
           rewrite count_document_id, registrations_app, registrations_one.
           unfold count_document. simpl.
           destruct (decide (KnowledgeBase.id k = kid)) as [Heq|Hne]; simpl.
           ++ rewrite bool_decide_eq_true_2 by done. lia.
           ++ rewrite bool_decide_eq_false_2 by done. lia.
        -- intros j Hj.
           rewrite (fmap_fmap_same KnowledgeBase.id) in Hj by apply count_document_id.
           rewrite registrations_app, registrations_one, Hnone by done. simpl.
           rewrite bool_decide_eq_false_2; [done|]. intros ->. done.
      * apply (counted_unrelated h w); [done|done|by rewrite Hdoc].
  - apply (counted_unrelated h w); [done| |by apply run_leaves_knowledge_bases].
    intros i. apply registers_other. intros l k f d p n ->. done.
Qed.

Lemma counted_replay rt cs h w :
  counted h w → counted (h ++ (replay rt cs w).1) (replay rt cs w).2.
Proof.
  revert h w. induction cs as [|c cs IH]; intros h w Hc; simpl.
  - by rewrite app_nil_r.
  - pose proof (counted_run rt h w c Hc) as Hstep.
    destruct (run rt c w) as [ok w']. simpl in Hstep.
    specialize (IH _ _ Hstep).
    destruct (replay rt cs w') as [h' w'']. simpl in *.
    by rewrite <- app_assoc in IH.
Qed.

(** C2. [document_count] counts the successful registrations.  Each
    [register_document] that returns has committed the document row together
    with an increment by one of the knowledge base it names (which exists),
    and one that raises has committed nothing.  No other call changes the
    [document_count] of a row: it leaves the rows of [knowledge_bases] as they
    are, at most followed by a new row that counts no document.  Hence after
    any sequence of calls on the empty store, whatever their links do, every
    knowledge base holds in [document_count] the number of calls of
    [register_document] against its id that returned. *)
Theorem document_count_is_registrations rt :
  (∀ l knowledge_base_id filename document_type page_count chunk_count w,
     match register_document l knowledge_base_id filename document_type
             page_count chunk_count w with
     | (Returned document_id, w') =>
         knowledge_base_id ∈ KnowledgeBase.id <$> knowledge_bases (store w) ∧
         documents (store w') =
           documents (store w) ++
             [Document.Row document_id knowledge_base_id filename document_type
                page_count chunk_count (clock l)] ∧
         knowledge_bases (store w') =
           count_document knowledge_base_id <$> knowledge_bases (store w)
     | (Raised e, w') => store w' = store w
     end) ∧
  (∀ c w,
     (∀ l k f d p n, c ≠ RegisterDocument l k f d p n) →
     ∃ new,
       knowledge_bases (store (run rt c w).2) = knowledge_bases (store w) ++ new ∧
       Forall (λ k, KnowledgeBase.document_count k = 0) new) ∧
  (∀ cs,
     Forall (λ k, KnowledgeBase.document_count k =
                    registrations (KnowledgeBase.id k) (replay rt cs initial).1)
       (knowledge_bases (store (replay rt cs initial).2))).
Proof.
  split_and!.
  - intros l k f dt pc cc w.
    pose proof (register_document_atomic l k f dt pc cc w) as H.
    destruct (register_document l k f dt pc cc w) as [[i|e] w']; [|done].
    by destruct H as (? & ? & ? & _).
  - intros c w Hc.
    destruct (writes_knowledge_bases c) eqn:Hwrites.
    + destruct c as [| | | | | | | | |l name em cs d| |l kid f dt pc cc| | | | |];
        try discriminate; [|by destruct (Hc l kid f dt pc cc)].
      destruct (register_knowledge_base_appends l name em cs d w)
        as [HK|(k & HK & Hk0 & _)]; simpl in *.
      * exists []. by rewrite app_nil_r.
      * exists [k]. split; [done|]. by constructor.
    + exists []. rewrite app_nil_r. split; [|done].
      by apply run_leaves_knowledge_bases.
  - intros cs.
    assert (counted [] initial) as H0.
    { split; [constructor|done]. }
    by destruct (counted_replay rt cs [] initial H0) as [Hrows _].
Qed.

(** ** The read-only functions *)

Ltac reads_cases :=
  unfold reads; intros w; unfold query; unfold_io;
  destruct (reachable _); [|done];
  simpl; destruct (lost _ 0); [done|];
  simpl; try done; destruct (head _); done.

Lemma get_setting_reads l key default :
  has_nul key = false →
  reads (get_setting l key default) l
    (λ t, match head (filter (λ s, Setting.key s = key) (settings t)) with
          | Some s => PyStr (Setting.value s)
          | None => default
          end)
    default "Error getting setting".
Proof. intros Hkey. unfold get_setting, SELECT_setting. rewrite Hkey. reads_cases. Qed.

(** A key that cannot be sent: the ValueError of [execute] is caught like
    any error of the query. *)
Lemma get_setting_unsent l key default w :
  has_nul key = true →
  get_setting l key default w =
    if reachable l
    then (Returned default,
          World (store w) (counters w)
            (log w ++ [ERROR "Error getting setting" ValueError]))
    else (Raised OperationalError, w).
Proof.
  intros Hkey. unfold get_setting, SELECT_setting. rewrite Hkey. unfold_io.
  by destruct (reachable l).
Qed.

(** C6, as the code has it.  A read-only function raises exactly when its
    connection is refused: [get_connection] is called before the [try], so
    that error reaches the caller and nothing is logged.  Once the
    connection is open the function never raises: a query that fails is
    logged and the function returns the empty list ([get_setting]: its
    default); otherwise it returns the rows of the query ([get_setting]: the
    stored value, or the default when the key is absent).  A key that
    cannot be sent to the server (a [str] with a NUL character) is such a
    failure of [get_setting]: the ValueError is logged and the default
    returned.  The tables and the sequences are never changed. *)
Theorem reads_never_change_the_store l :
  reads (get_conversations l) l
    (λ t, (λ c, (Conversation.id c, Conversation.title c, Conversation.created_at c))
            <$> merge_sort last_updated_desc (conversations t))
    [] "Error getting conversations" ∧
  (∀ conversation_id,
     reads (get_messages l conversation_id) l
       (λ t, (λ m, (Message.id m, Message.role m, Message.content m,
                    Message.created_at m))
               <$> merge_sort created_at_asc
                     (filter (λ m, Message.conversation_id m = conversation_id)
                        (messages t)))
       [] "Error getting messages") ∧
  (∀ message_id,
     reads (get_sources l message_id) l
       (λ t, cite <$> merge_sort score_desc
                        (filter (λ s, Source.message_id s = message_id) (sources t)))
       [] "Error getting sources") ∧
  reads (get_knowledge_bases l) l
    (λ t, merge_sort kb_created_at_desc (knowledge_bases t))
    [] "Error getting knowledge bases" ∧
  (∀ knowledge_base_id,
     reads (get_documents l knowledge_base_id) l
       (λ t, (λ d, (Document.id d, Document.filename d, Document.document_type d,
                    Document.page_count d, Document.chunk_count d,
                    Document.created_at d))
               <$> merge_sort doc_created_at_desc
                     (filter (λ d, Document.knowledge_base_id d = knowledge_base_id)
                        (documents t)))
       [] "Error getting documents") ∧
  (∀ key default,
     has_nul key = false →
     reads (get_setting l key default) l
       (λ t, match head (filter (λ s, Setting.key s = key) (settings t)) with
             | Some s => PyStr (Setting.value s)
             | None => default
             end)
       default "Error getting setting") ∧
  (∀ key default w,
     has_nul key = true →
     get_setting l key default w =
       if reachable l
       then (Returned default,
             World (store w) (counters w)
               (log w ++ [ERROR "Error getting setting" ValueError]))
       else (Raised OperationalError, w)).
Proof.
  split_and!; intros.
  - unfold get_conversations, SELECT_conversations. reads_cases.
  - unfold get_messages, SELECT_messages. reads_cases.
  - unfold get_sources, SELECT_sources. reads_cases.
  - unfold get_knowledge_bases, SELECT_knowledge_bases. reads_cases.
  - unfold get_documents, SELECT_documents. reads_cases.
  - by apply get_setting_reads.
  - by apply get_setting_unsent.
Qed.

(** ** [get_sources] *)

(** Swapping the arguments of a comparison of floats reverses it. *)
Lemma SFcompare_swap x y :
  SFcompare y x = CompOpp <$> SFcompare x y.
Proof.
  destruct x as [sx|sx| |sx mx ex], y as [sy|sy| |sy my ey]; simpl;
    try done; try (by destruct sx); try (by destruct sy);
    try (by destruct sx, sy).
  destruct sx, sy; simpl; try done.
  - rewrite (Z.compare_antisym ey ex).
    destruct (ey ?= ex); simpl; try done.
    by rewrite (Pos.compare_cont_antisym mx my Eq).
  - rewrite (Z.compare_antisym ey ex).
    destruct (ey ?= ex); simpl; try done.
    by rewrite (Pos.compare_cont_antisym mx my Eq).
Qed.

Lemma ltb_asym (a b : float) : (a <? b)%float = true → (b <? a)%float = false.
Proof.
  rewrite !FloatAxioms.ltb_spec. unfold SFltb.
  rewrite (SFcompare_swap (Prim2SF a) (Prim2SF b)).
  by destruct (SFcompare (Prim2SF a) (Prim2SF b)) as [[]|].
Qed.

Lemma float_lt_asym a b : float_lt a b = true → float_lt b a = false.
Proof.
  unfold float_lt. destruct (is_nan a), (is_nan b); try done. apply ltb_asym.
Qed.

Lemma SFltb_rank x y :
  x ≠ S754_nan → y ≠ S754_nan →
  SFltb x y = true ↔ lex_lt (rank x) (rank y).
Proof.
  intros Hx Hy. unfold SFltb, lex_lt.
  destruct x as [sx|sx| |sx mx ex], y as [sy|sy| |sy my ey]; try done;
    try destruct sx; try destruct sy; simpl;
    try (split; [intros; try done; lia | intros; try done; lia]).
  all: destruct (Z.compare_spec ex ey); simpl;
    try (split; [intros; try done; lia | intros; try done; lia]).
  all: change (PosDef.Pos.compare_cont Eq mx my) with (Pos.compare mx my);
    destruct (Pos.compare_spec mx my); simpl;
    (split; [intros; try done; lia | intros; try done; lia]).
Qed.

Lemma is_nan_spec (a : float) : is_nan a = true ↔ Prim2SF a = S754_nan.
Proof.
  unfold is_nan. rewrite FloatAxioms.eqb_spec. unfold SFeqb.
  destruct (Prim2SF a) as [[]|[]| |[] m e]; simpl;
    rewrite ?Z.compare_refl, ?Pos.compare_cont_refl; simpl; done.
Qed.

Lemma float_lt_rank a b :
  float_lt a b = true ↔ lex_lt (rank (Prim2SF a)) (rank (Prim2SF b)).
Proof.
  unfold float_lt.
  destruct (is_nan a) eqn:Ha.
  - apply is_nan_spec in Ha. rewrite Ha. unfold lex_lt.
    destruct (Prim2SF b) as [[]|[]| |[] m e]; simpl; split; intros; try done; lia.
  - destruct (is_nan b) eqn:Hb.
    + apply is_nan_spec in Hb. rewrite Hb. unfold lex_lt.
      assert (Prim2SF a ≠ S754_nan) as Hna.
      { intros H. apply is_nan_spec in H. congruence. }
      destruct (Prim2SF a) as [[]|[]| |[] m e]; simpl; split; intros; try done; lia.
    + rewrite FloatAxioms.ltb_spec. apply SFltb_rank.
      * intros H. apply is_nan_spec in H. congruence.
      * intros H. apply is_nan_spec in H. congruence.
Qed.

(** Descending score is a total preorder on the rows: ORDER BY can sort any
    list of sources, and in a sorted list every row has a score at least
    that of every later row. *)
Global Instance score_desc_total : Total score_desc.
Proof.
  intros x y. unfold score_desc.
  destruct (float_lt (Source.score x) (Source.score y)) eqn:E; [|by left].
  right. by apply float_lt_asym.
Qed.

Global Instance score_desc_trans : Transitive score_desc.
Proof.
  intros x y z. unfold score_desc. intros Hxy Hyz.
  destruct (float_lt (Source.score x) (Source.score z)) eqn:Hxz; [|done].
  exfalso. apply float_lt_rank in Hxz.
  assert (¬ lex_lt (rank (Prim2SF (Source.score x)))
              (rank (Prim2SF (Source.score y)))) as H1.
  { intros H. apply float_lt_rank in H. congruence. }
  assert (¬ lex_lt (rank (Prim2SF (Source.score y)))
              (rank (Prim2SF (Source.score z)))) as H2.
  { intros H. apply float_lt_rank in H. congruence. }
  unfold lex_lt in *.
  destruct (rank _) as [[a1 a2] a3], (rank _) as [[b1 b2] b3],
    (rank _) as [[c1 c2] c3].
  simpl in *. lia.
Qed.

(** Between two scores that are numbers, "not below" is [>=]. *)
Lemma score_desc_geb x y :
  is_nan (Source.score x) = false →
  is_nan (Source.score y) = false →
  score_desc x y →
  (Source.score y <=? Source.score x)%float = true.
Proof.
  unfold score_desc, float_lt. intros Hx Hy Hlt. rewrite Hx, Hy in Hlt.
  rewrite FloatAxioms.ltb_spec in Hlt. rewrite FloatAxioms.leb_spec.
  unfold SFltb in Hlt. unfold SFleb.
  rewrite (SFcompare_swap (Prim2SF (Source.score x)) (Prim2SF (Source.score y))).
  unfold is_nan in Hx, Hy. rewrite FloatAxioms.eqb_spec in Hx, Hy. unfold SFeqb in Hx, Hy.
  destruct (SFcompare (Prim2SF (Source.score x)) (Prim2SF (Source.score y)))
    as [[]|] eqn:E; try done.
  exfalso.
  destruct (Prim2SF (Source.score x)) as [sx|sx| |sx mx ex];
    destruct (Prim2SF (Source.score y)) as [sy|sy| |sy my ey];
    simpl in *; done.
Qed.


(** ** Settings *)

Lemma set_setting_steady rt l key value w :
  steady l → consistent w →
  has_nul key = false → has_nul (py_str rt value) = false →
  set_setting rt l key value w =
    (Returned (),
     World (set_settings (upserted key (py_str rt value) (store w) (counters w)) (store w))
       (setting_drawn (counters w)) (log w)).
Proof.
  intros [Hr Hl] Hw Hkey Hvalue.
  unfold set_setting, UPSERT_setting, upserted. unfold_io.
  rewrite Hr. simpl. rewrite Hkey, Hvalue. simpl.
  destruct (decide (key ∈ _)); simpl; rewrite ?Hl; [done|].
  rewrite decide_False by (apply fresh_not_elem_of; by destruct Hw).
  simpl. by rewrite !Hl.
Qed.

Lemma set_setting_consistent rt l key value w :
  consistent w → consistent (set_setting rt l key value w).2.
Proof. apply (run_consistent rt (SetSetting l key value)). Qed.

Lemma upserted_key key value t q :
  key ∈ Setting.key <$> upserted key value t q.
Proof.
  unfold upserted. destruct (decide _) as [Hin|Hout].
  - by rewrite (fmap_fmap_same Setting.key) by apply overwrite_key.
  - rewrite fmap_app. apply elem_of_app. right. by apply list_elem_of_singleton.
Qed.

Lemma upserted_value key value t q s :
  s ∈ upserted key value t q → Setting.key s = key → Setting.value s = value.
Proof.
  unfold upserted. destruct (decide _) as [Hin|Hout]; intros Hs Hkey.
  - apply list_elem_of_fmap in Hs as (s0 & -> & _).
    unfold overwrite in *. destruct (decide (Setting.key s0 = key)); [done|].
    by simpl in Hkey.
  - apply elem_of_app in Hs as [Hs|Hs].
    + exfalso. apply Hout. rewrite <- Hkey. by apply list_elem_of_fmap_2.
    + apply list_elem_of_singleton in Hs. by subst.
Qed.


(** ** The active knowledge base *)

(** What [get_active_knowledge_base] does, link by link. *)
Lemma get_active_knowledge_base_run l1 l2 w :
  get_active_knowledge_base l1 l2 w =
    if reachable l1 then
      if lost l1 0
      then (Returned None,
            World (store w) (counters w)
              (log w ++ [ERROR "Error getting setting" OperationalError]))
      else
        match active_name (store w) with
        | None => (Returned None, w)
        | Some name =>
            if decide (name = "") then (Returned None, w)
            else if reachable l2 then
              if lost l2 0
              then (Returned None,
                    World (store w) (counters w)
                      (log w ++
                         [ERROR "Error getting active knowledge base"
                            OperationalError]))
              else (Returned (head (named (Some name) (store w))), w)
            else (Raised OperationalError, w)
        end
    else (Raised OperationalError, w).
Proof.
  unfold get_active_knowledge_base, mbind, program_bind.
  rewrite (get_setting_reads l1 "active_knowledge_base" PyNone eq_refl w).
  destruct (reachable l1); [|done].
  destruct (lost l1 0); simpl; [done|].
  unfold active_name.
  destruct (head (filter _ (settings (store w)))) as [s|]; simpl; [|by destruct w].
  destruct (String.eqb_spec (Setting.value s) "") as [Heq|Hne]; simpl.
  { rewrite decide_True by done. by destruct w. }
  rewrite decide_False by done.
  unfold query. unfold_io. simpl.
  destruct (reachable l2); simpl; [|by destruct w].
  destruct (lost l2 0); simpl; [done|by destruct w].
Qed.

Lemma get_active_knowledge_base_steady l1 l2 w :
  steady l1 → steady l2 →
  get_active_knowledge_base l1 l2 w = (Returned (resolved (store w)), w).
Proof.
  intros [Hr1 Hl1] [Hr2 Hl2].
  unfold get_active_knowledge_base, mbind, program_bind.
  rewrite (get_setting_reads l1 "active_knowledge_base" PyNone eq_refl w).
  rewrite Hr1, Hl1. unfold resolved, active_name.
  destruct (head (filter _ (settings (store w)))) as [s|]; simpl.
  - destruct (String.eqb_spec (Setting.value s) "") as [->|Hne]; simpl.
    + by destruct w.
    + rewrite decide_False by done.
      unfold query. unfold_io. simpl. rewrite Hr2. simpl. rewrite Hl2. simpl.
      by destruct w.
  - by destruct w.
Qed.

Lemma resolved_None t :
  resolved t = None ↔
    active_name t = None ∨
    active_name t = Some "" ∨
    ∃ name, active_name t = Some name ∧
            name ∉ KnowledgeBase.name <$> knowledge_bases t.
Proof.
  unfold resolved. destruct (active_name t) as [name|]; [|naive_solver].
  destruct (decide (name = "")) as [->|Hne]; [naive_solver|].
  split.
  - intros Hnone. right. right. exists name. split; [done|].
    intros Hin. apply list_elem_of_fmap in Hin as (k & -> & Hk).
    apply head_None in Hnone.
    assert (k ∈ named (Some (KnowledgeBase.name k)) t) as Hk'.
    { unfold named. apply list_elem_of_filter. by split. }
    rewrite Hnone in Hk'. by apply elem_of_nil in Hk'.
  - intros [?|[?|(n & Hn & Hout)]]; try congruence.
    injection Hn as <-. by rewrite named_missing.
Qed.

Lemma resolved_Some t k :
  resolved t = Some k →
  k ∈ knowledge_bases t ∧ active_name t = Some (KnowledgeBase.name k).
Proof.
  unfold resolved. destruct (active_name t) as [name|]; [|done].
  destruct (decide (name = "")); [done|]. intros Hk.
  apply head_Some_elem_of in Hk. unfold named in Hk.
  apply list_elem_of_filter in Hk as [Hname Hk]. split; [done|]. congruence.
Qed.

Lemma set_active_knowledge_base_steady rt l name w :
  steady l → consistent w → has_nul name = false →
  ∃ w',
    set_active_knowledge_base rt l (PyStr name) w = (Returned (), w') ∧
    consistent w' ∧
    active_name (store w') = Some name ∧
    knowledge_bases (store w') = knowledge_bases (store w).
Proof.
  intros Hl Hw Hname.
  pose (w' := World
                (set_settings
                   (upserted "active_knowledge_base" name (store w) (counters w))
                   (store w))
                (setting_drawn (counters w)) (log w)).
  assert (set_active_knowledge_base rt l (PyStr name) w = (Returned (), w'))
    as E by (by apply set_setting_steady).
  assert (consistent w') as Hw'.
  { pose proof (set_setting_consistent rt l "active_knowledge_base"
                  (PyStr name) w Hw) as H.
    unfold set_active_knowledge_base in E. by rewrite E in H. }
  exists w'. split_and!; try done.
  unfold active_name.
  assert ("active_knowledge_base" ∈ Setting.key <$> settings (store w'))
    as Hkey by apply upserted_key.
  apply list_elem_of_fmap in Hkey as (s & Hs & Hin).
  rewrite (filter_key Setting.key _ _ s);
    [|apply (settings_key_key _ _ Hw')|done|intros y; by rewrite <- Hs].
  simpl. f_equal.
  by apply (upserted_value "active_knowledge_base" _ (store w) (counters w)).
Qed.

(** C9, as the code has it.  When its connections are accepted and its
    queries go through, [get_active_knowledge_base] returns [None] exactly
    when the setting is unset, or is the empty string, or names no knowledge
    base; otherwise it returns the full row of the knowledge base of that
    name.  It changes nothing.  [set_active_knowledge_base(name)] writes the
    setting without looking at the knowledge bases, for a name that can be
    sent: when no knowledge base is called [name],
    [get_active_knowledge_base] then returns [None]; a name with a NUL
    character is not sent, and [set_active_knowledge_base] raises ValueError
    and writes nothing.  On links that fail: the function also returns
    [None] when one of its queries is lost, and raises when one of the
    connections it opens is refused. *)
Theorem get_active_knowledge_base_resolves rt l1 l2 l3 w :
  steady l1 → steady l2 → steady l3 → consistent w →
  (∃ r,
     get_active_knowledge_base l1 l2 w = (Returned r, w) ∧
     (r = None ↔
        active_name (store w) = None ∨
        active_name (store w) = Some "" ∨
        ∃ name, active_name (store w) = Some name ∧
                name ∉ KnowledgeBase.name <$> knowledge_bases (store w)) ∧
     (∀ k, r = Some k →
           active_name (store w) = Some (KnowledgeBase.name k) ∧
           named (Some (KnowledgeBase.name k)) (store w) = [k]))
  ∧
  (∀ name,
     has_nul name = false →
     name ∉ KnowledgeBase.name <$> knowledge_bases (store w) →
     ∃ w',
       set_active_knowledge_base rt l3 (PyStr name) w = (Returned (), w') ∧
       active_name (store w') = Some name ∧
       get_active_knowledge_base l1 l2 w' = (Returned None, w'))
  ∧
  (∀ la lb,
     reachable la = true → reachable lb = true →
     lost la 0 = true ∨ lost lb 0 = true →
     (get_active_knowledge_base la lb w).1 = Returned None ∧
     store (get_active_knowledge_base la lb w).2 = store w)
  ∧
  (∀ la lb,
     reachable la = false ∨
     (lost la 0 = false ∧ reachable lb = false ∧
      ∃ name, active_name (store w) = Some name ∧ name ≠ "") →
     get_active_knowledge_base la lb w = (Raised OperationalError, w))
  ∧
  (∀ l name,
     reachable l = true → has_nul name = true →
     set_active_knowledge_base rt l (PyStr name) w =
       (Raised ValueError,
        World (store w) (counters w)
          (log w ++ [ERROR "Error setting value" ValueError]))).
Proof.
  intros Hl1 Hl2 Hl3 Hw. split_and!.
  - exists (resolved (store w)). split_and!.
    + by apply get_active_knowledge_base_steady.
    + apply resolved_None.
    + intros k Hk. apply resolved_Some in Hk as [Hk Hname].
      split; [done|]. by apply (named_existing _ _ _ Hw).
  - intros name Hnul Hname.
    destruct (set_active_knowledge_base_steady rt l3 name w Hl3 Hw Hnul)
      as (w' & E & Hw' & Hactive & HK).
    exists w'. split_and!; try done.
    rewrite (get_active_knowledge_base_steady l1 l2 w' Hl1 Hl2). f_equal. f_equal.
    apply resolved_None. right. right. exists name. by rewrite HK.
  - intros la lb Hra Hrb Hlost.
    rewrite (get_active_knowledge_base_run la lb w), Hra, Hrb.
    destruct (lost la 0); [done|].
    destruct Hlost as [?|Hlb]; [done|]. rewrite Hlb.
    destruct (active_name (store w)) as [name|]; [|done].
    by destruct (decide (name = "")).
  - intros la lb Hraise. rewrite (get_active_knowledge_base_run la lb w).
    destruct (reachable la); [|done].
    destruct Hraise as [?|(Hla & Hrb & name & Hname & Hne)]; [done|].
    by rewrite Hla, Hname, decide_False, Hrb.
  - intros l name Hr Hnul.
    unfold set_active_knowledge_base, set_setting, UPSERT_setting. unfold_io.
    rewrite Hr. simpl. rewrite Hnul. by destruct (has_nul _).
Qed.

(** ** [add_sources] *)

(** An integer beyond the range of a float makes [float()] raise
    OverflowError. *)
Lemma py_float_overflow rt : py_float rt (PyInt (10 ^ 400)) = Raised OverflowError.
Proof.
  unfold py_float.
  assert (is_infinity (float_of_Z (10 ^ 400)) = true) as -> by (by vm_compute).
  done.
Qed.

(** One turn of the loop that returns has appended one row to the sources of
    the open transaction, and nothing else. *)
Lemma add_source_stores rt message_id source l s s' :
  add_source rt message_id source l s = (Returned (), s') →
  durable s' = durable s ∧ journal s' = journal s ∧
  closed s' = false ∧ begun s' = true ∧
  ∃ row,
    stored_as rt message_id source row ∧
    working s' = set_sources (sources (working s) ++ [row]) (working s).
Proof.
  unfold add_source, INSERT_source, cast_source, stored_as, score_of. unfold_io.
  destruct (py_float rt (get source "score" (PyFloat 0.5))) as [f|[]]; simpl;
    try done.
  all: destruct (closed s); simpl; try done.
  all: destruct (_ || _); simpl; try done.
  all: destruct (to_int4 rt (get source "page" (PyInt 0))) as [page|]; simpl;
    try done.
  all: destruct (int4 message_id); simpl; try done.
  all: destruct (real_of_float rt _) as [real|] eqn:Hreal; simpl; try done.
  all: destruct (to_text rt (get source "source" (PyStr ""))) as [doc|]; simpl;
    try (by destruct (lost l (trips s))).
  all: repeat (destruct (decide _); simpl; try (by destruct (lost l (trips s)))).
  all: destruct (lost l (trips s)); simpl; try done.
  all: intros [= <-]; simpl; split_and!; try done.
  all: eexists; split; [|reflexivity]; simpl; done.
Qed.

Lemma for_each_add_source_stores rt message_id entries l s s' :
  for_each (add_source rt message_id) entries l s = (Returned (), s') →
  durable s' = durable s ∧ journal s' = journal s ∧
  (entries = [] ∨ closed s' = false ∧ begun s' = true) ∧
  ∃ rows,
    Forall2 (stored_as rt message_id) entries rows ∧
    working s' = set_sources (sources (working s) ++ rows) (working s).
Proof.
  revert s. induction entries as [|d ds IH]; intros s; simpl.
  - intros [= <-]. split_and!; try done; [by left|]. exists [].
    split; [constructor|]. rewrite app_nil_r. by destruct (working s).
  - unfold mbind, io_bind.
    destruct (add_source rt message_id d l s) as [[[]|e] s1] eqn:E1; [|done].
    intros E2. pose proof E2 as E2'.
    apply add_source_stores in E1 as (Hd1 & Hj1 & Hc1 & Hb1 & row & Hrow & Hw1).
    apply IH in E2 as (Hd2 & Hj2 & Hopen & rows & Hrows & Hw2).
    split_and!; try congruence.
    + right. destruct Hopen as [->|?]; [|done].
      simpl in E2'. by injection E2' as <-.
    + exists (row :: rows). split; [by constructor|].
      rewrite Hw2, Hw1. simpl. by rewrite <- app_assoc.
Qed.

Lemma uncommitted_lift {A} (o : outcome A) : uncommitted (lift o).
Proof. done. Qed.

Lemma uncommitted_ret {A} (a : A) : uncommitted (mret a).
Proof. done. Qed.

Lemma uncommitted_raise {A} (e : exn) : uncommitted (@raise A e).
Proof. done. Qed.

Lemma uncommitted_execute {A} (st : statement A) : uncommitted (execute st).
Proof.
  intros l s. unfold execute, hangup. destruct (closed s); [done|].
  by destruct (st _ _ _) as [[]], (lost l (trips s)).
Qed.

Lemma uncommitted_rollback : uncommitted rollback.
Proof.
  intros l s. unfold rollback, hangup.
  by destruct (closed s), (begun s), (lost l (trips s)).
Qed.

Lemma uncommitted_logger_error msg e : uncommitted (logger_error msg e).
Proof. done. Qed.

Lemma uncommitted_bind {A B} (m : io A) (f : A → io B) :
  uncommitted m → (∀ a, uncommitted (f a)) → uncommitted (m ≫= f).
Proof.
  intros Hm Hf l s. unfold mbind, io_bind. specialize (Hm l s).
  destruct (m l s) as [[a|e] s1]; simpl in *; [|done].
  by rewrite Hf.
Qed.

Lemma uncommitted_try_except {A} (body : io A) (handler : exn → io A) :
  uncommitted body → (∀ e, uncommitted (handler e)) →
  uncommitted (try_except body handler).
Proof.
  intros Hm Hh l s. unfold try_except. specialize (Hm l s).
  destruct (body l s) as [[a|e] s1]; simpl in *; [done|].
  by rewrite Hh.
Qed.

Lemma uncommitted_for_each {A} (f : A → io unit) (xs : list A) :
  (∀ x, uncommitted (f x)) → uncommitted (for_each f xs).
Proof.
  intros Hf. induction xs as [|x xs IH]; simpl; [done|].
  apply uncommitted_bind; [apply Hf|by intros _].
Qed.

Lemma uncommitted_add_source rt message_id source :
  uncommitted (add_source rt message_id source).
Proof.
  unfold add_source. apply uncommitted_bind.
  - apply uncommitted_try_except; [apply uncommitted_lift|].
    intros []; try apply uncommitted_raise; apply uncommitted_ret.
  - intros f. apply uncommitted_execute.
Qed.

(** [add_sources] is one transaction.  When it returns it has stored one row
    per entry, in the order of the list, each with the entry's fields or the
    defaults of the fields that are absent (a score that [float()] rejects
    with ValueError or TypeError counts as absent); when it raises it has
    stored nothing. *)
Lemma add_sources_atomic rt l message_id entries w :
  match add_sources rt l message_id entries w with
  | (Returned _, w') =>
      ∃ rows,
        Forall2 (stored_as rt message_id) entries rows ∧
        store w' = set_sources (sources (store w) ++ rows) (store w)
  | (Raised e, w') => store w' = store w
  end.
Proof.
  unfold add_sources. destruct entries as [|d ds].
  { simpl. exists []. split; [constructor|].
    rewrite app_nil_r. by destruct (store w). }
  unfold connected. destruct (reachable l); [|done].
  unfold try_except. unfold mbind at 1, io_bind at 1.
  pose proof (uncommitted_for_each (add_source rt message_id) (d :: ds)
                (uncommitted_add_source rt message_id) l
                (Session (store w) (store w) (counters w) 0 (log w) false false))
    as Hd.
  destruct (for_each (add_source rt message_id) (d :: ds) l _) as [[[]|e] s1] eqn:E;
    simpl in Hd.
  - apply for_each_add_source_stores in E
      as (_ & Hj & [?|[Hc Hb]] & rows & Hrows & Hw); [done|].
    simpl in Hw. unfold commit, hangup. rewrite Hc, Hb.
    destruct (lost l (trips s1)); simpl.
    + unfold rollback, mbind, io_bind. simpl. done.
    + exists rows. by rewrite Hw.
  - unfold rollback, hangup, logger_error, raise, mbind, io_bind.
    destruct (closed s1), (begun s1), (lost l (trips s1)); simpl; done.
Qed.

(** An empty list is answered before any connection is opened. *)
Lemma add_sources_nothing rt l message_id w :
  add_sources rt l message_id [] w = (Returned (), w).
Proof. done. Qed.

(** [add_sources(mid, [{}])] stores the row of the defaults: the score is
    0.5, which is a single-precision number. *)
Lemma add_sources_defaults rt l message_id w :
  steady l → consistent w →
  message_id ∈ Message.id <$> messages (store w) →
  int4 message_id = true →
  real_of_float rt 0.5 = Some 0.5%float →
  add_sources rt l message_id [∅] w =
    (Returned (),
     World
       (set_sources
          (sources (store w) ++
             [Source.Row (sources_id_seq (counters w)) message_id ""
                (Some 0) 0.5%float (Some "Unknown KB")])
          (store w))
       (source_drawn (counters w)) (log w)).
Proof.
  intros [Hr Hl] Hw Hmid Hint Hreal.
  unfold add_sources. simpl.
  unfold add_source, INSERT_source, cast_source, get. unfold_io.
  rewrite Hr. simpl. rewrite !lookup_empty. cbn. rewrite Hint, Hreal. cbn.
  rewrite decide_False by (apply fresh_not_elem_of; by destruct Hw).
  rewrite decide_True by done. cbn. by rewrite !Hl.
Qed.

(** A score that [float()] rejects with TypeError or ValueError is replaced
    by 0.5. *)
Lemma score_of_rejected rt source e :
  py_float rt (get source "score" (PyFloat 0.5)) = Raised e →
  score_of rt source = 0.5%float.
Proof. unfold score_of. by intros ->. Qed.

Lemma score_of_absent rt source :
  source !! "score" = None → score_of rt source = 0.5%float.
Proof. unfold score_of, get. by intros ->. Qed.

(** C5, where the code departs from it.  An [int] too large for a float
    makes [float()] raise OverflowError, which the inner handler (ValueError,
    TypeError) lets through: on a link that does not fail the whole batch is
    rolled back and the error reaches the caller, instead of the score being
    replaced by 0.5. *)
Theorem add_sources_overflow rt now message_id w :
  add_sources rt (Link true (λ _, false) now) message_id
    [{[ "score" := PyInt (10 ^ 400) ]}] w =
    (Raised OverflowError,
     World (store w) (counters w)
       (log w ++ [ERROR "Error adding sources" OverflowError])).
Proof.
  unfold add_sources. simpl. unfold add_source, get. unfold_io. simpl.
  rewrite lookup_singleton_eq. cbn -[py_float Z.pow].
  by rewrite py_float_overflow.
Qed.

(** * Listings, round trips and failures *)

(** ** Sorted listings *)

Section SortFacts.
Context {A : Type} (R : relation A).

(** In a sorted list an element that nothing else may precede comes
    first. *)
Lemma sorted_head (l : list A) (x : A) :
  StronglySorted R l → x ∈ l →
  (∀ y, y ∈ l → y = x ∨ ¬ R y x) →
  head l = Some x.
Proof.
  intros Hs Hx Hmax. destruct Hs as [|h t Ht Hh]; [by apply elem_of_nil in Hx|].
  simpl. f_equal.
  destruct (Hmax h (list_elem_of_here h t)) as [->|Hn]; [done|].
  apply elem_of_cons in Hx as [->|Hx]; [done|].
  rewrite Forall_forall in Hh. destruct Hn. by apply Hh.
Qed.

(** And one that may not precede anything else comes last. *)
Lemma sorted_last (l : list A) (x : A) :
  StronglySorted R l → x ∈ l →
  (∀ y, y ∈ l → y = x ∨ ¬ R x y) →
  ∃ l', l = l' ++ [x].
Proof.
  intros Hs. induction Hs as [|h t Ht IH Hh]; intros Hx Hmax.
  { by apply elem_of_nil in Hx. }
  destruct t as [|a t].
  - apply list_elem_of_singleton in Hx as ->. by exists [].
  - assert (x ∈ a :: t) as Hx'.
    { apply elem_of_cons in Hx as [->|Hx]; [|done].
      apply Forall_cons in Hh as [Hha _].
      destruct (Hmax a) as [->|Hn]; [by right; left|by left|done]. }
    destruct IH as [l' Hl']; [done| |].
    + intros y Hy. apply Hmax. by right.
    + exists (h :: l'). by rewrite Hl'.
Qed.
End SortFacts.

Lemma NoDup_fmap_inj {A B} (f : A → B) (l : list A) x y :
  NoDup (f <$> l) → x ∈ l → y ∈ l → f x = f y → x = y.
Proof.
  intros Hnd Hx Hy Hf. induction l as [|a l IH]; [by apply elem_of_nil in Hx|].
  rewrite fmap_cons in Hnd. apply NoDup_cons in Hnd as [Ha Hnd].
  apply elem_of_cons in Hx as [->|Hx], Hy as [->|Hy]; try done.
  - destruct Ha. rewrite Hf. by apply list_elem_of_fmap_2.
  - destruct Ha. rewrite <- Hf. by apply list_elem_of_fmap_2.
  - by apply IH.
Qed.

(** The four orderings on timestamps are total preorders. *)
Global Instance last_updated_desc_total : Total last_updated_desc.
Proof. intros x y. unfold last_updated_desc. lia. Qed.
Global Instance last_updated_desc_trans : Transitive last_updated_desc.
Proof. intros x y z. unfold last_updated_desc. lia. Qed.
Global Instance created_at_asc_total : Total created_at_asc.
Proof. intros x y. unfold created_at_asc. lia. Qed.
Global Instance created_at_asc_trans : Transitive created_at_asc.
Proof. intros x y z. unfold created_at_asc. lia. Qed.
Global Instance kb_created_at_desc_total : Total kb_created_at_desc.
Proof. intros x y. unfold kb_created_at_desc. lia. Qed.
Global Instance kb_created_at_desc_trans : Transitive kb_created_at_desc.
Proof. intros x y z. unfold kb_created_at_desc. lia. Qed.
Global Instance doc_created_at_desc_total : Total doc_created_at_desc.
Proof. intros x y. unfold doc_created_at_desc. lia. Qed.
Global Instance doc_created_at_desc_trans : Transitive doc_created_at_desc.
Proof. intros x y z. unfold doc_created_at_desc. lia. Qed.

(** What the five listing functions answer when the connection is accepted
    and the query goes through. *)
Lemma get_conversations_rows l w :
  reachable l = true → lost l 0 = false →
  get_conversations l w =
    (Returned
       ((λ c, (Conversation.id c, Conversation.title c, Conversation.created_at c))
          <$> merge_sort last_updated_desc (conversations (store w))), w).
Proof.
  intros Hr Hl. unfold get_conversations, SELECT_conversations, query. unfold_io.
  rewrite Hr. simpl. rewrite Hl. simpl. by destruct w.
Qed.

Lemma get_messages_rows l conversation_id w :
  reachable l = true → lost l 0 = false →
  get_messages l conversation_id w =
    (Returned
       ((λ m, (Message.id m, Message.role m, Message.content m, Message.created_at m))
          <$> merge_sort created_at_asc
                (filter (λ m, Message.conversation_id m = conversation_id)
                   (messages (store w)))), w).
Proof.
  intros Hr Hl. unfold get_messages, SELECT_messages, query. unfold_io.
  rewrite Hr. simpl. rewrite Hl. simpl. by destruct w.
Qed.

Lemma get_sources_rows l message_id w :
  reachable l = true → lost l 0 = false →
  get_sources l message_id w =
    (Returned
       (cite <$> merge_sort score_desc
                   (filter (λ s, Source.message_id s = message_id)
                      (sources (store w)))), w).
Proof.
  intros Hr Hl. unfold get_sources, SELECT_sources, query. unfold_io.
  rewrite Hr. simpl. rewrite Hl. simpl. by destruct w.
Qed.

Lemma get_knowledge_bases_rows l w :
  reachable l = true → lost l 0 = false →
  get_knowledge_bases l w =
    (Returned (merge_sort kb_created_at_desc (knowledge_bases (store w))), w).
Proof.
  intros Hr Hl. unfold get_knowledge_bases, SELECT_knowledge_bases, query. unfold_io.
  rewrite Hr. simpl. rewrite Hl. simpl. by destruct w.
Qed.

Lemma get_documents_rows l knowledge_base_id w :
  reachable l = true → lost l 0 = false →
  get_documents l knowledge_base_id w =
    (Returned
       ((λ d, (Document.id d, Document.filename d, Document.document_type d,
               Document.page_count d, Document.chunk_count d, Document.created_at d))
          <$> merge_sort doc_created_at_desc
                (filter (λ d, Document.knowledge_base_id d = knowledge_base_id)
                   (documents (store w)))), w).
Proof.
  intros Hr Hl. unfold get_documents, SELECT_documents, query. unfold_io.
  rewrite Hr. simpl. rewrite Hl. simpl. by destruct w.
Qed.

(** X1. On a connection that is accepted and whose query goes through, the
    four listing functions besides [get_sources] return exactly the rows they
    select, in the order of their ORDER BY: [get_conversations] every
    conversation, latest [last_updated] first; [get_messages] the messages of
    the conversation, earliest [created_at] first; [get_knowledge_bases]
    every knowledge base and [get_documents] the documents of the knowledge
    base, latest [created_at] first.  The world is left as it is. *)
Theorem listings_are_sorted l w :
  reachable l = true → lost l 0 = false →
  (∃ rows,
     get_conversations l w =
       (Returned ((λ c, (Conversation.id c, Conversation.title c,
                         Conversation.created_at c)) <$> rows), w) ∧
     rows ≡ₚ conversations (store w) ∧
     StronglySorted (λ a b, Conversation.last_updated b ≤ Conversation.last_updated a)
       rows) ∧
  (∀ conversation_id,
     ∃ listing,
       get_messages l conversation_id w = (Returned listing, w) ∧
       listing ≡ₚ
         (λ m, (Message.id m, Message.role m, Message.content m, Message.created_at m))
           <$> filter (λ m, Message.conversation_id m = conversation_id)
                 (messages (store w)) ∧
       StronglySorted (λ a b, snd a ≤ snd b) listing) ∧
  (∃ listing,
     get_knowledge_bases l w = (Returned listing, w) ∧
     listing ≡ₚ knowledge_bases (store w) ∧
     StronglySorted (λ a b, KnowledgeBase.created_at b ≤ KnowledgeBase.created_at a)
       listing) ∧
  (∀ knowledge_base_id,
     ∃ listing,
       get_documents l knowledge_base_id w = (Returned listing, w) ∧
       listing ≡ₚ
         (λ d, (Document.id d, Document.filename d, Document.document_type d,
                Document.page_count d, Document.chunk_count d, Document.created_at d))
           <$> filter (λ d, Document.knowledge_base_id d = knowledge_base_id)
                 (documents (store w)) ∧
       StronglySorted (λ a b, snd b ≤ snd a) listing).
Proof.
  intros Hr Hl. split_and!.
  - eexists. split; [by apply get_conversations_rows|]. split.
    + apply merge_sort_Permutation.
    + apply (StronglySorted_merge_sort last_updated_desc).
  - intros c. eexists. split; [by apply get_messages_rows|]. split.
    + by rewrite merge_sort_Permutation.
    + apply StronglySorted_fmap with (R1 := created_at_asc); [done|].
      apply (StronglySorted_merge_sort _).
  - eexists. split; [by apply get_knowledge_bases_rows|]. split.
    + apply merge_sort_Permutation.
    + apply (StronglySorted_merge_sort kb_created_at_desc).
  - intros k. eexists. split; [by apply get_documents_rows|]. split.
    + by rewrite merge_sort_Permutation.
    + apply StronglySorted_fmap with (R1 := doc_created_at_desc); [done|].
      apply (StronglySorted_merge_sort _).
Qed.

(** ** Conversations and their messages *)

Lemma create_conversation_effect l title w :
  match create_conversation l title w with
  | (Returned id, w') =>
      id = conversations_id_seq (counters w) ∧
      (id ∉ Conversation.id <$> conversations (store w)) ∧
      store w' =
        set_conversations
          (conversations (store w) ++ [Conversation.Row id title (clock l) (clock l)])
          (store w) ∧
      conversations_id_seq (counters w') = id + 1
  | (Raised e, w') => store w' = store w
  end.
Proof.
  unfold create_conversation, INSERT_conversation. unfold_io.
  run_cases; simpl; split_and?; done.
Qed.

Lemma create_conversation_steady l title w :
  steady l → consistent w → has_nul title = false →
  ∃ w',
    create_conversation l title w =
      (Returned (conversations_id_seq (counters w)), w') ∧
    store w' =
      set_conversations
        (conversations (store w) ++
           [Conversation.Row (conversations_id_seq (counters w)) title
              (clock l) (clock l)])
        (store w) ∧
    log w' = log w.
Proof.
  intros [Hr Hl] Hw Hnul. eexists.
  unfold create_conversation, INSERT_conversation. unfold_io.
  rewrite Hr. simpl. rewrite Hnul.
  rewrite decide_False by (apply fresh_not_elem_of; by destruct Hw).
  simpl. rewrite !Hl. done.
Qed.

Lemma add_message_steady l conversation_id role content w :
  steady l → consistent w →
  conversation_id ∈ Conversation.id <$> conversations (store w) →
  has_nul role = false → has_nul content = false → int4 conversation_id = true →
  ∃ w',
    add_message l conversation_id role content w =
      (Returned (messages_id_seq (counters w)), w') ∧
    messages (store w') =
      messages (store w) ++
        [Message.Row (messages_id_seq (counters w)) conversation_id role content
           (clock l)] ∧
    conversations (store w') =
      touch (clock l) conversation_id <$> conversations (store w) ∧
    log w' = log w.
Proof.
  intros [Hr Hl] Hw Hc Hrole Hcontent Hint. eexists.
  unfold add_message, INSERT_message, UPDATE_last_updated. unfold_io.
  rewrite Hr. simpl. rewrite Hrole, Hcontent, Hint. simpl.
  rewrite decide_False by (apply fresh_not_elem_of; by destruct Hw).
  rewrite decide_True by done.
  simpl. rewrite ?Hl. simpl. rewrite ?Hl. done.
Qed.

(** A message that cannot be sent, or whose conversation id is outside the
    range of INTEGER: nothing is stored, and the error is logged and raised
    again. *)
Lemma add_message_refused l conversation_id role content w :
  steady l →
  has_nul role || has_nul content || negb (int4 conversation_id) = true →
  ∃ e,
    add_message l conversation_id role content w =
      (Raised e,
       World (store w) (counters w) (log w ++ [ERROR "Error adding message" e])) ∧
    e = (if has_nul role || has_nul content then ValueError else DataError).
Proof.
  intros [Hr Hl] Hbad. eexists. split; [|reflexivity].
  unfold add_message, INSERT_message. unfold_io.
  rewrite Hr. simpl.
  destruct (has_nul role || has_nul content); simpl in *; [done|].
  destruct (int4 conversation_id); [done|]. simpl. rewrite !Hl. simpl.
  by rewrite ?Hl.
Qed.

(** X2. [create_conversation] is one transaction.  When it returns, the id
    it returns was the key of no conversation and exactly one row has been
    committed: that id, the title, and the time of the transaction as both
    [created_at] and [last_updated]; the other rows and tables are as they
    were.  When it raises, the committed tables are those found at the
    call. *)
Theorem create_conversation_atomic l title w :
  match create_conversation l title w with
  | (Returned id, w') =>
      (id ∉ Conversation.id <$> conversations (store w)) ∧
      store w' =
        set_conversations
          (conversations (store w) ++ [Conversation.Row id title (clock l) (clock l)])
          (store w)
  | (Raised e, w') => store w' = store w
  end.
Proof.
  pose proof (create_conversation_effect l title w) as H.
  destruct (create_conversation l title w) as [[id|e] w']; [|done].
  by destruct H as (_ & ? & ? & _).
Qed.

(** X3. A conversation created over a link that does not fail, on a
    consistent store and with a title that can be sent (a [str] with a NUL
    character cannot), is listed by [get_conversations] with its id, its
    title and its creation time: the listing is the former one with that
    triple added.  When the conversation is created later than every update
    of the stored ones, it is listed first. *)
Theorem create_conversation_listed l l' title w :
  steady l → consistent w → reachable l' = true → lost l' 0 = false →
  has_nul title = false →
  ∃ id w' before after,
    create_conversation l title w = (Returned id, w') ∧
    get_conversations l' w = (Returned before, w) ∧
    get_conversations l' w' = (Returned after, w') ∧
    after ≡ₚ (id, title, clock l) :: before ∧
    (Forall (λ c, Conversation.last_updated c < clock l) (conversations (store w)) →
     head after = Some (id, title, clock l)).
Proof.
  intros Hl Hw Hr' Hl' Hnul.
  destruct (create_conversation_steady l title w Hl Hw Hnul) as (w' & E & Hs & _).
  set (id := conversations_id_seq (counters w)) in *.
  set (x := Conversation.Row id title (clock l) (clock l)) in *.
  exists id, w'. eexists. eexists.
  split; [done|].
  split; [by apply get_conversations_rows|].
  split; [by apply get_conversations_rows|].
  rewrite Hs. simpl. split.
  - rewrite !merge_sort_Permutation, fmap_app. simpl.
    by rewrite <- Permutation_cons_append.
  - intros Hold.
    assert (head (merge_sort last_updated_desc (conversations (store w) ++ [x])) =
            Some x) as Hhead.
    2: { destruct (merge_sort last_updated_desc (conversations (store w) ++ [x]));
           [done|]. by injection Hhead as ->. }
    apply (sorted_head last_updated_desc).
    + apply (StronglySorted_merge_sort _).
    + rewrite merge_sort_Permutation. apply elem_of_app. right.
      by apply list_elem_of_singleton.
    + intros y Hy. rewrite merge_sort_Permutation in Hy.
      apply elem_of_app in Hy as [Hy|Hy].
      * right. rewrite Forall_forall in Hold. specialize (Hold y Hy).
        unfold last_updated_desc. simpl in *. lia.
      * left. by apply list_elem_of_singleton in Hy.
Qed.

(** X4. [add_message] sets [last_updated] of its conversation in the
    transaction of the INSERT: after a message is added at a time later than
    every stored [last_updated], [get_conversations] lists that conversation
    first.  The message is added whenever it can be sent and the id is in
    the range of INTEGER; otherwise [add_message] raises (ValueError for a
    [str] with a NUL character, DataError for the id), stores nothing and
    logs the error. *)
Theorem add_message_moves_to_front l l' c role content w :
  steady l → consistent w → reachable l' = true → lost l' 0 = false →
  c ∈ conversations (store w) →
  Forall (λ x, Conversation.last_updated x < clock l) (conversations (store w)) →
  (has_nul role = false → has_nul content = false →
   int4 (Conversation.id c) = true →
   ∃ id w' rest,
     add_message l (Conversation.id c) role content w = (Returned id, w') ∧
     get_conversations l' w' =
       (Returned ((Conversation.id c, Conversation.title c, Conversation.created_at c)
                    :: rest), w'))
  ∧
  (has_nul role || has_nul content || negb (int4 (Conversation.id c)) = true →
   ∃ e,
     add_message l (Conversation.id c) role content w =
       (Raised e,
        World (store w) (counters w) (log w ++ [ERROR "Error adding message" e])) ∧
     e = (if has_nul role || has_nul content then ValueError else DataError)).
Proof.
  intros Hl Hw Hr' Hl' Hc Hold.
  split; [|by apply add_message_refused].
  intros Hrole Hcontent Hint.
  assert (Conversation.id c ∈ Conversation.id <$> conversations (store w)) as Hid
    by (by apply list_elem_of_fmap_2).
  destruct (add_message_steady l _ role content w Hl Hw Hid Hrole Hcontent Hint)
    as (w' & E & _ & Hs & _).
  set (x := touch (clock l) (Conversation.id c) c).
  assert (head (merge_sort last_updated_desc (conversations (store w'))) = Some x)
    as Hhead.
  { apply (sorted_head last_updated_desc).
    - apply (StronglySorted_merge_sort _).
    - rewrite merge_sort_Permutation, Hs. by apply list_elem_of_fmap_2.
    - intros y Hy. rewrite merge_sort_Permutation, Hs in Hy.
      apply list_elem_of_fmap in Hy as (c0 & -> & Hc0).
      destruct (decide (Conversation.id c0 = Conversation.id c)) as [Heq|Hne].
      + left. unfold x. f_equal.
        eapply (NoDup_fmap_inj Conversation.id); [by destruct Hw|done|done|done].
      + right. rewrite Forall_forall in Hold. specialize (Hold c0 Hc0).
        unfold last_updated_desc, x, touch.
        repeat destruct (decide _); simpl in *; try done; lia. }
  destruct (merge_sort last_updated_desc (conversations (store w'))) as [|h t]
    eqn:Hsort; [done|].
  injection Hhead as ->.
  exists (messages_id_seq (counters w)), w',
    ((λ c, (Conversation.id c, Conversation.title c, Conversation.created_at c))
       <$> t).
  split; [done|].
  rewrite (get_conversations_rows l' w' Hr' Hl'), Hsort, fmap_cons.
  unfold x, touch. by rewrite decide_True by done.
Qed.

(** X5. A message added to a conversation at a time later than the
    conversation's stored messages is returned last by [get_messages], with
    the id that [add_message] returned, its role, its content and that time;
    the messages before it are those listed before the call, and the
    listings of the other conversations are unchanged.  The message is added
    whenever it can be sent and the id is in the range of INTEGER; otherwise
    [add_message] raises (ValueError for a [str] with a NUL character,
    DataError for the id), stores nothing and logs the error. *)
Theorem add_message_listed l l' conversation_id role content w :
  steady l → consistent w → reachable l' = true → lost l' 0 = false →
  conversation_id ∈ Conversation.id <$> conversations (store w) →
  Forall (λ m, Message.conversation_id m = conversation_id →
               Message.created_at m < clock l) (messages (store w)) →
  (has_nul role = false → has_nul content = false → int4 conversation_id = true →
   ∃ id w' before earlier,
     add_message l conversation_id role content w = (Returned id, w') ∧
     get_messages l' conversation_id w = (Returned before, w) ∧
     get_messages l' conversation_id w' =
       (Returned (earlier ++ [(id, role, content, clock l)]), w') ∧
     earlier ≡ₚ before ∧
     ∀ other, other ≠ conversation_id →
       (get_messages l' other w').1 = (get_messages l' other w).1)
  ∧
  (has_nul role || has_nul content || negb (int4 conversation_id) = true →
   ∃ e,
     add_message l conversation_id role content w =
       (Raised e,
        World (store w) (counters w) (log w ++ [ERROR "Error adding message" e])) ∧
     e = (if has_nul role || has_nul content then ValueError else DataError)).
Proof.
  intros Hl Hw Hr' Hl' Hc Hold.
  split; [|by apply add_message_refused].
  intros Hrole Hcontent Hint.
  destruct (add_message_steady l _ role content w Hl Hw Hc Hrole Hcontent Hint)
    as (w' & E & Hs & _ & _).
  set (id := messages_id_seq (counters w)) in *.
  set (x := Message.Row id conversation_id role content (clock l)) in *.
  set (M := filter (λ m, Message.conversation_id m = conversation_id)
              (messages (store w))).
  assert (filter (λ m, Message.conversation_id m = conversation_id)
            (messages (store w')) = M ++ [x]) as HM.
  { rewrite Hs, filter_app. f_equal. rewrite filter_cons, decide_True by done. done. }
  destruct (sorted_last created_at_asc (merge_sort created_at_asc (M ++ [x])) x)
    as [rows Hrows].
  { apply (StronglySorted_merge_sort _). }
  { rewrite merge_sort_Permutation. apply elem_of_app. right.
    by apply list_elem_of_singleton. }
  { intros y Hy. rewrite merge_sort_Permutation in Hy.
    apply elem_of_app in Hy as [Hy|Hy].
    - right. apply list_elem_of_filter in Hy as [Hcid Hy].
      rewrite Forall_forall in Hold. specialize (Hold y Hy Hcid).
      unfold created_at_asc. simpl. lia.
    - left. by apply list_elem_of_singleton in Hy. }
  exists id, w'. eexists.
  exists ((λ m, (Message.id m, Message.role m, Message.content m,
                 Message.created_at m)) <$> rows).
  split; [done|].
  split; [by apply get_messages_rows|].
  split; [|split].
  - rewrite (get_messages_rows l' conversation_id w' Hr' Hl'), HM, Hrows.
    by rewrite fmap_app.
  - apply fmap_Permutation. rewrite merge_sort_Permutation. fold M.
    apply (Permutation_app_inv_r [x]). rewrite <- Hrows.
    apply merge_sort_Permutation.
  - intros other Hne. rewrite !get_messages_rows by done. simpl.
    rewrite Hs, filter_app, filter_cons, decide_False by (simpl; congruence).
    by rewrite filter_nil, app_nil_r.
Qed.

(** ** Sorting commutes with a change that the order does not see *)

Section MergeSortFmap.
Context {A : Type} (R : relation A) `{!∀ x y, Decision (R x y)} (f : A → A).
Hypothesis R_f : ∀ x y, R (f x) (f y) ↔ R x y.
Implicit Types (l : list A) (st : list (option (list A))).

Lemma list_merge_fmap l1 l2 :
  list_merge R (f <$> l1) (f <$> l2) = f <$> list_merge R l1 l2.
Proof using R_f.
  revert l2. induction l1 as [|x1 l1 IH1]; intros l2.
  { by rewrite fmap_nil, !list_merge_nil_l. }
  induction l2 as [|x2 l2 IH2].
  { by rewrite fmap_nil, !list_merge_nil_r. }
  rewrite !fmap_cons, !list_merge_cons.
  destruct (decide (R (f x1) (f x2))) as [H1|H1], (decide (R x1 x2)) as [H2|H2].
  - rewrite fmap_cons. f_equal. rewrite <- IH1. by rewrite fmap_cons.
  - destruct H2. by apply R_f.
  - destruct H1. by apply R_f.
  - rewrite fmap_cons. f_equal. rewrite <- IH2. by rewrite fmap_cons.
Qed.

Lemma merge_list_to_stack_fmap st l :
  merge_list_to_stack R (fmap (M:=list) (fmap (M:=option) (fmap (M:=list) f)) st) (f <$> l) =
    fmap (M:=list) (fmap (M:=option) (fmap (M:=list) f)) (merge_list_to_stack R st l).
Proof using R_f.
  revert l. induction st as [|[l'|] st IH]; intros l; try done.
  rewrite !fmap_cons. cbn [merge_list_to_stack fmap option_fmap option_map].
  by rewrite list_merge_fmap, IH.
Qed.

Lemma merge_stack_fmap st :
  merge_stack R (fmap (M:=list) (fmap (M:=option) (fmap (M:=list) f)) st) = f <$> merge_stack R st.
Proof using R_f.
  induction st as [|[l'|] st IH]; try done.
  rewrite !fmap_cons. cbn [merge_stack fmap option_fmap option_map].
  by rewrite IH, list_merge_fmap.
Qed.

Lemma merge_sort_aux_fmap st l :
  merge_sort_aux R (fmap (M:=list) (fmap (M:=option) (fmap (M:=list) f)) st) (f <$> l) =
    f <$> merge_sort_aux R st l.
Proof using R_f.
  revert st. induction l as [|x l IH]; intros st.
  - apply merge_stack_fmap.
  - rewrite fmap_cons. cbn [merge_sort_aux]. rewrite <- IH. f_equal.
    by rewrite <- (merge_list_to_stack_fmap st [x]).
Qed.

Lemma merge_sort_fmap l : merge_sort R (f <$> l) = f <$> merge_sort R l.
Proof using R_f. apply (merge_sort_aux_fmap []). Qed.
End MergeSortFmap.

Lemma fmap_id_on {A} (f : A → A) (l : list A) :
  (∀ x, x ∈ l → f x = x) → f <$> l = l.
Proof.
  induction l as [|a l IH]; intros Hf; [done|].
  rewrite fmap_cons, Hf, IH; [done| |by left].
  intros x Hx. apply Hf. by right.
Qed.

Lemma filter_every {A} (P : A → Prop) `{!∀ x, Decision (P x)} (l : list A) :
  (∀ x, x ∈ l → P x) → filter P l = l.
Proof.
  induction l as [|a l IH]; intros Hl; [done|].
  rewrite filter_cons, decide_True by (apply Hl; by left).
  f_equal. apply IH. intros x Hx. apply Hl. by right.
Qed.

(** ** [update_conversation_title] *)

Lemma update_conversation_title_effect l conversation_id new_title w :
  match update_conversation_title l conversation_id new_title w with
  | (Returned _, w') =>
      store w' =
        set_conversations
          (retitle new_title conversation_id <$> conversations (store w)) (store w)
  | (Raised e, w') => store w' = store w
  end.
Proof.
  unfold update_conversation_title, UPDATE_title. unfold_io.
  run_cases; simpl; done.
Qed.

Lemma retitle_missing new_title conversation_id t :
  conversation_id ∉ Conversation.id <$> conversations t →
  set_conversations (retitle new_title conversation_id <$> conversations t) t = t.
Proof.
  intros Hc. rewrite fmap_id_on; [by destruct t|].
  intros c Hin. unfold retitle. rewrite decide_False; [done|].
  intros <-. apply Hc. by apply list_elem_of_fmap_2.
Qed.

(** Over a link that does not fail, a title that can be sent is written
    whatever the id: the UPDATE of no row is not an error. *)
Lemma update_conversation_title_steady l conversation_id new_title w :
  steady l → has_nul new_title = false →
  update_conversation_title l conversation_id new_title w =
    (Returned (),
     World
       (set_conversations
          (retitle new_title conversation_id <$> conversations (store w)) (store w))
       (counters w) (log w)).
Proof.
  intros [Hr Hl] Hnul. unfold update_conversation_title, UPDATE_title. unfold_io.
  rewrite Hr, Hnul. simpl. rewrite !Hl. simpl. by rewrite ?Hl.
Qed.

(** X6. [update_conversation_title] changes the title and nothing else.
    When it returns, the conversations of that id carry the new title, every
    other column, row and table is as it was, and [get_conversations]
    returns the former listing in the same order ([last_updated] is not
    touched) with the new title in the triples of that id.  When the call
    raises, the committed tables are those found at the call.  An id that no
    conversation has is not an error: over a link that does not fail the
    call returns for every id (the title being one that can be sent, without
    a NUL character), nothing is logged and no key is drawn, and for an id
    that no conversation has the world is left as it was. *)
Theorem update_conversation_title_renames l l' conversation_id new_title w :
  reachable l' = true → lost l' 0 = false →
  match update_conversation_title l conversation_id new_title w with
  | (Returned _, w') =>
      store w' =
        set_conversations
          (retitle new_title conversation_id <$> conversations (store w)) (store w) ∧
      (conversation_id ∉ Conversation.id <$> conversations (store w) →
       store w' = store w) ∧
      ∃ before,
        get_conversations l' w = (Returned before, w) ∧
        get_conversations l' w' =
          (Returned (retitled new_title conversation_id <$> before), w')
  | (Raised e, w') => store w' = store w
  end ∧
  (steady l → has_nul new_title = false →
   ∃ w',
     update_conversation_title l conversation_id new_title w = (Returned (), w') ∧
     counters w' = counters w ∧ log w' = log w ∧
     (conversation_id ∉ Conversation.id <$> conversations (store w) → w' = w)).
Proof.
  intros Hr' Hl'. split; cycle 1.
  { intros Hl Hnul.
    rewrite (update_conversation_title_steady l conversation_id new_title w Hl Hnul).
    eexists. split; [done|]. split; [done|]. split; [done|].
    intros Hc. rewrite retitle_missing by done. by destruct w. }
  pose proof (update_conversation_title_effect l conversation_id new_title w) as H.
  destruct (update_conversation_title l conversation_id new_title w) as [[[]|e] w'];
    [|done].
  split; [done|]. split.
  - intros Hc. rewrite H. rewrite fmap_id_on; [by destruct (store w)|].
    intros c Hin. unfold retitle. rewrite decide_False; [done|].
    intros <-. apply Hc. by apply list_elem_of_fmap_2.
  - eexists. split; [by apply get_conversations_rows|].
    rewrite (get_conversations_rows l' w' Hr' Hl'), H. simpl.
    rewrite (merge_sort_fmap last_updated_desc).
    + rewrite <- !list_fmap_compose. do 2 f_equal.
      apply list_fmap_ext. intros _ c _. unfold retitle, retitled. simpl.
      by destruct (decide _).
    + intros x y. unfold last_updated_desc, retitle.
      by repeat destruct (decide _).
Qed.

(** ** [delete_conversation], again *)

Lemma delete_conversation_effect l conversation_id w :
  consistent w →
  match delete_conversation l conversation_id w with
  | (Returned _, w') =>
      conversations (store w') =
        filter (λ c, Conversation.id c ≠ conversation_id) (conversations (store w)) ∧
      messages (store w') =
        filter (λ m, Message.conversation_id m ≠ conversation_id)
          (messages (store w)) ∧
      sources (store w') =
        filter (λ s, Source.message_id s ∉
                       Message.id <$>
                         filter (λ m, Message.conversation_id m = conversation_id)
                           (messages (store w)))
          (sources (store w))
  | (Raised e, w') => store w' = store w
  end.
Proof.
  intros Hw.
  unfold delete_conversation, DELETE_conversation. unfold_io.
  run_cases; try done.
  assert (filter
            (λ m, Message.conversation_id m ∉
                    Conversation.id <$>
                      filter (λ c, Conversation.id c = conversation_id)
                        (conversations (store w)))
            (messages (store w)) =
          filter (λ m, Message.conversation_id m ≠ conversation_id)
            (messages (store w))) as Hmsgs.
  { apply filter_ext_elem_of. intros m Hm.
    by rewrite (cascade_messages _ _ _ _ Hw Hm). }
  assert (filter
            (λ m, Message.conversation_id m ∈
                    Conversation.id <$>
                      filter (λ c, Conversation.id c = conversation_id)
                        (conversations (store w)))
            (messages (store w)) =
          filter (λ m, Message.conversation_id m = conversation_id)
            (messages (store w))) as Hdead.
  { apply filter_ext_elem_of. intros m Hm. by apply (cascade_messages _ _ _ _ Hw). }
  by rewrite Hmsgs, Hdead.
Qed.

Lemma delete_conversation_absent l conversation_id w :
  steady l →
  conversation_id ∉ Conversation.id <$> conversations (store w) →
  delete_conversation l conversation_id w = (Returned (), w).
Proof.
  intros [Hr Hl] Hc.
  assert (filter (λ c, Conversation.id c = conversation_id) (conversations (store w))
          = []) as Hnone.
  { apply filter_none. intros c Hin Hid. apply Hc. rewrite <- Hid.
    by apply list_elem_of_fmap_2. }
  unfold delete_conversation, DELETE_conversation. unfold_io.
  rewrite Hr. simpl. rewrite !Hl, Hnone. simpl.
  rewrite (filter_none (λ m, Message.conversation_id m ∈ []))
    by (intros m _; apply not_elem_of_nil).
  simpl. rewrite !filter_every.
  - by destruct w as [[] ? ?].
  - intros s _. apply not_elem_of_nil.
  - intros m _. apply not_elem_of_nil.
  - intros c Hin Hid. apply Hc. rewrite <- Hid. by apply list_elem_of_fmap_2.
Qed.

(** X7. Over links that do not fail [delete_conversation] returns whether
    or not the conversation exists.  Deleting a conversation that does not
    exist changes nothing (tables, sequences and log), so a second deletion
    of the same id is a no-op. *)
Theorem delete_conversation_idempotent l1 l2 conversation_id w :
  steady l1 → steady l2 →
  ∃ w1,
    delete_conversation l1 conversation_id w = (Returned (), w1) ∧
    delete_conversation l2 conversation_id w1 = (Returned (), w1) ∧
    (conversation_id ∉ Conversation.id <$> conversations (store w) → w1 = w).
Proof.
  intros Hl1 Hl2.
  destruct (delete_conversation l1 conversation_id w) as [r w1] eqn:E.
  assert (r = Returned () ∧
          conversations (store w1) =
            filter (λ c, Conversation.id c ≠ conversation_id) (conversations (store w)))
    as [-> Hc].
  { revert E. destruct Hl1 as [Hr Hl].
    unfold delete_conversation, DELETE_conversation. unfold_io.
    rewrite Hr. simpl. rewrite !Hl. simpl. by intros [= <- <-]. }
  exists w1. split; [done|]. split.
  - apply delete_conversation_absent; [done|]. rewrite Hc.
    intros Hin. apply list_elem_of_fmap in Hin as (c & Hid & Hin).
    by apply list_elem_of_filter in Hin as [Hne _].
  - intros Habs. rewrite delete_conversation_absent in E by done. congruence.
Qed.

(** X8. On a consistent store, after [delete_conversation(c)] returns,
    [get_messages(c)] is empty and [get_sources] is empty for every former
    message of [c], while [get_messages] of every other conversation and
    [get_sources] of every message of another conversation return what they
    returned before. *)
Theorem delete_conversation_isolated l l' conversation_id w :
  consistent w → reachable l' = true → lost l' 0 = false →
  match delete_conversation l conversation_id w with
  | (Returned _, w') =>
      (get_messages l' conversation_id w').1 = Returned [] ∧
      (∀ other, other ≠ conversation_id →
         (get_messages l' other w').1 = (get_messages l' other w).1) ∧
      (∀ m, m ∈ messages (store w) →
         (get_sources l' (Message.id m) w').1 =
           if decide (Message.conversation_id m = conversation_id)
           then Returned []
           else (get_sources l' (Message.id m) w).1)
  | (Raised e, w') => store w' = store w
  end.
Proof.
  intros Hw Hr' Hl'.
  pose proof (delete_conversation_effect l conversation_id w Hw) as H.
  destruct (delete_conversation l conversation_id w) as [[[]|e] w']; [|done].
  destruct H as (_ & Hm & Hs). split_and!.
  - rewrite get_messages_rows by done. simpl. rewrite Hm.
    rewrite (filter_none _ (filter _ _)); [done|].
    intros m Hin. by apply list_elem_of_filter in Hin as [Hne _].
  - intros other Hne. rewrite !get_messages_rows by done. simpl. rewrite Hm.
    do 3 f_equal. rewrite list_filter_filter.
    apply filter_ext_elem_of. intros m _. split; [tauto|]. intros <-. done.
  - intros m Hin. rewrite !get_sources_rows by done. simpl. rewrite Hs.
    destruct (decide (Message.conversation_id m = conversation_id)) as [Heq|Hne].
    + rewrite (filter_none _ (filter _ _)); [done|].
      intros s Hin' Hmid. apply list_elem_of_filter in Hin' as [Hout _].
      apply Hout. rewrite Hmid. apply list_elem_of_fmap_2.
      apply list_elem_of_filter. by split.
    + do 3 f_equal. rewrite list_filter_filter.
      apply filter_ext_elem_of. intros s _. split; [tauto|].
      intros Hmid. split; [done|]. rewrite Hmid.
      intros Hdead. apply list_elem_of_fmap in Hdead as (m' & Hid & Hin').
      apply list_elem_of_filter in Hin' as [Hcid Hin'].
      assert (m = m') as <-; [|done].
      eapply (NoDup_fmap_inj Message.id); [by destruct Hw|done|done|done].
Qed.

(** ** Knowledge bases and their documents *)

Lemma documents_are_advanced D t q q' :
  advanced q q' → documents_are D t q → documents_are D t q'.
Proof. done. Qed.

(** Only [INSERT INTO documents] writes to [documents]. *)
Ltac leaves_documents :=
  intros now t q; unfold documents_are; cbv beta delta
    [INSERT_conversation INSERT_message UPDATE_last_updated UPDATE_title
     DELETE_conversation INSERT_source INSERT_knowledge_base
     UPDATE_document_count UPSERT_setting];
  repeat (simpl;
    match goal with
    | |- context [decide ?P] => destruct (decide P)
    | |- context [if ?b then _ else _] => destruct b
    | |- context [match ?x with _ => _ end] => destruct x
    end);
  simpl; (split; [advance | done]).

Lemma INSERT_conversation_documents D title :
  statement_keeps (documents_are D) (INSERT_conversation title).
Proof. leaves_documents. Qed.

Lemma INSERT_message_documents D conversation_id role content :
  statement_keeps (documents_are D) (INSERT_message conversation_id role content).
Proof. leaves_documents. Qed.

Lemma UPDATE_last_updated_documents D conversation_id :
  statement_keeps (documents_are D) (UPDATE_last_updated conversation_id).
Proof. leaves_documents. Qed.

Lemma UPDATE_title_documents D new_title conversation_id :
  statement_keeps (documents_are D) (UPDATE_title new_title conversation_id).
Proof. leaves_documents. Qed.

Lemma DELETE_conversation_documents D conversation_id :
  statement_keeps (documents_are D) (DELETE_conversation conversation_id).
Proof. leaves_documents. Qed.

Lemma INSERT_source_documents D rt message_id source_document page_number score kb_name :
  statement_keeps (documents_are D)
    (INSERT_source rt message_id source_document page_number score kb_name).
Proof. leaves_documents. Qed.

Lemma INSERT_knowledge_base_documents D name description embedding_model
    chunking_strategy :
  statement_keeps (documents_are D)
    (INSERT_knowledge_base name description embedding_model chunking_strategy).
Proof. leaves_documents. Qed.

Lemma UPDATE_document_count_documents D knowledge_base_id :
  statement_keeps (documents_are D) (UPDATE_document_count knowledge_base_id).
Proof. leaves_documents. Qed.

Lemma UPSERT_setting_documents D key value :
  statement_keeps (documents_are D) (UPSERT_setting key value).
Proof. leaves_documents. Qed.

Lemma SELECT_knowledge_base_documents D name :
  statement_keeps (documents_are D) (SELECT_knowledge_base name).
Proof.
  destruct name; simpl; try apply query_keeps.
  all: intros now t q; split; [apply advanced_refl|done].
Qed.

#[local] Hint Resolve INSERT_conversation_documents INSERT_message_documents
  UPDATE_last_updated_documents UPDATE_title_documents
  DELETE_conversation_documents INSERT_source_documents
  INSERT_knowledge_base_documents UPDATE_document_count_documents
  UPSERT_setting_documents SELECT_knowledge_base_documents : frame.

Lemma connected_leaves_documents {A} l (body : io A) w :
  keeps (documents_are (documents (store w))) body →
  documents (store (connected l body w).2) = documents (store w).
Proof. intros Hb. by apply (keeps_connected (documents_are _)). Qed.

(** No call other than [register_document] changes a row of [documents]. *)
Lemma run_leaves_documents rt c w :
  writes_documents c = false →
  documents (store (run rt c w).2) = documents (store w).
Proof.
  pose proof (documents_are_advanced (documents (store w))) as Hadv.
  destruct c as [l|l|l title|l cid|l cid role content|l mid srcs|l mid|l cid title
                |l cid|l name em cs d|l|l k f dt pc cc|l k|l key dflt|l key v
                |l1 l2|l v]; try discriminate; intros _; simpl;
    unfold init_database, get_conversations, create_conversation, get_messages,
      add_message, get_sources, update_conversation_title, delete_conversation,
      register_knowledge_base, get_knowledge_bases, get_documents, get_setting,
      set_active_knowledge_base, set_setting;
    try (apply connected_leaves_documents; solve [keeps_steps]).
  - unfold add_sources. destruct srcs; [done|].
    apply connected_leaves_documents. unfold add_source. keeps_steps.
  - unfold get_active_knowledge_base, get_setting, mbind, program_bind.
    match goal with
    | |- context [connected l1 ?body w] =>
        pose proof (connected_leaves_documents l1 body w) as H1;
        destruct (connected l1 body w) as [[v|e] w1]
    end; simpl in *.
    + rewrite <- H1 by keeps_steps.
      destruct (negb (truthy v)); [done|].
      apply connected_leaves_documents.
      pose proof (documents_are_advanced (documents (store w1))).
      keeps_steps.
    + apply H1. keeps_steps.
Qed.

(** Under the foreign key of [documents], a key that no knowledge base has
    is the key of no document's knowledge base. *)
Lemma documents_of_fresh t q i :
  coherent t q →
  i ∉ KnowledgeBase.id <$> knowledge_bases t →
  documents_of i t = [].
Proof.
  intros Ht Hi. apply filter_none. intros d Hd Heq. apply Hi. rewrite <- Heq.
  pose proof (documents_knowledge_base_id_fkey _ _ Ht) as Hfk.
  rewrite Forall_forall in Hfk. by apply Hfk.
Qed.

Lemma tallied_run rt c w :
  consistent w → tallied (store w) → tallied (store (run rt c w).2).
Proof.
  intros Hw Ht. unfold tallied, documents_of in *.
  destruct (writes_documents c) eqn:Hdocs.
  - destruct c as [| | | | | | | | | | |l kid f dt pc cc| | | | |];
      try discriminate; simpl.
    pose proof (register_document_atomic l kid f dt pc cc w) as Hdoc.
    destruct (register_document l kid f dt pc cc w) as [[i|e] w'] eqn:E; simpl.
    + destruct Hdoc as (_ & HD & HK & _). rewrite HD, HK.
      apply Forall_fmap. eapply Forall_impl; [exact Ht|].
      intros k Hk. simpl in *.
      rewrite count_document_id, filter_app, length_app, filter_cons, filter_nil.
      unfold count_document. simpl.
      destruct (decide (KnowledgeBase.id k = kid)) as [Heq|Hne].
      * rewrite decide_True by done. simpl. lia.
      * rewrite decide_False by done. simpl. lia.
    + by rewrite Hdoc.
  - rewrite (run_leaves_documents rt c w Hdocs).
    destruct (writes_knowledge_bases c) eqn:Hkbs.
    + destruct c as [| | | | | | | | |l name em cs d| |l kid f dt pc cc| | | | |];
        try discriminate; simpl.
      destruct (register_knowledge_base_appends l name em cs d w)
        as [HK|(k & HK & Hk0 & Hkid)]; simpl in *; rewrite HK; [done|].
      apply Forall_app. split; [done|]. constructor; [|done].
      rewrite Hk0. fold (documents_of (KnowledgeBase.id k) (store w)).
      by rewrite (documents_of_fresh _ _ _ Hw Hkid).
    + by rewrite (run_leaves_knowledge_bases rt c w Hkbs).
Qed.

Lemma tallied_replay rt cs w :
  consistent w → tallied (store w) → tallied (store (replay rt cs w).2).
Proof.
  revert w. induction cs as [|c cs IH]; intros w Hw Ht; simpl; [done|].
  pose proof (run_consistent rt c w Hw) as Hw'.
  pose proof (tallied_run rt c w Hw Ht) as Ht'.
  destruct (run rt c w) as [ok w']. simpl in *.
  specialize (IH w' Hw' Ht'). by destruct (replay rt cs w') as [h w''].
Qed.

(** X9. After any sequence of calls on the empty store, whatever their
    links do, the [document_count] of every knowledge base is the number of
    documents that [get_documents] lists for it. *)
Theorem document_count_is_listing rt cs l k :
  reachable l = true → lost l 0 = false →
  k ∈ knowledge_bases (store (replay rt cs initial).2) →
  ∃ listing,
    get_documents l (KnowledgeBase.id k) (replay rt cs initial).2 =
      (Returned listing, (replay rt cs initial).2) ∧
    Z.of_nat (length listing) = KnowledgeBase.document_count k.
Proof.
  intros Hr Hl Hk. eexists. split; [by apply get_documents_rows|].
  assert (tallied (store (replay rt cs initial).2)) as Ht.
  { apply tallied_replay; [apply initial_consistent|constructor]. }
  unfold tallied in Ht. rewrite Forall_forall in Ht. rewrite (Ht k Hk).
  by rewrite length_fmap, merge_sort_Permutation.
Qed.

(** X10. When [register_document] returns, [get_documents] of its knowledge
    base lists the document (the returned id, the file name, the type, the
    page and chunk counts and the time of the transaction) in addition to
    the former listing, and the listings of the other knowledge bases are
    unchanged; when it raises, every listing is unchanged. *)
Theorem register_document_listed l l' knowledge_base_id filename document_type
    page_count chunk_count w :
  reachable l' = true → lost l' 0 = false →
  match register_document l knowledge_base_id filename document_type
          page_count chunk_count w with
  | (Returned id, w') =>
      ∃ before after,
        get_documents l' knowledge_base_id w = (Returned before, w) ∧
        get_documents l' knowledge_base_id w' = (Returned after, w') ∧
        after ≡ₚ
          (id, filename, document_type, page_count, chunk_count, clock l) :: before ∧
        ∀ other, other ≠ knowledge_base_id →
          (get_documents l' other w').1 = (get_documents l' other w).1
  | (Raised e, w') =>
      ∀ other, (get_documents l' other w').1 = (get_documents l' other w).1
  end.
Proof.
  intros Hr' Hl'.
  pose proof (register_document_atomic l knowledge_base_id filename document_type
                page_count chunk_count w) as H.
  destruct (register_document l knowledge_base_id filename document_type
              page_count chunk_count w) as [[id|e] w'].
  - destruct H as (_ & HD & _). eexists. eexists.
    split; [by apply get_documents_rows|].
    split; [by apply get_documents_rows|]. split.
    + rewrite HD, filter_app, filter_cons, decide_True, filter_nil by done.
      rewrite !merge_sort_Permutation, fmap_app. simpl.
      by rewrite <- Permutation_cons_append.
    + intros other Hne. rewrite !get_documents_rows by done. simpl.
      rewrite HD, filter_app, filter_cons, decide_False by (simpl; congruence).
      by rewrite filter_nil, app_nil_r.
  - intros other. rewrite !get_documents_rows by done. simpl. by rewrite H.
Qed.

(** X11. A knowledge base registered under a new name, over a link that
    does not fail, on a consistent store and with arguments that can be sent
    (a [str] with a NUL character cannot), is listed by
    [get_knowledge_bases] with the returned id, the arguments, the time of
    the transaction and a [document_count] of 0, in addition to the former
    listing; [get_documents] of the new id is empty. *)
Theorem register_knowledge_base_listed l l' name em cs d w :
  steady l → consistent w → reachable l' = true → lost l' 0 = false →
  name ∉ KnowledgeBase.name <$> knowledge_bases (store w) →
  has_nul name = false → has_nul em = false → has_nul cs = false →
  opt_has_nul d = false →
  ∃ id w' before after,
    register_knowledge_base l (Some name) (Some em) (Some cs) d w =
      (Returned (Some id), w') ∧
    get_knowledge_bases l' w = (Returned before, w) ∧
    get_knowledge_bases l' w' = (Returned after, w') ∧
    after ≡ₚ KnowledgeBase.Row id name d (clock l) 0 em cs :: before ∧
    get_documents l' id w' = (Returned [], w').
Proof.
  intros Hl Hw Hr' Hl' Hname Hn Hem Hcs Hd.
  pose proof (register_knowledge_base_new l name em cs d w Hl Hw Hname
                Hn Hem Hcs Hd) as E.
  eexists. eexists. eexists. eexists.
  split; [exact E|].
  split; [by apply get_knowledge_bases_rows|].
  split; [by apply get_knowledge_bases_rows|]. split.
  - simpl. rewrite !merge_sort_Permutation. by rewrite <- Permutation_cons_append.
  - rewrite get_documents_rows by done. simpl.
    fold (documents_of (knowledge_bases_id_seq (counters w)) (store w)).
    rewrite (documents_of_fresh _ _ _ Hw); [done|].
    apply fresh_not_elem_of. by destruct Hw.
Qed.

(** ** References to rows that do not exist *)

Lemma add_source_orphan rt message_id source l s :
  (∀ n, lost l n = false) → closed s = false →
  message_id ∉ Message.id <$> messages (working s) →
  ∃ e s',
    add_source rt message_id source l s = (Raised e, s') ∧
    closed s' = false ∧ journal s' = journal s ∧ durable s' = durable s.
Proof.
  intros Hl Hc Hm. unfold add_source, INSERT_source, cast_source. unfold_io.
  destruct (py_float rt (get source "score" (PyFloat 0.5))) as [f|[]]; simpl;
    rewrite ?Hc; simpl; try (by eexists; eexists).
  all: destruct (_ || _); simpl; rewrite ?Hl; try (by eexists; eexists).
  all: destruct (to_int4 rt (get source "page" (PyInt 0))) as [page|]; simpl;
    try (by eexists; eexists).
  all: destruct (int4 message_id); simpl; try (by eexists; eexists).
  all: destruct (real_of_float rt _) as [real|]; simpl; try (by eexists; eexists).
  all: destruct (to_text rt (get source "source" (PyStr ""))) as [doc|]; simpl;
    try (by eexists; eexists).
  all: repeat (destruct (decide _); simpl; try done; try (by eexists; eexists)).
Qed.

(** X12. The foreign keys are enforced when a row is inserted.  Over a link
    that does not fail and on a consistent store: [add_message] to a
    conversation that does not exist raises ForeignKeyViolation;
    [add_sources] with a non-empty list for a message that does not exist
    raises; [register_document] for a knowledge base that does not exist
    raises ForeignKeyViolation.  An argument that cannot be sent is refused
    first (ValueError for a [str] with a NUL character), then a number
    outside the range of INTEGER (DataError), before the reference is
    looked at.  In every case nothing is stored, and the error is logged
    once, under the function's message, before it is raised again. *)
Theorem orphans_are_refused rt l conversation_id role content message_id entry entries
    knowledge_base_id filename document_type page_count chunk_count w :
  steady l → consistent w →
  conversation_id ∉ Conversation.id <$> conversations (store w) →
  message_id ∉ Message.id <$> messages (store w) →
  knowledge_base_id ∉ KnowledgeBase.id <$> knowledge_bases (store w) →
  (∃ e,
     (add_message l conversation_id role content w).1 = Raised e ∧
     e = (if has_nul role || has_nul content then ValueError
          else if int4 conversation_id then ForeignKeyViolation
          else DataError) ∧
     store (add_message l conversation_id role content w).2 = store w ∧
     log (add_message l conversation_id role content w).2 =
       log w ++ [ERROR "Error adding message" e]) ∧
  (∃ e,
     (add_sources rt l message_id (entry :: entries) w).1 = Raised e ∧
     store (add_sources rt l message_id (entry :: entries) w).2 = store w ∧
     log (add_sources rt l message_id (entry :: entries) w).2 =
       log w ++ [ERROR "Error adding sources" e]) ∧
  (∃ e,
     (register_document l knowledge_base_id filename document_type
        page_count chunk_count w).1 = Raised e ∧
     e = (if has_nul filename || has_nul document_type then ValueError
          else if int4 knowledge_base_id && int4 page_count && int4 chunk_count
          then ForeignKeyViolation
          else DataError) ∧
     store (register_document l knowledge_base_id filename document_type
              page_count chunk_count w).2 = store w ∧
     log (register_document l knowledge_base_id filename document_type
            page_count chunk_count w).2 =
       log w ++ [ERROR "Error registering document" e]).
Proof.
  intros [Hr Hl] Hw Hc Hm Hk. split; [|split].
  - exists (if has_nul role || has_nul content then ValueError
            else if int4 conversation_id then ForeignKeyViolation
            else DataError).
    unfold add_message, INSERT_message. unfold_io. rewrite Hr. simpl.
    destruct (has_nul role || has_nul content); simpl; [done|].
    destruct (int4 conversation_id); simpl; rewrite ?Hl; [|simpl; by rewrite ?Hl].
    rewrite decide_False by (apply fresh_not_elem_of; by destruct Hw).
    rewrite decide_False by done. simpl. rewrite ?Hl. simpl. by rewrite ?Hl.
  - destruct (add_source_orphan rt message_id entry l
                (Session (store w) (store w) (counters w) 0 (log w) false false)
                Hl eq_refl Hm)
      as (e & s' & E & Hclosed & Hj & Hd).
    simpl in Hj, Hd. exists e.
    assert (add_sources rt l message_id (entry :: entries) w =
            (Raised e,
             World (durable s') (serial s')
               (journal s' ++ [ERROR "Error adding sources" e]))) as ->.
    { unfold add_sources, connected. rewrite Hr.
      unfold try_except. simpl. unfold mbind, io_bind. rewrite E.
      unfold rollback, hangup, logger_error, raise. rewrite Hclosed, Hl.
      by destruct (begun s'). }
    simpl. by rewrite Hd, Hj.
  - exists (if has_nul filename || has_nul document_type then ValueError
            else if int4 knowledge_base_id && int4 page_count && int4 chunk_count
            then ForeignKeyViolation
            else DataError).
    unfold register_document, INSERT_document. unfold_io.
    rewrite Hr. simpl.
    destruct (has_nul filename || has_nul document_type); simpl; [done|].
    destruct (int4 knowledge_base_id && int4 page_count && int4 chunk_count);
      simpl; rewrite ?Hl; [|simpl; by rewrite ?Hl].
    rewrite decide_False by (apply fresh_not_elem_of; by destruct Hw).
    rewrite decide_False by done. simpl. rewrite ?Hl. simpl. by rewrite ?Hl.
Qed.

(** ** The keys that the functions return *)

Lemma advanced_trans q1 q2 q3 : advanced q1 q2 → advanced q2 q3 → advanced q1 q3.
Proof. unfold advanced. lia. Qed.

Lemma statement_advances {A} (st : statement A) q0 :
  statement_keeps coherent st → statement_keeps (λ _ q, advanced q0 q) st.
Proof.
  intros Hst now t q. destruct (Hst now t q) as [Ha _]. split; [done|].
  intros Hq. destruct (st now t q).1; [|done..]. by eapply advanced_trans.
Qed.

(** Whatever the calls do, the sequences only move forward. *)
Lemma replay_advances rt cs w :
  advanced (counters w) (counters (replay rt cs w).2).
Proof.
  apply (replay_keeps (λ _ q, advanced (counters w) q)).
  - intros t q q' Hq Hq0. by eapply advanced_trans.
  - destruct coherent_statements as (?&?&?&?&?&?&?&?&?&?&?).
    split_and!; intros; by apply statement_advances.
  - apply advanced_refl.
Qed.

Lemma add_message_draws l conversation_id role content w :
  match add_message l conversation_id role content w with
  | (Returned id, w') =>
      id = messages_id_seq (counters w) ∧ messages_id_seq (counters w') = id + 1
  | (Raised e, w') => True
  end.
Proof.
  unfold add_message, INSERT_message, UPDATE_last_updated. unfold_io.
  run_cases; simpl; split_and?; done.
Qed.

Lemma register_document_draws l knowledge_base_id filename document_type
    page_count chunk_count w :
  match register_document l knowledge_base_id filename document_type
          page_count chunk_count w with
  | (Returned id, w') =>
      id = documents_id_seq (counters w) ∧ documents_id_seq (counters w') = id + 1
  | (Raised e, w') => True
  end.
Proof.
  unfold register_document, INSERT_document, UPDATE_document_count. unfold_io.
  destruct (int4 page_count && int4 chunk_count);
    run_cases; simpl; split_and?; done.
Qed.

(** X13. Keys are not handed out twice.  Of two calls of
    [create_conversation] that return, the later returns the greater id,
    whatever calls were made in between (deletions and rolled-back
    insertions included); the same holds of [add_message] and of
    [register_document]. *)
Theorem keys_increase rt cs :
  (∀ l1 title1 l2 title2 w,
     match create_conversation l1 title1 w with
     | (Returned id1, w1) =>
         match create_conversation l2 title2 (replay rt cs w1).2 with
         | (Returned id2, _) => id1 < id2
         | (Raised _, _) => True
         end
     | (Raised _, _) => True
     end) ∧
  (∀ l1 c1 role1 content1 l2 c2 role2 content2 w,
     match add_message l1 c1 role1 content1 w with
     | (Returned id1, w1) =>
         match add_message l2 c2 role2 content2 (replay rt cs w1).2 with
         | (Returned id2, _) => id1 < id2
         | (Raised _, _) => True
         end
     | (Raised _, _) => True
     end) ∧
  (∀ l1 k1 f1 t1 p1 n1 l2 k2 f2 t2 p2 n2 w,
     match register_document l1 k1 f1 t1 p1 n1 w with
     | (Returned id1, w1) =>
         match register_document l2 k2 f2 t2 p2 n2 (replay rt cs w1).2 with
         | (Returned id2, _) => id1 < id2
         | (Raised _, _) => True
         end
     | (Raised _, _) => True
     end).
Proof.
  split_and!.
  - intros l1 title1 l2 title2 w.
    pose proof (create_conversation_effect l1 title1 w) as H1.
    destruct (create_conversation l1 title1 w) as [[id1|e1] w1]; [|done].
    pose proof (create_conversation_effect l2 title2 (replay rt cs w1).2) as H2.
    pose proof (replay_advances rt cs w1) as Ha.
    destruct (create_conversation l2 title2 _) as [[id2|e2] w2]; [|done].
    destruct H1 as (_ & _ & _ & H1), H2 as (H2 & _). unfold advanced in Ha. lia.
  - intros l1 c1 role1 content1 l2 c2 role2 content2 w.
    pose proof (add_message_draws l1 c1 role1 content1 w) as H1.
    destruct (add_message l1 c1 role1 content1 w) as [[id1|e1] w1]; [|done].
    pose proof (add_message_draws l2 c2 role2 content2 (replay rt cs w1).2) as H2.
    pose proof (replay_advances rt cs w1) as Ha.
    destruct (add_message l2 c2 role2 content2 _) as [[id2|e2] w2]; [|done].
    destruct H1 as (_ & H1), H2 as (H2 & _). unfold advanced in Ha. lia.
  - intros l1 k1 f1 t1 p1 n1 l2 k2 f2 t2 p2 n2 w.
    pose proof (register_document_draws l1 k1 f1 t1 p1 n1 w) as H1.
    destruct (register_document l1 k1 f1 t1 p1 n1 w) as [[id1|e1] w1]; [|done].
    pose proof (register_document_draws l2 k2 f2 t2 p2 n2 (replay rt cs w1).2) as H2.
    pose proof (replay_advances rt cs w1) as Ha.
    destruct (register_document l2 k2 f2 t2 p2 n2 _) as [[id2|e2] w2]; [|done].
    destruct H1 as (_ & H1), H2 as (H2 & _). unfold advanced in Ha. lia.
Qed.

(** ** Settings, again *)

Lemma filter_fmap_fixed {A} (P : A → Prop) `{!∀ x, Decision (P x)} (f : A → A)
    (l : list A) :
  (∀ x, P (f x) ↔ P x) → (∀ x, P x → f x = x) → filter P (f <$> l) = filter P l.
Proof.
  intros HP Hf. induction l as [|a l IH]; [done|].
  rewrite fmap_cons, !filter_cons, IH.
  destruct (decide (P (f a))) as [H1|H1], (decide (P a)) as [H2|H2].
  - by rewrite Hf.
  - destruct H2. by apply HP.
  - destruct H1. by apply HP.
  - done.
Qed.

Lemma set_setting_effect rt l key value w :
  settings (store (set_setting rt l key value w).2) = settings (store w) ∨
  settings (store (set_setting rt l key value w).2) =
    overwrite key (py_str rt value) <$> settings (store w) ∨
  ∃ id,
    settings (store (set_setting rt l key value w).2) =
      settings (store w) ++ [Setting.Row id key (py_str rt value)].
Proof.
  unfold set_setting, UPSERT_setting. unfold_io.
  run_cases; simpl; eauto.
Qed.

(** X14. [set_setting(key, value)] leaves every other key alone: whatever
    its link does, [get_setting] of another key returns afterwards what it
    returned before. *)
Theorem set_setting_other_keys rt l l' key value other default w :
  key ≠ other →
  (get_setting l' other default (set_setting rt l key value w).2).1 =
    (get_setting l' other default w).1.
Proof.
  intros Hne.
  destruct (has_nul other) eqn:Hnul.
  { rewrite !(get_setting_unsent l' other default) by done.
    by destruct (reachable l'). }
  rewrite !(get_setting_reads l' other default Hnul).
  destruct (reachable l'); [|done]. destruct (lost l' 0); [done|]. simpl.
  destruct (set_setting_effect rt l key value w) as [->|[->|[id ->]]]; [done| |].
  - rewrite filter_fmap_fixed; [done| |].
    + intros s. by rewrite overwrite_key.
    + intros s Hs. unfold overwrite. rewrite decide_False; [done|congruence].
  - rewrite filter_app, filter_cons, decide_False by done.
    by rewrite filter_nil, app_nil_r.
Qed.

(** ** The active knowledge base, again *)

(** X15. After [set_active_knowledge_base(name)] with the name of a stored
    knowledge base, other than the empty string, [get_active_knowledge_base]
    returns the row of that knowledge base (links that do not fail,
    consistent store). *)
Theorem set_active_knowledge_base_selects rt l1 l2 l3 k w :
  steady l1 → steady l2 → steady l3 → consistent w →
  k ∈ knowledge_bases (store w) →
  KnowledgeBase.name k ≠ "" →
  ∃ w',
    set_active_knowledge_base rt l3 (PyStr (KnowledgeBase.name k)) w =
      (Returned (), w') ∧
    get_active_knowledge_base l1 l2 w' = (Returned (Some k), w').
Proof.
  intros Hl1 Hl2 Hl3 Hw Hk Hne.
  destruct (set_active_knowledge_base_steady rt l3 (KnowledgeBase.name k) w Hl3 Hw
              (stored_name_text _ _ _ Hw Hk))
    as (w' & E & Hw' & Hactive & HK).
  exists w'. split; [done|].
  rewrite (get_active_knowledge_base_steady l1 l2 w' Hl1 Hl2). do 2 f_equal.
  unfold resolved. rewrite Hactive, decide_False by done.
  rewrite (named_existing _ _ _ Hw'); [done|]. by rewrite HK.
Qed.

(** ** [add_sources] and [get_sources] *)


(** ** What a call that raises leaves behind *)

(** X17. No function of the module leaves a partial write behind: whenever
    a call raises, whatever the function, the error and the point of
    failure, the committed tables are those found at the call. *)
Theorem raising_calls_store_nothing rt c w :
  (run rt c w).1 = false → store (run rt c w).2 = store w.
Proof.
  destruct c as [l|l|l title|l cid|l cid role content|l mid srcs|l mid|l cid title
                |l cid|l name em cs d|l|l k f dt pc cc|l k|l key dflt|l key v
                |l1 l2|l v]; simpl.
  - unfold init_database, CREATE_TABLE_IF_NOT_EXISTS, CREATE_INDEX_IF_NOT_EXISTS,
      query, logger_info. unfold_io. run_cases; done.
  - unfold get_conversations, SELECT_conversations, query. unfold_io. run_cases; done.
  - pose proof (create_conversation_effect l title w) as H.
    by destruct (create_conversation l title w) as [[|] ?].
  - unfold get_messages, SELECT_messages, query. unfold_io. run_cases; done.
  - unfold add_message, INSERT_message, UPDATE_last_updated. unfold_io.
    run_cases; done.
  - pose proof (add_sources_atomic rt l mid srcs w) as H.
    by destruct (add_sources rt l mid srcs w) as [[|] ?].
  - unfold get_sources, SELECT_sources, query. unfold_io. run_cases; done.
  - pose proof (update_conversation_title_effect l cid title w) as H.
    by destruct (update_conversation_title l cid title w) as [[|] ?].
  - unfold delete_conversation, DELETE_conversation. unfold_io. run_cases; done.
  - unfold register_knowledge_base, INSERT_knowledge_base, SELECT_knowledge_base_id,
      query. unfold_io.
    destruct name, em, cs; run_cases; done.
  - unfold get_knowledge_bases, SELECT_knowledge_bases, query. unfold_io.
    run_cases; done.
  - pose proof (register_document_atomic l k f dt pc cc w) as H.
    by destruct (register_document l k f dt pc cc w) as [[|] ?].
  - unfold get_documents, SELECT_documents, query. unfold_io. run_cases; done.
  - destruct (has_nul key) eqn:Hnul.
    + rewrite (get_setting_unsent l key dflt w Hnul). by destruct (reachable l).
    + rewrite (get_setting_reads l key dflt Hnul w).
      by destruct (reachable l), (lost l 0).
  - unfold set_setting, UPSERT_setting. unfold_io. run_cases; done.
  - rewrite (get_active_knowledge_base_run l1 l2 w).
    destruct (reachable l1); [|done]. destruct (lost l1 0); [done|].
    destruct (active_name (store w)) as [name|]; [|done].
    destruct (decide (name = "")); [done|].
    by destruct (reachable l2), (lost l2 0).
  - unfold set_active_knowledge_base, set_setting, UPSERT_setting. unfold_io.
    run_cases; done.
Qed.

(** X18. The constraints of the schema hold in every store that the module
    can reach: after any sequence of calls on the empty store, whatever
    fails, the keys are unique and below their sequences, the names of the
    knowledge bases and the keys of the settings are unique, and every
    message, source and document references a row that exists. *)
Theorem reachable_stores_are_consistent rt cs :
  consistent (replay rt cs initial).2.
Proof. apply replay_consistent, initial_consistent. Qed.

(** X19. [get_active_knowledge_base] over links that may fail.  It raises
    only OperationalError, only when one of its two connections is refused,
    and the world is then as it was.  When it returns, the tables and the
    sequences are unchanged, and either the result is the one of the store
    ([resolved]) and nothing was logged, or a query was lost, one error was
    logged and the result is [None]. *)
Theorem get_active_knowledge_base_failures l1 l2 w :
  match get_active_knowledge_base l1 l2 w with
  | (Returned r, w') =>
      store w' = store w ∧ counters w' = counters w ∧
      (r = resolved (store w) ∧ log w' = log w ∨
       r = None ∧ ∃ msg, log w' = log w ++ [ERROR msg OperationalError])
  | (Raised e, w') =>
      e = OperationalError ∧ w' = w ∧ (reachable l1 = false ∨ reachable l2 = false)
  end.
Proof.
  rewrite (get_active_knowledge_base_run l1 l2 w). unfold resolved.
  destruct (reachable l1); [|by auto].
  destruct (lost l1 0); simpl.
  { split_and!; try done. right. split; [done|]. by eexists. }
  destruct (active_name (store w)) as [name|]; [|by auto].
  destruct (decide (name = "")); [by auto|].
  destruct (reachable l2); [|by auto].
  destruct (lost l2 0); simpl; [|by auto].
  split_and!; try done. right. split; [done|]. by eexists.
Qed.

(** ** Errors and the log *)













(** * Closed examples *)

(** C1: registering ["kb1"] twice on the empty store. *)
Lemma register_knowledge_base_idempotent_witness :
  ∃ i k w1 w2,
    register_knowledge_base calm (Some "kb1") (Some "minilm") (Some "fixed")
      (Some "") initial = (Returned (Some i), w1) ∧
    register_knowledge_base calm (Some "kb1") (Some "minilm") (Some "fixed")
      (Some "") w1 = (Returned (Some i), w2) ∧
    store w2 = store w1 ∧
    named (Some "kb1") (store w2) = [k] ∧
    KnowledgeBase.id k = i.
Proof.
  destruct (register_knowledge_base_idempotent calm calm "kb1" initial)
    as (_ & _ & H).
  - split; [reflexivity | intros n; reflexivity].
  - split; [reflexivity | intros n; reflexivity].
  - split; simpl; constructor.
  - apply (H "minilm" "fixed" (Some "") (Some "minilm") (Some "fixed") (Some ""));
      reflexivity.
Defined.

(** C4: deleting the conversation of [chat] removes its message and the
    three sources. *)
Lemma delete_conversation_cascades_witness :
  consistent chat ∧
  messages (store (delete_conversation calm 1 chat).2) = [] ∧
  sources (store (delete_conversation calm 1 chat).2) = [].
Proof.
  assert (consistent chat) as Hchat.
  { apply replay_consistent. split; simpl; constructor. }
  split; [exact Hchat|].
  pose proof (delete_conversation_cascades calm 1 chat Hchat) as H.
  destruct (delete_conversation calm 1 chat) as [[u|e] w'] eqn:E.
  - destruct H as (_ & Hm & Hs & _). simpl. rewrite Hm, Hs. by vm_compute.
  - vm_compute in E. discriminate.
Defined.



(** C9: naming a knowledge base that does not exist. *)
Lemma get_active_knowledge_base_resolves_witness :
  ∃ w',
    set_active_knowledge_base plain calm (PyStr "missing") initial =
      (Returned (), w') ∧
    active_name (store w') = Some "missing" ∧
    get_active_knowledge_base calm calm w' = (Returned None, w').
Proof.
  destruct (get_active_knowledge_base_resolves plain calm calm calm initial)
    as (_ & H & _).
  - split; [reflexivity | intros n; reflexivity].
  - split; [reflexivity | intros n; reflexivity].
  - split; [reflexivity | intros n; reflexivity].
  - split; simpl; constructor.
  - apply (H "missing"); [reflexivity|]. simpl. apply not_elem_of_nil.
Defined.

(** C10: a knowledge base registered without an embedding model. *)
Lemma register_knowledge_base_none_witness :
  register_knowledge_base calm (Some "kb2") None (Some "fixed") (Some "") initial =
    (Returned None, World no_rows (Sequences 1 1 1 1 2 1) []).
Proof.
  apply (register_knowledge_base_none calm (Some "kb2") None (Some "fixed")
           (Some "") initial NotNullViolation (Sequences 1 1 1 1 2 1)).
  - split; [reflexivity | intros n; reflexivity].
  - reflexivity.
  - reflexivity.
  - reflexivity.
Defined.

(** C6: when the server refuses the connection every read-only function
    raises. *)
Lemma reads_raise_when_refused :
  get_conversations refused initial = (Raised OperationalError, initial) ∧
  get_messages refused 1 initial = (Raised OperationalError, initial) ∧
  get_sources refused 1 initial = (Raised OperationalError, initial) ∧
  get_knowledge_bases refused initial = (Raised OperationalError, initial) ∧
  get_documents refused 1 initial = (Raised OperationalError, initial) ∧
  get_setting refused "k" PyNone initial = (Raised OperationalError, initial).
Proof. by split_and!. Qed.

(** C9: the setting is set and names a knowledge base that exists, the one
    called [""], and [get_active_knowledge_base] returns [None]. *)
Lemma get_active_knowledge_base_unnamed :
  active_name (store unnamed) = Some "" ∧
  named (Some "") (store unnamed) =
    [KnowledgeBase.Row 1 "" (Some "") 0 0 "minilm" "fixed"] ∧
  get_active_knowledge_base calm calm unnamed = (Returned None, unnamed).
Proof. by split_and!; vm_compute. Qed.

(** C2: three registrations against one knowledge base, of which the second
    loses its commit: two documents are stored and counted. *)
Example document_count_example :
  let h :=
    replay plain
      [RegisterKnowledgeBase calm (Some "kb1") (Some "minilm") (Some "fixed") (Some "");
       RegisterDocument calm 1 "a.pdf" "pdf" 3 12;
       RegisterDocument (Link true (λ n, bool_decide (n = 2%nat)) 0) 1 "b.pdf" "pdf" 5 20;
       RegisterDocument calm 1 "c.pdf" "pdf" 1 4;
       RegisterDocument calm 7 "d.pdf" "pdf" 1 4]
      initial in
  returned_flags h.1 = [true; true; false; true; false] ∧
  KnowledgeBase.document_count <$> knowledge_bases (store h.2) = [2] ∧
  Document.filename <$> documents (store h.2) = ["a.pdf"; "c.pdf"].
Proof. by vm_compute. Qed.

(** C3: a message added to [chat] at time 5, which moves [last_updated] of
    the conversation to 5; the same call when the commit is lost, where the
    rollback of the handler finds the connection closed; a message for a
    conversation that does not exist, for an id that is not an INTEGER, and
    with a NUL character in its content. *)
Example add_message_example :
  (add_message later 1 "user" "Which page?" chat).1 = Returned 2 ∧
  Message.content <$> messages (store (add_message later 1 "user" "Which page?" chat).2) =
    ["See the handbook."; "Which page?"] ∧
  conversations (store chat) = [Conversation.Row 1 "New Chat" 0 0] ∧
  conversations (store (add_message later 1 "user" "Which page?" chat).2) =
    [Conversation.Row 1 "New Chat" 0 5] ∧
  add_message (Link true (λ n, bool_decide (n = 2%nat)) 0) 1 "user" "Which page?" chat =
    (Raised InterfaceError, World (store chat) (Sequences 2 3 4 1 1 1) (log chat)) ∧
  add_message calm 9 "user" "Which page?" chat =
    (Raised ForeignKeyViolation,
     World (store chat) (Sequences 2 3 4 1 1 1)
       (log chat ++ [ERROR "Error adding message" ForeignKeyViolation])) ∧
  add_message calm (2 ^ 31) "user" "Which page?" chat =
    (Raised DataError,
     World (store chat) (counters chat)
       (log chat ++ [ERROR "Error adding message" DataError])) ∧
  add_message calm 1 "user" (String Ascii.zero "Which page?") chat =
    (Raised ValueError,
     World (store chat) (counters chat)
       (log chat ++ [ERROR "Error adding message" ValueError])).
Proof. by vm_compute. Qed.

(** Arguments that are refused: a [str] with a NUL character is not sent
    (C1: also when the name is taken; C7; X3), and a number that is not an
    INTEGER is refused by the server before a key is drawn (X12).  Nothing
    is stored and the error is logged. *)
Example refused_arguments_example :
  let w := (replay plain library initial).2 in
  register_knowledge_base calm (Some "kb1") (Some (String Ascii.zero "minilm"))
    (Some "fixed") (Some "") w =
    (Raised ValueError,
     World (store w) (counters w)
       (log w ++ [ERROR "Error registering knowledge base" ValueError])) ∧
  set_setting plain calm "k" (PyStr (String Ascii.zero "v")) w =
    (Raised ValueError,
     World (store w) (counters w) (log w ++ [ERROR "Error setting value" ValueError])) ∧
  get_setting calm (String Ascii.zero "k") (PyStr "none") w =
    (Returned (PyStr "none"),
     World (store w) (counters w) (log w ++ [ERROR "Error getting setting" ValueError])) ∧
  create_conversation calm (String Ascii.zero "New Chat") w =
    (Raised ValueError,
     World (store w) (counters w)
       (log w ++ [ERROR "Error creating conversation" ValueError])) ∧
  register_document calm (2 ^ 31) "e.pdf" "pdf" 1 4 w =
    (Raised DataError,
     World (store w) (counters w)
       (log w ++ [ERROR "Error registering document" DataError])) ∧
  register_document calm 1 (String Ascii.zero "e.pdf") "pdf" 1 4 w =
    (Raised ValueError,
     World (store w) (counters w)
       (log w ++ [ERROR "Error registering document" ValueError])).
Proof. by vm_compute. Qed.

(** X1: the message of [chat], as [get_messages] lists it. *)
Lemma listings_are_sorted_witness :
  ∃ listing,
    get_messages calm 1 chat = (Returned listing, chat) ∧
    listing ≡ₚ
      (λ m, (Message.id m, Message.role m, Message.content m, Message.created_at m))
        <$> filter (λ m, Message.conversation_id m = 1) (messages (store chat)) ∧
    StronglySorted (λ a b, snd a ≤ snd b) listing.
Proof.
  destruct (listings_are_sorted calm chat) as (_ & H & _);
    [reflexivity | reflexivity | exact (H 1)].
Defined.

(** X3: a second conversation, created at time 5 beside the one of [chat]. *)
Lemma create_conversation_listed_witness :
  ∃ id w' before after,
    create_conversation later "Second" chat = (Returned id, w') ∧
    get_conversations calm chat = (Returned before, chat) ∧
    get_conversations calm w' = (Returned after, w') ∧
    after ≡ₚ (id, "Second", 5) :: before ∧
    (Forall (λ c, Conversation.last_updated c < 5) (conversations (store chat)) →
     head after = Some (id, "Second", 5)).
Proof.
  apply (create_conversation_listed later calm "Second" chat).
  - split; [reflexivity | intros n; reflexivity].
  - apply replay_consistent. split; simpl; constructor.
  - reflexivity.
  - reflexivity.
  - reflexivity.
Defined.

(** X4: a message added to the conversation of [chat] at time 5. *)
Lemma add_message_moves_to_front_witness :
  ∃ id w' rest,
    add_message later 1 "user" "Which page?" chat = (Returned id, w') ∧
    get_conversations calm w' = (Returned ((1, "New Chat", 0) :: rest), w').
Proof.
  destruct (add_message_moves_to_front later calm
              (Conversation.Row 1 "New Chat" 0 0) "user" "Which page?" chat)
    as (H & _).
  - split; [reflexivity | intros n; reflexivity].
  - apply replay_consistent. split; simpl; constructor.
  - reflexivity.
  - reflexivity.
  - vm_compute. left.
  - vm_compute. repeat constructor.
  - apply H; reflexivity.
Defined.

(** X5: the same message, as [get_messages] lists it. *)
Lemma add_message_listed_witness :
  ∃ id w' before earlier,
    add_message later 1 "user" "Which page?" chat = (Returned id, w') ∧
    get_messages calm 1 chat = (Returned before, chat) ∧
    get_messages calm 1 w' =
      (Returned (earlier ++ [(id, "user", "Which page?", 5)]), w') ∧
    earlier ≡ₚ before ∧
    ∀ other, other ≠ 1 →
      (get_messages calm other w').1 = (get_messages calm other chat).1.
Proof.
  destruct (add_message_listed later calm 1 "user" "Which page?" chat) as (H & _).
  - split; [reflexivity | intros n; reflexivity].
  - apply replay_consistent. split; simpl; constructor.
  - reflexivity.
  - reflexivity.
  - vm_compute. left.
  - vm_compute. repeat constructor.
  - apply H; reflexivity.
Defined.

(** X6: a title written for the id 2, which no conversation of [chat] has:
    the call returns and [chat] is as it was. *)
Lemma update_conversation_title_renames_witness :
  update_conversation_title calm 2 "Handbook" chat = (Returned (), chat).
Proof.
  destruct (update_conversation_title_renames calm calm 2 "Handbook" chat
              eq_refl eq_refl) as (_ & H).
  destruct H as (w' & E & _ & _ & Hw).
  - split; [reflexivity | intros n; reflexivity].
  - reflexivity.
  - rewrite E. f_equal. apply Hw.
    apply (bool_decide_unpack _). reflexivity.
Defined.

(** X6: the conversation of [chat], renamed. *)
Example update_conversation_title_example :
  (get_conversations calm (update_conversation_title calm 1 "Handbook" chat).2).1 =
    Returned [(1, "Handbook", 0)] ∧
  update_conversation_title calm 1 (String Ascii.zero "Handbook") chat =
    (Raised ValueError,
     World (store chat) (counters chat)
       (log chat ++ [ERROR "Error updating conversation title" ValueError])).
Proof. by vm_compute. Qed.

(** X7: the conversation of [chat], deleted twice. *)
Lemma delete_conversation_idempotent_witness :
  ∃ w1,
    delete_conversation calm 1 chat = (Returned (), w1) ∧
    delete_conversation calm 1 w1 = (Returned (), w1).
Proof.
  destruct (delete_conversation_idempotent calm calm 1 chat) as (w1 & H1 & H2 & _).
  - split; [reflexivity | intros n; reflexivity].
  - split; [reflexivity | intros n; reflexivity].
  - exists w1. split; [exact H1 | exact H2].
Defined.

(** X8: after the deletion, the message of [chat] and its sources are no
    longer listed. *)
Lemma delete_conversation_isolated_witness :
  (get_messages calm 1 (delete_conversation calm 1 chat).2).1 = Returned [] ∧
  (get_sources calm 1 (delete_conversation calm 1 chat).2).1 = Returned [].
Proof.
  assert (consistent chat) as Hchat.
  { apply replay_consistent. split; simpl; constructor. }
  pose proof (delete_conversation_isolated calm calm 1 chat Hchat eq_refl eq_refl)
    as H.
  destruct (delete_conversation calm 1 chat) as [[u|e] w'] eqn:E.
  - destruct H as (Hm & _ & Hs). split; [exact Hm|].
    apply (Hs (Message.Row 1 1 "assistant" "See the handbook." 0)).
    vm_compute. left.
  - vm_compute in E. discriminate.
Defined.

(** X9: the knowledge base of [library] counts its two documents. *)
Lemma document_count_is_listing_witness :
  ∃ listing,
    get_documents calm 1 (replay plain library initial).2 =
      (Returned listing, (replay plain library initial).2) ∧
    Z.of_nat (length listing) = 2.
Proof.
  apply (document_count_is_listing plain library calm
           (KnowledgeBase.Row 1 "kb1" (Some "") 0 2 "minilm" "fixed")).
  - reflexivity.
  - reflexivity.
  - vm_compute. left.
Defined.

(** X10: a third document registered in [library], at time 5. *)
Lemma register_document_listed_witness :
  ∃ after,
    (get_documents calm 1
       (register_document later 1 "d.pdf" "pdf" 2 8
          (replay plain library initial).2).2).1 = Returned after ∧
    after ≡ₚ
      [(4, "d.pdf", "pdf", 2, 8, 5); (1, "a.pdf", "pdf", 3, 12, 0);
       (3, "c.pdf", "pdf", 1, 4, 0)].
Proof.
  pose proof (register_document_listed later calm 1 "d.pdf" "pdf" 2 8
                (replay plain library initial).2 eq_refl eq_refl) as H.
  destruct (register_document later 1 "d.pdf" "pdf" 2 8
              (replay plain library initial).2) as [[id|e] w'] eqn:E.
  - destruct H as (before & after & Hb & Ha & Hp & _).
    exists after. cbn [snd]. rewrite Ha. split; [reflexivity|].
    vm_compute in E. injection E as <- Hw'.
    vm_compute in Hb. injection Hb as <-. exact Hp.
  - vm_compute in E. discriminate.
Defined.

(** X11: the first knowledge base, registered on the empty store. *)
Lemma register_knowledge_base_listed_witness :
  ∃ id w' before after,
    register_knowledge_base calm (Some "kb1") (Some "minilm") (Some "fixed")
      (Some "") initial = (Returned (Some id), w') ∧
    get_knowledge_bases calm initial = (Returned before, initial) ∧
    get_knowledge_bases calm w' = (Returned after, w') ∧
    after ≡ₚ KnowledgeBase.Row id "kb1" (Some "") 0 0 "minilm" "fixed" :: before ∧
    get_documents calm id w' = (Returned [], w').
Proof.
  apply (register_knowledge_base_listed calm calm "kb1" "minilm" "fixed" (Some "")
           initial).
  - split; [reflexivity | intros n; reflexivity].
  - split; simpl; constructor.
  - reflexivity.
  - reflexivity.
  - simpl. apply not_elem_of_nil.
  - reflexivity.
  - reflexivity.
  - reflexivity.
  - reflexivity.
Defined.

(** X12: on the empty store every reference is to a row that does not
    exist. *)
Lemma orphans_are_refused_witness :
  (add_message calm 9 "user" "Hello" initial).1 = Raised ForeignKeyViolation ∧
  (∃ e, (add_sources plain calm 9 [∅] initial).1 = Raised e) ∧
  (register_document calm 9 "a.pdf" "pdf" 3 12 initial).1 = Raised ForeignKeyViolation.
Proof.
  destruct (orphans_are_refused plain calm 9 "user" "Hello" 9 ∅ [] 9 "a.pdf" "pdf"
              3 12 initial)
    as ((e0 & Hm & -> & _) & (e & Hs & _) & (e' & Hd & -> & _)).
  - split; [reflexivity | intros n; reflexivity].
  - split; simpl; constructor.
  - simpl. apply not_elem_of_nil.
  - simpl. apply not_elem_of_nil.
  - simpl. apply not_elem_of_nil.
  - split; [exact Hm|]. split; [by exists e | exact Hd].
Defined.

(** X14: writing the active knowledge base does not give ["theme"] a
    value. *)
Lemma set_setting_other_keys_witness :
  (get_setting calm "theme" PyNone
     (set_setting plain calm "active_knowledge_base" (PyStr "kb1") initial).2).1 =
    (get_setting calm "theme" PyNone initial).1.
Proof.
  apply (set_setting_other_keys plain calm calm "active_knowledge_base" (PyStr "kb1")
           "theme" PyNone initial).
  discriminate.
Defined.

(** X15: the knowledge base of [library], made the active one. *)
Lemma set_active_knowledge_base_selects_witness :
  ∃ w',
    set_active_knowledge_base plain calm (PyStr "kb1") (replay plain library initial).2 =
      (Returned (), w') ∧
    get_active_knowledge_base calm calm w' =
      (Returned (Some (KnowledgeBase.Row 1 "kb1" (Some "") 0 2 "minilm" "fixed")), w').
Proof.
  apply (set_active_knowledge_base_selects plain calm calm calm
           (KnowledgeBase.Row 1 "kb1" (Some "") 0 2 "minilm" "fixed")
           (replay plain library initial).2).
  - split; [reflexivity | intros n; reflexivity].
  - split; [reflexivity | intros n; reflexivity].
  - split; [reflexivity | intros n; reflexivity].
  - apply replay_consistent. split; simpl; constructor.
  - vm_compute. left.
  - discriminate.
Defined.


(** X16: a score that is not a single-precision number is stored as the
    REAL column rounds it, and a score that REAL cannot hold is refused. *)
Example add_sources_real_example :
  Source.score <$>
    sources (store (add_sources plain calm 1
                      [{[ "source" := PyStr "d.pdf"; "score" := PyFloat (0.1 + 0.2) ]}]
                      chat).2) =
    [0.9; 0.3; 0.6; 0.3]%float ∧
  (0.1 + 0.2 =? 0.3)%float = false ∧
  add_sources plain calm 1
    [{[ "source" := PyStr "d.pdf"; "score" := PyFloat 1e39 ]}] chat =
    (Raised DataError,
     World (store chat) (counters chat)
       (log chat ++ [ERROR "Error adding sources" DataError])).
Proof. by vm_compute. Qed.

(** X17: a message for a conversation that does not exist. *)
Lemma raising_calls_store_nothing_witness :
  store (run plain (AddMessage calm 9 "user" "Which page?") chat).2 = store chat.
Proof.
  apply (raising_calls_store_nothing plain (AddMessage calm 9 "user" "Which page?")
           chat).
  reflexivity.
Defined.
